(** * Client / project / invoice manager: the JSON-backed REST routes

    A shallow embedding of the Express routes over the flat-file store
    (the repositories of [utils/jsonDb] and the routers mounted at
    [/api/invoices], [/api/clients] and [/api/projects]), of the pre-save
    middleware of the Mongoose model [models/Invoice.js] and of the form
    totals of [InvoicesPage.tsx], followed by the properties of the
    invoice computation, the invoice life cycle and the repositories.

    Conventions of the embedding.
    - In the routes of the first two parts a JavaScript number is an exact
      rational ([Q]) and numeric equations are stated up to [==]: they
      serve where only the shape of the computation or of the store
      matters.  The creation of an invoice, whose stored amounts are the
      subject of the first invariant, is embedded a second time in module
      [Double] with the numbers as they are, IEEE 754 doubles with
      rounding, the infinities, [NaN] and what [JSON.stringify] makes of
      them.
    - An ISO-8601 date string is the instant it denotes, in milliseconds
      since the epoch ([Z]).
    - A stored object or a request body is a record whose fields are
      optional: [None] is JavaScript's [undefined] (key absent).  Keys other
      than the ones of the entity are not modelled, and a present field has
      the type the client's TypeScript interface gives it.
    - The clock and the random suffix of [generateId] are read from an
      explicit environment; the three JSON files are the three lists of
      the store.  A handler is a function from the store to a response and
      the store it leaves; failures of the file system (the [catch] blocks
      answering 500) are not modelled.
    - A handler of the first two parts takes the files as its first read
      finds them.  What a read finds depends on the deployment
      ([initializeDatabase], run before every read): module [Deployed]
      has the routes from the files on disk to the files on disk, and the
      properties that chain several requests are stated on it. *)

From Stdlib Require Import QArith Qround Lqa Ascii DecimalString.
From stdpp Require Import base option list strings.

Open Scope string_scope.
Open Scope Z_scope.
Open Scope Q_scope.
Open Scope list_scope.
Open Scope stdpp_scope.

(** ** JavaScript values *)

(** Truthiness, as tested by [!x], [x ? a : b] and [x || d]. *)
Class Truthy (A : Type) := truthy : A → bool.

#[global] Instance truthy_string : Truthy string :=
  λ s, negb (String.eqb s "").
#[global] Instance truthy_number : Truthy Q :=
  λ q, negb (Qeq_bool q 0).
(** An array is an object: always truthy, also when empty. *)
#[global] Instance truthy_array {A} : Truthy (list A) :=
  λ _, true.
#[global] Instance truthy_undefined `{Truthy A} : Truthy (option A) :=
  λ o, match o with Some a => truthy a | None => false end.

(** [x || d] *)
Definition js_or `{Truthy A} (x : option A) (d : A) : A :=
  match x with
  | Some a => if truthy a then a else d
  | None => d
  end.

(** [String(n)] and [n.toString()] for a non-negative integer. *)
Definition String_of_N (n : N) : string :=
  NilEmpty.string_of_uint (N.to_uint n).

Fixpoint repeat_char (n : nat) (c : Ascii.ascii) : string :=
  match n with
  | O => ""
  | S k => String c (repeat_char k c)
  end.

(** [s.padStart(width, c)] for a one-character filler. *)
Definition padStart (width : nat) (c : Ascii.ascii) (s : string) : string :=
  repeat_char (width - String.length s) c +:+ s.

(** ** Environment and responses *)

Record Env := mkEnv {
  now : Z;            (* new Date() / Date.now() *)
  randomSuffix : string  (* Math.random().toString(36).substr(2, 9) *)
}.

(** [Date.now().toString() + Math.random().toString(36).substr(2, 9)] *)
Definition generateId (e : Env) : string :=
  String_of_N (Z.to_N (now e)) +:+ randomSuffix e.

Record Response (A : Type) := mkResponse {
  statusCode : nat;
  message : string;
  payload : option A
}.
Arguments mkResponse {A} _ _ _.
Arguments statusCode {A} _.
Arguments message {A} _.
Arguments payload {A} _.

(** ** Entities *)

Module Client.
Record t := mk {
  id : option string;
  name : option string;
  email : option string;
  company : option string;
  whatsapp : option string;
  phone : option string;
  address : option string;
  notes : option string;
  status : option string;
  totalProjects : option Q;
  totalRevenue : option Q;
  createdAt : option Z;
  updatedAt : option Z
}.
End Client.

Module Project.
Record Milestone := mkMilestone {
  m_title : string;
  m_dueDate : Z;
  m_completed : bool
}.

Record t := mk {
  id : option string;
  title : option string;
  description : option string;
  clientId : option string;
  startDate : option Z;
  endDate : option Z;         (* [None] also stands for [null] *)
  budget : option Q;
  status : option string;
  priority : option string;
  tags : option (list string);
  milestones : option (list Milestone);
  progress : option Q;
  totalHours : option Q;
  createdAt : option Z;
  updatedAt : option Z
}.
End Project.

Module Invoice.
(** An item as the request carries it. *)
Record ItemInput := mkItemInput {
  in_description : string;
  in_quantity : Q;
  in_rate : Q
}.

(** An item as it is stored. *)
Record Item := mkItem {
  description : string;
  quantity : Q;
  rate : Q;
  amount : Q
}.

Record t := mk {
  id : option string;
  invoiceNumber : option string;
  clientId : option string;
  projectId : option string;    (* [None] also stands for [null] *)
  items : option (list Item);
  subtotal : option Q;
  discount : option Q;
  discountAmount : option Q;
  tax : option Q;
  taxAmount : option Q;
  total : option Q;
  status : option string;
  dueDate : option Z;
  notes : option string;
  paidAmount : option Q;
  createdAt : option Z;
  updatedAt : option Z
}.

(** A request body of the invoice routes: the same keys, with the items
    as the request carries them. *)
Record Body := mkBody {
  b_id : option string;
  b_invoiceNumber : option string;
  b_clientId : option string;
  b_projectId : option string;
  b_items : option (list ItemInput);
  b_subtotal : option Q;
  b_discount : option Q;
  b_discountAmount : option Q;
  b_tax : option Q;
  b_taxAmount : option Q;
  b_total : option Q;
  b_status : option string;
  b_dueDate : option Z;
  b_notes : option string;
  b_paidAmount : option Q;
  b_createdAt : option Z;
  b_updatedAt : option Z
}.

(** [{...a, ...b}]: a key of [b] wins over the same key of [a]. *)
Definition spread (a b : t) : t :=
  let pick {A} (f : t → option A) : option A :=
    match f b with Some v => Some v | None => f a end in
  mk (pick id) (pick invoiceNumber) (pick clientId) (pick projectId)
     (pick items) (pick subtotal) (pick discount) (pick discountAmount)
     (pick tax) (pick taxAmount) (pick total) (pick status) (pick dueDate)
     (pick notes) (pick paidAmount) (pick createdAt) (pick updatedAt).
End Invoice.

Record Store := mkStore {
  clients : list Client.t;
  projects : list Project.t;
  invoices : list Invoice.t
}.

(** ** The flat-file repositories ([jsonDb.js])

    [readJsonFile] yields the list of the store (an unreadable file reads
    as the empty list); [writeJsonFile] replaces it.  The store is the one
    [initializeDatabase] leaves, see [Deployment] below. *)

Module clientDb.
Definition getAll (st : Store) : list Client.t := clients st.

Definition writeAll (cs : list Client.t) (st : Store) : Store :=
  mkStore cs (projects st) (invoices st).

(** [{ id: generateId(), ...clientData, createdAt, updatedAt }]: an [id]
    of [clientData] wins over the generated one. *)
Definition create (e : Env) (clientData : Client.t) (st : Store)
  : Client.t * Store :=
  let newClient :=
    Client.mk
      (match Client.id clientData with
       | Some i => Some i
       | None => Some (generateId e)
       end)
      (Client.name clientData) (Client.email clientData)
      (Client.company clientData) (Client.whatsapp clientData)
      (Client.phone clientData) (Client.address clientData)
      (Client.notes clientData) (Client.status clientData)
      (Client.totalProjects clientData) (Client.totalRevenue clientData)
      (Some (now e)) (Some (now e)) in
  (newClient, writeAll (clients st ++ [newClient]) st).

(** [clients.find(c => c.id === id)] *)
Definition findById (k : string) (st : Store) : option Client.t :=
  snd <$> list_find (λ c, Client.id c = Some k) (clients st).
End clientDb.

Module projectDb.
Definition getAll (st : Store) : list Project.t := projects st.

Definition writeAll (ps : list Project.t) (st : Store) : Store :=
  mkStore (clients st) ps (invoices st).

Definition create (e : Env) (projectData : Project.t) (st : Store)
  : Project.t * Store :=
  let newProject :=
    Project.mk
      (match Project.id projectData with
       | Some i => Some i
       | None => Some (generateId e)
       end)
      (Project.title projectData) (Project.description projectData)
      (Project.clientId projectData) (Project.startDate projectData)
      (Project.endDate projectData) (Project.budget projectData)
      (Project.status projectData) (Project.priority projectData)
      (Project.tags projectData) (Project.milestones projectData)
      (Project.progress projectData) (Project.totalHours projectData)
      (Some (now e)) (Some (now e)) in
  (newProject, writeAll (projects st ++ [newProject]) st).
End projectDb.

Module invoiceDb.
Import Invoice.

Definition getAll (st : Store) : list Invoice.t := invoices st.

Definition writeAll (l : list Invoice.t) (st : Store) : Store :=
  mkStore (clients st) (projects st) l.

Definition create (e : Env) (invoiceData : Invoice.t) (st : Store)
  : Invoice.t * Store :=
  let newInvoice :=
    mk (match id invoiceData with
        | Some i => Some i
        | None => Some (generateId e)
        end)
       (invoiceNumber invoiceData) (clientId invoiceData)
       (projectId invoiceData) (items invoiceData) (subtotal invoiceData)
       (discount invoiceData) (discountAmount invoiceData)
       (tax invoiceData) (taxAmount invoiceData) (total invoiceData)
       (status invoiceData) (dueDate invoiceData) (notes invoiceData)
       (paidAmount invoiceData) (Some (now e)) (Some (now e)) in
  (newInvoice, writeAll (invoices st ++ [newInvoice]) st).

(** [invoices.findIndex(i => i.id === id)], [None] for [-1]. *)
Definition findIndex (k : string) (l : list Invoice.t) : option nat :=
  fst <$> list_find (λ i, id i = Some k) l.

(** [invoices.find(i => i.id === id)] *)
Definition findById (k : string) (st : Store) : option Invoice.t :=
  snd <$> list_find (λ i, id i = Some k) (invoices st).

(** [{ ...invoices[invoiceIndex], ...updateData, updatedAt }] written
    back at the index; [None] (the source's [null]) when no invoice has
    the id.  The index comes from [findIndex], so the lookup at the index
    finds an invoice. *)
Definition update (e : Env) (k : string) (updateData : Invoice.t)
    (st : Store) : option Invoice.t * Store :=
  match findIndex k (invoices st) with
  | None => (None, st)
  | Some invoiceIndex =>
    match invoices st !! invoiceIndex with
    | None => (None, st)
    | Some old =>
      let merged := spread old updateData in
      let updated :=
        mk (id merged) (invoiceNumber merged) (clientId merged)
           (projectId merged) (items merged) (subtotal merged)
           (discount merged) (discountAmount merged) (tax merged)
           (taxAmount merged) (total merged) (status merged)
           (dueDate merged) (notes merged) (paidAmount merged)
           (createdAt merged) (Some (now e)) in
      (Some updated, writeAll (<[invoiceIndex := updated]> (invoices st)) st)
    end
  end.

(** [invoices.splice(invoiceIndex, 1)] *)
Definition delete (k : string) (st : Store) : bool * Store :=
  match findIndex k (invoices st) with
  | None => (false, st)
  | Some invoiceIndex =>
    (true, writeAll (base.delete invoiceIndex (invoices st)) st)
  end.
End invoiceDb.

(** ** The invoice computation *)

Record Totals := mkTotals {
  t_subtotal : Q;
  t_discountAmount : Q;
  t_taxAmount : Q;
  t_total : Q
}.

(** [items.reduce((sum, item) => sum + (item.quantity * item.rate), 0)],
    without rounding; [Double.sumItems] is the sum of the doubles. *)
Definition sumItems (items : list Invoice.ItemInput) : Q :=
  fold_left (λ sum item, sum + Invoice.in_quantity item * Invoice.in_rate item)
            items 0.

(** The four lines under "Calculate totals", the same in [POST /] and in
    [PUT /:id] of the invoice routes, without rounding;
    [Double.routeTotals] has them on the doubles. *)
Definition routeTotals (items : list Invoice.ItemInput)
    (discount tax : option Q) : Totals :=
  let subtotal := sumItems items in
  let discountAmount :=
    match discount with
    | Some d => if truthy d then subtotal * d / 100 else 0
    | None => 0
    end in
  let taxAmount :=
    match tax with
    | Some t => if truthy t then (subtotal - discountAmount) * t / 100 else 0
    | None => 0
    end in
  let total := subtotal - discountAmount + taxAmount in
  mkTotals subtotal discountAmount taxAmount total.

(** [items.map(item => ({ description, quantity, rate, amount }))] *)
Definition storeItems (items : list Invoice.ItemInput) : list Invoice.Item :=
  map (λ item,
         Invoice.mkItem (Invoice.in_description item) (Invoice.in_quantity item)
           (Invoice.in_rate item)
           (Invoice.in_quantity item * Invoice.in_rate item))
      items.



(** The Mongoose schema of [models/Invoice.js], restricted to the paths the
    pre-save middleware reads or assigns. *)
Module InvoiceModel.
Record doc := mkDoc {
  items : list Invoice.Item;
  subtotal : Q;
  taxRate : Q;
  taxAmount : Q;
  discountRate : Q;
  discountAmount : Q;
  total : Q
}.

(** [invoiceSchema.pre('save', ...)] *)
Definition pre_save (this : doc) : doc :=
  let subtotal := fold_left (λ sum item, sum + Invoice.amount item)
                            (items this) 0 in
  let taxAmount := (subtotal * taxRate this) / 100 in
  let discountAmount := (subtotal * discountRate this) / 100 in
  let total := subtotal + taxAmount - discountAmount in
  mkDoc (items this) subtotal (taxRate this) taxAmount (discountRate this)
        discountAmount total.
End InvoiceModel.

(** ** The invoice routes *)

Definition THIRTY_DAYS : Z := (30 * 24 * 60 * 60 * 1000)%Z.

(** [POST /api/invoices] *)
Definition post_invoice (e : Env) (body : Invoice.Body) (st : Store)
  : Response Invoice.t * Store :=
  let discount := Invoice.b_discount body in
  let tax := Invoice.b_tax body in
  (* if (!clientId || !items || items.length === 0) *)
  match Invoice.b_clientId body, Invoice.b_items body with
  | Some clientId, Some items =>
    if negb (truthy clientId) || (length items =? 0)%nat
    then (mkResponse 400 "Client and at least one item are required" None, st)
    else
      match clientDb.findById clientId st with
      | None => (mkResponse 400 "Client not found" None, st)
      | Some client =>
        let invoices := invoiceDb.getAll st in
        let invoiceNumber :=
          "INV-"
          +:+ padStart 4 "0"%char
                (String_of_N (N.of_nat (length invoices + 1))) in
        let totals := routeTotals items discount tax in
        let newInvoice :=
          Invoice.mk
            None
            (Some invoiceNumber)
            (Some clientId)
            (match Invoice.b_projectId body with
             | Some p => if truthy p then Some p else None
             | None => None
             end)
            (Some (storeItems items))
            (Some (t_subtotal totals))
            (Some (js_or discount 0))
            (Some (t_discountAmount totals))
            (Some (js_or tax 0))
            (Some (t_taxAmount totals))
            (Some (t_total totals))
            (Some "draft")
            (Some (default (now e + THIRTY_DAYS)%Z (Invoice.b_dueDate body)))
            (Some (js_or (Invoice.b_notes body) ""))
            (Some 0)
            (Some (now e))
            (Some (now e)) in
        let '(invoice, st') := invoiceDb.create e newInvoice st in
        (mkResponse 201 "Invoice created successfully" (Some invoice), st')
      end
  | _, _ =>
    (mkResponse 400 "Client and at least one item are required" None, st)
  end.

(** [{ ...req.body }], the items apart: when the body has items the handler
    replaces them by the stored form, and otherwise the key is absent. *)
Definition bodyFields (body : Invoice.Body) : Invoice.t :=
  Invoice.mk (Invoice.b_id body) (Invoice.b_invoiceNumber body)
    (Invoice.b_clientId body) (Invoice.b_projectId body) None
    (Invoice.b_subtotal body) (Invoice.b_discount body)
    (Invoice.b_discountAmount body) (Invoice.b_tax body)
    (Invoice.b_taxAmount body) (Invoice.b_total body) (Invoice.b_status body)
    (Invoice.b_dueDate body) (Invoice.b_notes body) (Invoice.b_paidAmount body)
    (Invoice.b_createdAt body) (Invoice.b_updatedAt body).

(** [PUT /api/invoices/:id] *)
Definition put_invoice (e : Env) (id : string) (body : Invoice.Body)
    (st : Store) : Response Invoice.t * Store :=
  match invoiceDb.findById id st with
  | None => (mkResponse 404 "Invoice not found" None, st)
  | Some invoice =>
    let updateData := bodyFields body in
    let updateData :=
      (* if (items): an array is truthy whatever its length *)
      match Invoice.b_items body with
      | Some items =>
        let totals :=
          routeTotals items (Invoice.b_discount body) (Invoice.b_tax body) in
        Invoice.mk (Invoice.id updateData) (Invoice.invoiceNumber updateData)
          (Invoice.clientId updateData) (Invoice.projectId updateData)
          (Some (storeItems items))
          (Some (t_subtotal totals))
          (Invoice.discount updateData)
          (Some (t_discountAmount totals))
          (Invoice.tax updateData)
          (Some (t_taxAmount totals))
          (Some (t_total totals))
          (Invoice.status updateData) (Invoice.dueDate updateData)
          (Invoice.notes updateData) (Invoice.paidAmount updateData)
          (Invoice.createdAt updateData) (Invoice.updatedAt updateData)
      | None => updateData
      end in
    let '(updatedInvoice, st') := invoiceDb.update e id updateData st in
    (mkResponse 200 "Invoice updated successfully" updatedInvoice, st')
  end.

(** [DELETE /api/invoices/:id] *)
Definition delete_invoice (id : string) (st : Store)
  : Response Invoice.t * Store :=
  match invoiceDb.findById id st with
  | None => (mkResponse 404 "Invoice not found" None, st)
  | Some invoice =>
    (* if (invoice.status !== 'draft') *)
    if bool_decide (Invoice.status invoice ≠ Some "draft")
    then (mkResponse 400 "Only draft invoices can be deleted" None, st)
    else
      let '(_, st') := invoiceDb.delete id st in
      (mkResponse 200 "Invoice deleted successfully" None, st')
  end.

Definition statuses : list string :=
  ["draft"; "sent"; "paid"; "overdue"; "cancelled"].

(** [{ status }], the update of [PUT /:id/status]. *)
Definition statusOnly (status : string) : Invoice.t :=
  Invoice.mk None None None None None None None None None None None
    (Some status) None None None None None.

(** [PUT /api/invoices/:id/status]; [status] is [req.body.status]. *)
Definition put_invoice_status (e : Env) (id : string) (status : option string)
    (st : Store) : Response Invoice.t * Store :=
  match status with
  | Some s =>
    if negb (bool_decide (s ∈ statuses))
    then (mkResponse 400 "Invalid status" None, st)
    else
      match invoiceDb.findById id st with
      | None => (mkResponse 404 "Invoice not found" None, st)
      | Some invoice =>
        let '(updatedInvoice, st') :=
          invoiceDb.update e id (statusOnly s) st in
        (mkResponse 200 "Invoice status updated successfully" updatedInvoice,
         st')
      end
  | None => (mkResponse 400 "Invalid status" None, st)
  end.

(** ** The client routes *)

(** [POST /api/clients]; the body is read through the keys the handler
    destructures. *)
Definition post_client (e : Env) (body : Client.t) (st : Store)
  : Response Client.t * Store :=
  (* if (!name || !email) *)
  match Client.name body, Client.email body with
  | Some name, Some email =>
    if negb (truthy name) || negb (truthy email)
    then (mkResponse 400 "Name and email are required" None, st)
    else
      let clients := clientDb.getAll st in
      (* clients.find(c => c.email === email) *)
      match list_find (λ c, Client.email c = Some email) clients with
      | Some existingClient =>
        (mkResponse 400 "Client with this email already exists" None, st)
      | None =>
        let newClient :=
          Client.mk
            (Some (generateId e))
            (Some name)
            (Some email)
            (Some (js_or (Client.company body) ""))
            (Some (js_or (Client.whatsapp body) ""))
            (Some (js_or (Client.phone body) ""))
            (Some (js_or (Client.address body) ""))
            (Some (js_or (Client.notes body) ""))
            (Some (js_or (Client.status body) "active"))
            (Some 0)
            (Some 0)
            (Some (now e))
            (Some (now e)) in
        let '(client, st') := clientDb.create e newClient st in
        (mkResponse 201 "Client created successfully" (Some client), st')
      end
  | _, _ => (mkResponse 400 "Name and email are required" None, st)
  end.

(** ** The project routes *)

(** [clients[clientIndex].totalProjects = (... || 0) + 1] *)
Definition incrementTotalProjects (c : Client.t) : Client.t :=
  Client.mk (Client.id c) (Client.name c) (Client.email c) (Client.company c)
    (Client.whatsapp c) (Client.phone c) (Client.address c) (Client.notes c)
    (Client.status c)
    (Some (js_or (Client.totalProjects c) 0 + 1))
    (Client.totalRevenue c) (Client.createdAt c) (Client.updatedAt c).

(** [POST /api/projects], with the files read in place: the clients read
    after [projectDb.create] are the ones of the store it left.
    [Deployed.post_project] has the read as a deployment does it. *)
Definition post_project (e : Env) (body : Project.t) (st : Store)
  : Response Project.t * Store :=
  (* if (!title || !clientId) *)
  match Project.title body, Project.clientId body with
  | Some title, Some clientId =>
    if negb (truthy title) || negb (truthy clientId)
    then (mkResponse 400 "Title and client are required" None, st)
    else
      match clientDb.findById clientId st with
      | None => (mkResponse 400 "Client not found" None, st)
      | Some client =>
        let newProject :=
          Project.mk
            None
            (Some title)
            (Some (js_or (Project.description body) ""))
            (Some clientId)
            (Some (default (now e) (Project.startDate body)))
            (Project.endDate body)
            (Some (js_or (Project.budget body) 0))
            (Some (js_or (Project.status body) "pending"))
            (Some (js_or (Project.priority body) "medium"))
            (Some (js_or (Project.tags body) []))
            (Some (js_or (Project.milestones body) []))
            (Some 0)
            (Some 0)
            (Some (now e))
            (Some (now e)) in
        let '(project, st1) := projectDb.create e newProject st in
        (* Update client's project count *)
        let clients := clientDb.getAll st1 in
        let st2 :=
          match list_find (λ c, Client.id c = Some clientId) clients with
          | Some (clientIndex, c) =>
            clientDb.writeAll
              (<[clientIndex := incrementTotalProjects c]> clients) st1
          | None => st1
          end in
        (mkResponse 201 "Project created successfully" (Some project), st2)
      end
  | _, _ => (mkResponse 400 "Title and client are required" None, st)
  end.

Record Overview := mkOverview {
  o_total : nat;
  o_active : nat;
  o_completed : nat;
  o_overdue : nat;
  o_totalBudget : Q;
  o_avgProgress : Z
}.

(** The predicate of the [overdueProjects] filter. *)
Definition isOverdueProject (e : Env) (p : Project.t) : bool :=
  match Project.endDate p with
  | None => false                      (* if (!p.endDate) return false *)
  | Some endDate =>
    (endDate <? now e)%Z && bool_decide (Project.status p ≠ Some "completed")
  end.

(** [Math.round] *)
Definition Math_round (q : Q) : Z := Qfloor (q + (1 # 2)).

(** [list.includes(p.status)] *)
Definition statusIn (l : list string) (p : Project.t) : bool :=
  match Project.status p with
  | Some s => bool_decide (s ∈ l)
  | None => false
  end.

(** The [overview] object of [GET /api/projects/stats/overview]. *)
Definition projects_stats_overview (e : Env) (st : Store) : Overview :=
  let projects := projectDb.getAll st in
  let totalProjects := length projects in
  let activeProjects :=
    length (List.filter (statusIn ["pending"; "in-progress"]) projects) in
  let completedProjects :=
    length (List.filter
              (λ p, bool_decide (Project.status p = Some "completed"))
              projects) in
  let overdueProjects :=
    length (List.filter (isOverdueProject e) projects) in
  let totalBudget :=
    fold_left (λ sum p, sum + js_or (Project.budget p) 0) projects 0 in
  let avgProgress :=
    if (0 <? length projects)%nat
    then fold_left (λ sum p, sum + js_or (Project.progress p) 0) projects 0
         / inject_Z (Z.of_nat (length projects))
    else 0 in
  mkOverview totalProjects activeProjects completedProjects overdueProjects
    totalBudget (Math_round avgProgress).


(** * The rest of the routes *)

From Stdlib Require Import DecimalN.

(** ** More of JavaScript *)

#[global] Instance truthy_integer : Truthy Z :=
  λ z, negb (z =? 0)%Z.

(** [x || y] where [y] may itself be [undefined]. *)
Definition js_or_opt `{Truthy A} (x y : option A) : option A :=
  match x with
  | Some a => if truthy a then Some a else y
  | None => y
  end.

(** [x !== undefined ? x : y] *)
Definition defined_or {A} (x y : option A) : option A :=
  match x with
  | Some a => Some a
  | None => y
  end.

(** The index an integer bound of [slice] stands for in an array of [len]
    elements: a negative bound counts from the end. *)
Definition relativeIndex (len : nat) (i : Z) : nat :=
  if (i <? 0)%Z
  then Z.to_nat (Z.max (Z.of_nat len + i) 0)
  else Z.to_nat (Z.min i (Z.of_nat len)).

(** [l.slice(start, end)] *)
Definition js_slice {A} (start end_ : Z) (l : list A) : list A :=
  let k := relativeIndex (length l) start in
  let final := relativeIndex (length l) end_ in
  take (final - k) (drop k l).

(** [Math.ceil] *)
Definition Math_ceil (q : Q) : Z := Qceiling q.

(** [Math.max(a, b)] *)
Definition Math_max (a b : Q) : Q :=
  if Qle_bool a b then b else a.

(** ** Pagination of the list routes

    The block under "Apply pagination" is the same in [GET /api/clients],
    [GET /api/projects] and [GET /api/invoices]; the two arguments are
    [parseInt(req.query.page)] and [parseInt(req.query.limit)], [None] for
    [NaN]. *)

Record Pagination := mkPagination {
  currentPage : Z;
  totalPages : Z;
  totalItems : nat;   (* totalClients, totalProjects, totalInvoices *)
  hasNext : bool;
  hasPrev : bool
}.

Definition paginate {A} (parsedPage parsedLimit : option Z) (l : list A)
  : list A * Pagination :=
  let page := js_or parsedPage 1%Z in
  let limit := js_or parsedLimit 10%Z in
  let total := length l in
  let startIndex := ((page - 1) * limit)%Z in
  let endIndex := (startIndex + limit)%Z in
  let totalPages :=
    Math_ceil (inject_Z (Z.of_nat total) / inject_Z limit) in
  (js_slice startIndex endIndex l,
   mkPagination page totalPages total (page <? totalPages)%Z (1 <? page)%Z).

(** ** The other client routes *)

(** [GET /api/clients/:id] *)
Definition get_client (id : string) (st : Store) : Response Client.t :=
  match list_find (λ c, Client.id c = Some id) (clientDb.getAll st) with
  | None => mkResponse 404 "Client not found" None
  | Some (_, client) => mkResponse 200 "" (Some client)
  end.

(** [PUT /api/clients/:id] *)
Definition put_client (e : Env) (id : string) (body : Client.t) (st : Store)
  : Response Client.t * Store :=
  let clients := clientDb.getAll st in
  match list_find (λ c, Client.id c = Some id) clients with
  | None => (mkResponse 404 "Client not found" None, st)
  | Some (clientIndex, client) =>
    let email := Client.email body in
    (* if (email && email !== client.email) *)
    let existingClient :=
      if truthy email && bool_decide (email ≠ Client.email client)
      then list_find (λ c, Client.email c = email ∧ Client.id c ≠ Some id)
                     clients
      else None in
    match existingClient with
    | Some _ =>
      (mkResponse 400 "Client with this email already exists" None, st)
    | None =>
      let updatedClient :=
        Client.mk
          (Client.id client)
          (js_or_opt (Client.name body) (Client.name client))
          (js_or_opt email (Client.email client))
          (defined_or (Client.company body) (Client.company client))
          (defined_or (Client.whatsapp body) (Client.whatsapp client))
          (defined_or (Client.phone body) (Client.phone client))
          (defined_or (Client.address body) (Client.address client))
          (defined_or (Client.notes body) (Client.notes client))
          (js_or_opt (Client.status body) (Client.status client))
          (Client.totalProjects client)
          (Client.totalRevenue client)
          (Client.createdAt client)
          (Some (now e)) in
      (mkResponse 200 "Client updated successfully" (Some updatedClient),
       clientDb.writeAll (<[clientIndex := updatedClient]> clients) st)
    end
  end.

(** [DELETE /api/clients/:id] *)
Definition delete_client (id : string) (st : Store)
  : Response Client.t * Store :=
  let clients := clientDb.getAll st in
  match list_find (λ c, Client.id c = Some id) clients with
  | None => (mkResponse 404 "Client not found" None, st)
  | Some (clientIndex, _) =>
    (mkResponse 200 "Client deleted successfully" None,
     clientDb.writeAll (base.delete clientIndex clients) st)
  end.

Record ClientOverview := mkClientOverview {
  co_total : nat;
  co_active : nat;
  co_inactive : nat;
  co_prospects : nat
}.

(** The [overview] object of [GET /api/clients/stats/overview]. *)
Definition clients_stats_overview (st : Store) : ClientOverview :=
  let clients := clientDb.getAll st in
  let count (s : string) :=
    length (List.filter (λ c, bool_decide (Client.status c = Some s))
                        clients) in
  mkClientOverview (length clients) (count "active") (count "inactive")
    (count "prospect").

(** ** The other project routes *)

Module ProjectSpread.
(** [{...a, ...b}] on projects. *)
Definition spread (a b : Project.t) : Project.t :=
  let pick {A} (f : Project.t → option A) : option A :=
    match f b with Some v => Some v | None => f a end in
  Project.mk (pick Project.id) (pick Project.title)
    (pick Project.description) (pick Project.clientId)
    (pick Project.startDate) (pick Project.endDate) (pick Project.budget)
    (pick Project.status) (pick Project.priority) (pick Project.tags)
    (pick Project.milestones) (pick Project.progress)
    (pick Project.totalHours) (pick Project.createdAt)
    (pick Project.updatedAt).
End ProjectSpread.

(** The remaining operations of [projectDb]. *)
Module projectDb2.
(** [projects.find(p => p.id === id)] *)
Definition findById (k : string) (st : Store) : option Project.t :=
  snd <$> list_find (λ p, Project.id p = Some k) (projects st).

(** [projectDb.update]: [{ ...projects[projectIndex], ...updateData,
    updatedAt }] written back at the index. *)
Definition update (e : Env) (k : string) (updateData : Project.t)
    (st : Store) : option Project.t * Store :=
  match list_find (λ p, Project.id p = Some k) (projects st) with
  | None => (None, st)
  | Some (projectIndex, old) =>
    let merged := ProjectSpread.spread old updateData in
    let updated :=
      Project.mk (Project.id merged) (Project.title merged)
        (Project.description merged) (Project.clientId merged)
        (Project.startDate merged) (Project.endDate merged)
        (Project.budget merged) (Project.status merged)
        (Project.priority merged) (Project.tags merged)
        (Project.milestones merged) (Project.progress merged)
        (Project.totalHours merged) (Project.createdAt merged)
        (Some (now e)) in
    (Some updated,
     projectDb.writeAll (<[projectIndex := updated]> (projects st)) st)
  end.

(** [projectDb.delete]: [projects.splice(projectIndex, 1)] *)
Definition delete (k : string) (st : Store) : bool * Store :=
  match list_find (λ p, Project.id p = Some k) (projects st) with
  | None => (false, st)
  | Some (projectIndex, _) =>
    (true, projectDb.writeAll (base.delete projectIndex (projects st)) st)
  end.
End projectDb2.

(** A project or an invoice with the names the read routes add to it. *)
Record Enriched (A : Type) := mkEnriched {
  record : A;
  clientName : option string;
  clientCompany : option string;
  clientEmail : option string;     (* only [GET /api/invoices/:id] *)
  clientAddress : option string;   (* only [GET /api/invoices/:id] *)
  projectTitle : option string     (* only the invoice routes *)
}.
Arguments mkEnriched {A} _ _ _ _ _ _.
Arguments record {A} _.
Arguments clientName {A} _.
Arguments clientCompany {A} _.
Arguments clientEmail {A} _.
Arguments clientAddress {A} _.
Arguments projectTitle {A} _.

(** [clientDb.findById(x)] for a key that may be [undefined]: [c.id ===
    undefined] holds for a client without id. *)
Definition findClient (k : option string) (st : Store) : option Client.t :=
  snd <$> list_find (λ c, Client.id c = k) (clients st).

(** [client ? client.f : d] *)
Definition fieldOr {A} (o : option A) (f : A → option string) (d : string)
  : option string :=
  match o with
  | Some x => f x
  | None => Some d
  end.

(** [GET /api/projects/:id] *)
Definition get_project (id : string) (st : Store)
  : Response (Enriched Project.t) :=
  match projectDb2.findById id st with
  | None => mkResponse 404 "Project not found" None
  | Some project =>
    let client := findClient (Project.clientId project) st in
    mkResponse 200 ""
      (Some (mkEnriched project
               (fieldOr client Client.name "Unknown Client")
               (fieldOr client Client.company "")
               None None None))
  end.

(** [PUT /api/projects/:id] *)
Definition put_project (e : Env) (id : string) (body : Project.t)
    (st : Store) : Response Project.t * Store :=
  match projectDb2.findById id st with
  | None => (mkResponse 404 "Project not found" None, st)
  | Some project =>
    let clientId := Project.clientId body in
    (* if (clientId && clientId !== project.clientId) *)
    let unknownClient :=
      if truthy clientId && bool_decide (clientId ≠ Project.clientId project)
      then bool_decide (findClient clientId st = None)
      else false in
    if unknownClient
    then (mkResponse 400 "Client not found" None, st)
    else
      let updateData :=
        Project.mk
          None
          (js_or_opt (Project.title body) (Project.title project))
          (defined_or (Project.description body)
                      (Project.description project))
          (js_or_opt clientId (Project.clientId project))
          (defined_or (Project.startDate body) (Project.startDate project))
          (defined_or (Project.endDate body) (Project.endDate project))
          (defined_or (Project.budget body) (Project.budget project))
          (js_or_opt (Project.status body) (Project.status project))
          (js_or_opt (Project.priority body) (Project.priority project))
          (defined_or (Project.tags body) (Project.tags project))
          (defined_or (Project.milestones body) (Project.milestones project))
          (defined_or (Project.progress body) (Project.progress project))
          None None None in
      let '(updatedProject, st') := projectDb2.update e id updateData st in
      (mkResponse 200 "Project updated successfully" updatedProject, st')
  end.

(** [clients[clientIndex].totalProjects = Math.max(0, (... || 1) - 1)] *)
Definition decrementTotalProjects (c : Client.t) : Client.t :=
  Client.mk (Client.id c) (Client.name c) (Client.email c) (Client.company c)
    (Client.whatsapp c) (Client.phone c) (Client.address c) (Client.notes c)
    (Client.status c)
    (Some (Math_max 0 (js_or (Client.totalProjects c) 1 - 1)))
    (Client.totalRevenue c) (Client.createdAt c) (Client.updatedAt c).

(** [DELETE /api/projects/:id], with the files read in place: the clients
    read after [projectDb.delete] are the ones of the store it left.
    [Deployed.delete_project] has the read as a deployment does it. *)
Definition delete_project (id : string) (st : Store)
  : Response Project.t * Store :=
  match projectDb2.findById id st with
  | None => (mkResponse 404 "Project not found" None, st)
  | Some project =>
    let '(_, st1) := projectDb2.delete id st in
    (* Update client's project count *)
    let clients := clientDb.getAll st1 in
    let st2 :=
      match list_find (λ c, Client.id c = Project.clientId project) clients
      with
      | Some (clientIndex, c) =>
        clientDb.writeAll
          (<[clientIndex := decrementTotalProjects c]> clients) st1
      | None => st1
      end in
    (mkResponse 200 "Project deleted successfully" None, st2)
  end.

(** ** The other invoice routes *)

(** [projectDb.findById(invoice.projectId)] when the invoice has a project,
    [null] otherwise. *)
Definition findProject (k : option string) (st : Store) : option Project.t :=
  match k with
  | Some p => if truthy p then projectDb2.findById p st else None
  | None => None
  end.

(** [GET /api/invoices/:id] *)
Definition get_invoice (id : string) (st : Store)
  : Response (Enriched Invoice.t) :=
  match invoiceDb.findById id st with
  | None => mkResponse 404 "Invoice not found" None
  | Some invoice =>
    let client := findClient (Invoice.clientId invoice) st in
    let project := findProject (Invoice.projectId invoice) st in
    mkResponse 200 ""
      (Some (mkEnriched invoice
               (fieldOr client Client.name "Unknown Client")
               (fieldOr client Client.company "")
               (fieldOr client Client.email "")
               (fieldOr client Client.address "")
               (fieldOr project Project.title "No Project")))
  end.

Record InvoiceOverview := mkInvoiceOverview {
  io_total : nat;
  io_draft : nat;
  io_sent : nat;
  io_paid : nat;
  io_overdue : nat;
  io_totalRevenue : Q;
  io_pendingAmount : Q
}.

(** [i.status === s] *)
Definition hasStatus (s : string) (i : Invoice.t) : bool :=
  bool_decide (Invoice.status i = Some s).

(** [i.status !== 'paid' && new Date(i.dueDate) < new Date()] *)
Definition isOverdueInvoice (e : Env) (i : Invoice.t) : bool :=
  negb (hasStatus "paid" i)
  && match Invoice.dueDate i with
     | Some dueDate => (dueDate <? now e)%Z
     | None => false
     end.

(** [l.reduce((sum, i) => sum + (i.total || 0), 0)], without rounding: the
    route adds doubles in the order of the list.  The properties below use
    the counts of the overview only. *)
Definition sumTotals (l : list Invoice.t) : Q :=
  fold_left (λ sum i, sum + js_or (Invoice.total i) 0) l 0.

(** The [overview] object of [GET /api/invoices/stats/overview]. *)
Definition invoices_stats_overview (e : Env) (st : Store) : InvoiceOverview :=
  let invoices := invoiceDb.getAll st in
  mkInvoiceOverview
    (length invoices)
    (length (List.filter (hasStatus "draft") invoices))
    (length (List.filter (hasStatus "sent") invoices))
    (length (List.filter (hasStatus "paid") invoices))
    (length (List.filter (isOverdueInvoice e) invoices))
    (sumTotals (List.filter (hasStatus "paid") invoices))
    (sumTotals
       (List.filter (λ i, hasStatus "sent" i || hasStatus "overdue" i)
                    invoices)).

(** ** The [daysOverdue] virtual of the Mongoose invoice *)

Definition MS_PER_DAY : Z := (1000 * 60 * 60 * 24)%Z.

(** [invoiceSchema.virtual('daysOverdue')], from the status and the due
    date of the document and the clock. *)
Definition daysOverdue (status : option string) (dueDate : option Z)
    (today : Z) : Z :=
  match dueDate with
  | None => 0%Z
  | Some dueDate =>
    if bool_decide (status = Some "paid") then 0%Z
    else if (today <=? dueDate)%Z then 0%Z
    else
      let diffTime := (today - dueDate)%Z in
      Math_ceil (inject_Z diffTime / inject_Z MS_PER_DAY)
  end.

(** ** Users and the authentication routes

    [users.json] is a list of its own.  A character of a string of the
    model stands for one UTF-16 code unit, so that [String.length] is the
    [length] of the JavaScript string.  The [bcrypt] and [jsonwebtoken]
    libraries are parameters: [bcrypt_hash salt password] is
    [bcrypt.hash(password, 10)] when the library draws [salt],
    [bcrypt_compare password hash] is [bcrypt.compare(password, hash)] and
    [jwt_sign userId email iat] is the token signed for the payload
    [{ userId, email }] at the instant [iat]. *)

Module User.
Record t := mk {
  id : option string;
  name : option string;
  email : option string;
  password : option string;   (* the hash *)
  role : option string;
  isActive : option bool;
  createdAt : option Z;
  lastLogin : option Z        (* [None] also stands for [null] *)
}.

(** [const { password, ...userWithoutPassword } = user] *)
Definition withoutPassword (u : t) : t :=
  mk (id u) (name u) (email u) None (role u) (isActive u) (createdAt u)
     (lastLogin u).

(** [users[userIndex].lastLogin = new Date().toISOString()] *)
Definition setLastLogin (now : Z) (u : t) : t :=
  mk (id u) (name u) (email u) (password u) (role u) (isActive u)
     (createdAt u) (Some now).
End User.

(** The body of the authentication routes. *)
Record Credentials := mkCredentials {
  c_name : option string;
  c_email : option string;
  c_password : option string
}.

(** What an authentication route sends back. *)
Record Session := mkSession {
  token : string;
  user : User.t
}.

Section Auth.
Variable bcrypt_hash : string → string → string.
Variable bcrypt_compare : string → string → bool.
Variable jwt_sign : option string → option string → Z → string.

(** [userDb.create]; [inl] is the message of the error it throws. *)
Definition userDb_create (e : Env) (salt : string)
    (name email : option string) (password : string) (role : option string)
    (users : list User.t) : string + (User.t * list User.t) :=
  match list_find (λ u, User.email u = email) users with
  | Some existingUser => inl "User already exists"
  | None =>
    let hashedPassword := bcrypt_hash salt password in
    let newUser :=
      User.mk (Some (generateId e)) name email (Some hashedPassword)
        (Some (js_or role "admin")) (Some true) (Some (now e)) None in
    inr (User.withoutPassword newUser, users ++ [newUser])
  end.

(** [userDb.findByEmail] *)
Definition userDb_findByEmail (email : string) (users : list User.t)
  : option User.t :=
  snd <$> list_find (λ u, User.email u = Some email) users.

(** [userDb.validatePassword]; the outer [None] is the exception of
    [bcrypt.compare] on a user stored without a hash. *)
Definition userDb_validatePassword (email password : string)
    (users : list User.t) : option (option User.t) :=
  match userDb_findByEmail email users with
  | None => Some None
  | Some u =>
    match User.password u with
    | None => None
    | Some hash =>
      if bcrypt_compare password hash
      then Some (Some (User.withoutPassword u))
      else Some None
    end
  end.

(** [userDb.updateLastLogin] *)
Definition userDb_updateLastLogin (e : Env) (id : option string)
    (users : list User.t) : list User.t :=
  match list_find (λ u, User.id u = id) users with
  | Some (userIndex, u) => <[userIndex := User.setLastLogin (now e) u]> users
  | None => users
  end.

(** [POST /api/auth/register] *)
Definition post_register (e : Env) (salt : string) (body : Credentials)
    (users : list User.t) : Response Session * list User.t :=
  match c_name body, c_email body, c_password body with
  | Some name, Some email, Some password =>
    if negb (truthy name) || negb (truthy email) || negb (truthy password)
    then (mkResponse 400 "Please provide name, email, and password" None,
          users)
    else if (String.length password <? 6)%nat
    then (mkResponse 400 "Password must be at least 6 characters long" None,
          users)
    else
      match userDb_create e salt (Some name) (Some email) password None users
      with
      | inl error => (mkResponse 400 error None, users)
      | inr (u, users') =>
        let token := jwt_sign (User.id u) (User.email u) (now e) in
        (mkResponse 201 "User registered successfully"
           (Some (mkSession token u)), users')
      end
  | _, _, _ =>
    (mkResponse 400 "Please provide name, email, and password" None, users)
  end.

(** [POST /api/auth/login] *)
Definition post_login (e : Env) (body : Credentials) (users : list User.t)
  : Response Session * list User.t :=
  match c_email body, c_password body with
  | Some email, Some password =>
    if negb (truthy email) || negb (truthy password)
    then (mkResponse 400 "Please provide email and password" None, users)
    else
      match userDb_validatePassword email password users with
      | None => (mkResponse 500 "Server error during login" None, users)
      | Some None => (mkResponse 401 "Invalid credentials" None, users)
      | Some (Some u) =>
        let users' := userDb_updateLastLogin e (User.id u) users in
        let token := jwt_sign (User.id u) (User.email u) (now e) in
        (mkResponse 200 "Login successful" (Some (mkSession token u)), users')
      end
  | _, _ => (mkResponse 400 "Please provide email and password" None, users)
  end.
End Auth.

(** * Doubles, and the directory behind the repositories *)

From Stdlib Require Import Floats.

Set Warnings "-inexact-float".

(** ** Invoice creation in double precision

    [POST /api/invoices] once more, with the numbers of JavaScript as they
    are: IEEE 754 binary64 values, every operation rounded to the nearest
    one.  The numbers of a request are the ones [JSON.parse] read, so they
    may be [-0] or an infinity; what the handler stores and answers has
    gone through [JSON.stringify]. *)

(** Truthiness of a number: [0], [-0] and [NaN] are falsy. *)
#[global] Instance truthy_double : Truthy float :=
  λ x, negb (is_zero x || is_nan x).

Module Double.
#[local] Open Scope float_scope.

(** A number as [JSON.stringify] writes it and [JSON.parse] reads it back:
    [NaN] and the infinities are written [null] ([None]) and [-0] is
    written [0]. *)
Definition toJSON (x : float) : option float :=
  if is_finite x then Some (if is_zero x then 0 else x) else None.

(** A JSON number that is read and written again. *)
Definition rewritten (n : option float) : option float :=
  match n with
  | Some x => toJSON x
  | None => None
  end.

(** An item as the request carries it. *)
Record ItemInput := mkItemInput {
  in_description : string;
  in_quantity : float;
  in_rate : float
}.

(** The keys of the body that the handler reads; [None] is an absent key
    or [null], which this handler does not tell apart ([!x], [x || d],
    [x ? a : b]). *)
Record Body := mkBody {
  b_clientId : option string;
  b_projectId : option string;
  b_items : option (list ItemInput);
  b_dueDate : option Z;
  b_notes : option string;
  b_discount : option float;
  b_tax : option float
}.

(** An item and an invoice with the keys the handler writes; the numbers
    are doubles in the object the handler builds and JSON numbers or
    [null] in the file and in the answer. *)
Record Item (num : Type) := mkItem {
  description : string;
  quantity : num;
  rate : num;
  amount : num
}.
Arguments mkItem {num} _ _ _ _.
Arguments description {num} _.
Arguments quantity {num} _.
Arguments rate {num} _.
Arguments amount {num} _.

Record Invoice (num : Type) := mkInvoice {
  id : string;
  invoiceNumber : string;
  clientId : string;
  projectId : option string;    (* [None] is [null] *)
  items : list (Item num);
  subtotal : num;
  discount : num;
  discountAmount : num;
  tax : num;
  taxAmount : num;
  total : num;
  status : string;
  dueDate : Z;
  notes : string;
  paidAmount : num;
  createdAt : Z;
  updatedAt : Z
}.
Arguments mkInvoice {num} _ _ _ _ _ _ _ _ _ _ _ _ _ _ _ _ _.
Arguments id {num} _.
Arguments invoiceNumber {num} _.
Arguments clientId {num} _.
Arguments projectId {num} _.
Arguments items {num} _.
Arguments subtotal {num} _.
Arguments discount {num} _.
Arguments discountAmount {num} _.
Arguments tax {num} _.
Arguments taxAmount {num} _.
Arguments total {num} _.
Arguments status {num} _.
Arguments dueDate {num} _.
Arguments notes {num} _.
Arguments paidAmount {num} _.
Arguments createdAt {num} _.
Arguments updatedAt {num} _.

(** The same invoice with every number sent through [f]. *)
Definition mapNumbers {A B} (f : A → B) (inv : Invoice A) : Invoice B :=
  mkInvoice (id inv) (invoiceNumber inv) (clientId inv) (projectId inv)
    (map (λ item, mkItem (description item) (f (quantity item))
                    (f (rate item)) (f (amount item)))
         (items inv))
    (f (subtotal inv)) (f (discount inv)) (f (discountAmount inv))
    (f (tax inv)) (f (taxAmount inv)) (f (total inv)) (status inv)
    (dueDate inv) (notes inv) (f (paidAmount inv)) (createdAt inv)
    (updatedAt inv).

(** An invoice of the file. *)
Definition Stored : Type := Invoice (option float).

(** The three files; an invoice of the file has the keys this route
    writes. *)
Record Store := mkStore {
  clients : list Client.t;
  projects : list Project.t;
  invoices : list Stored
}.

(** [items.reduce((sum, item) => sum + (item.quantity * item.rate), 0)] *)
Definition sumItems (items : list ItemInput) : float :=
  fold_left (λ sum item, sum + in_quantity item * in_rate item) items 0.

Record Totals := mkTotals {
  t_subtotal : float;
  t_discountAmount : float;
  t_taxAmount : float;
  t_total : float
}.

(** The four lines under "Calculate totals". *)
Definition routeTotals (items : list ItemInput) (discount tax : option float)
  : Totals :=
  let subtotal := sumItems items in
  let discountAmount :=
    match discount with
    | Some d => if truthy d then subtotal * d / 100 else 0
    | None => 0
    end in
  let taxAmount :=
    match tax with
    | Some t => if truthy t then (subtotal - discountAmount) * t / 100 else 0
    | None => 0
    end in
  let total := subtotal - discountAmount + taxAmount in
  mkTotals subtotal discountAmount taxAmount total.

(** [items.map(item => ({ description, quantity, rate, amount }))] *)
Definition storeItems (items : list ItemInput) : list (Item float) :=
  map (λ item,
         mkItem (in_description item) (in_quantity item) (in_rate item)
           (in_quantity item * in_rate item))
      items.

(** [POST /api/invoices] *)
Definition post_invoice (e : Env) (body : Body) (st : Store)
  : Response Stored * Store :=
  let discount := b_discount body in
  let tax := b_tax body in
  (* if (!clientId || !items || items.length === 0) *)
  match b_clientId body, b_items body with
  | Some clientId, Some items =>
    if negb (truthy clientId) || (length items =? 0)%nat
    then (mkResponse 400 "Client and at least one item are required" None, st)
    else
      (* clientDb.findById(clientId) *)
      match list_find (λ c, Client.id c = Some clientId) (clients st) with
      | None => (mkResponse 400 "Client not found" None, st)
      | Some _ =>
        let invoiceNumber :=
          "INV-"
          +:+ padStart 4 "0"%char
                (String_of_N (N.of_nat (length (invoices st) + 1))) in
        let totals := routeTotals items discount tax in
        (* invoiceDb.create({ invoiceNumber, ..., updatedAt }) *)
        let newInvoice : Invoice float :=
          mkInvoice
            (generateId e)
            invoiceNumber
            clientId
            (match b_projectId body with
             | Some p => if truthy p then Some p else None
             | None => None
             end)
            (storeItems items)
            (t_subtotal totals)
            (js_or discount 0)
            (t_discountAmount totals)
            (js_or tax 0)
            (t_taxAmount totals)
            (t_total totals)
            "draft"
            (default (now e + THIRTY_DAYS)%Z (b_dueDate body))
            (js_or (b_notes body) "")
            0
            (now e)
            (now e) in
        (* JSON.stringify(invoices), and the answer of res.json *)
        let written := mapNumbers toJSON newInvoice in
        (mkResponse 201 "Invoice created successfully" (Some written),
         mkStore (clients st) (projects st)
           (map (mapNumbers rewritten) (invoices st) ++ [written]))
      end
  | _, _ =>
    (mkResponse 400 "Client and at least one item are required" None, st)
  end.

(** *** The documented invariants, on the numbers of the file *)

(** [x === y] on two numbers. *)
Definition strictEq (x y : float) : Prop := (x =? y) = true.

(** [Σ items[i].amount], added in the order of the list. *)
Definition sumAmounts (items : list (Item float)) : float :=
  fold_left (λ sum item, sum + amount item) items 0.

(** The stored invoice holds numbers, not [null], and they satisfy the
    five equations, each operation being the one of the doubles. *)
Definition invariants (inv : Stored) : Prop :=
  ∃ (its : list (Item float)) (sub d da t ta tot : float),
    items inv
    = map (λ item, mkItem (description item) (Some (quantity item))
                     (Some (rate item)) (Some (amount item))) its
    ∧ subtotal inv = Some sub
    ∧ discount inv = Some d
    ∧ discountAmount inv = Some da
    ∧ tax inv = Some t
    ∧ taxAmount inv = Some ta
    ∧ total inv = Some tot
    ∧ Forall (λ item, strictEq (amount item) (quantity item * rate item)) its
    ∧ strictEq sub (sumAmounts its)
    ∧ strictEq da (sub * d / 100)
    ∧ strictEq ta ((sub - da) * t / 100)
    ∧ strictEq tot (sub - da + ta).

(** An invoice of the file that [JSON.stringify] writes back as it is:
    none of its numbers is [-0], an infinity or [NaN]. *)
Definition asWritten (inv : Stored) : Prop := mapNumbers rewritten inv = inv.

(** *** Vocabulary of the proofs *)

(** A double that is a zero, of either sign. *)
Definition isZero (x : float) : Prop := ∃ s, Prim2SF x = S754_zero s.

(** A double that is neither [NaN] nor an infinity. *)
Definition isFinite (x : float) : Prop :=
  isZero x ∨ ∃ s m e, Prim2SF x = S754_finite s m e.

(** Two doubles that are the same but for the sign of a zero. *)
Definition alike (x y : float) : Prop := x = y ∨ (isZero x ∧ isZero y).

(** The same on the values the specification of the operations works on. *)
Definition alikeSF (X Y : spec_float) : Prop :=
  X = Y ∨ ∃ s s', X = S754_zero s ∧ Y = S754_zero s'.

Definition finiteSF (X : spec_float) : Prop :=
  match X with
  | S754_zero _ | S754_finite _ _ _ => True
  | S754_infinity _ | S754_nan => False
  end.

(** [-0] read as [0]. *)
Definition unsigned (x : float) : float := if is_zero x then 0 else x.
End Double.

(** ** The directory behind the repositories

    [readJsonFile] runs [initializeDatabase] before every read.  When the
    variable [VERCEL] is set the repositories work in [/tmp/db], and
    [initializeDatabase] copies each of the four files from the directory
    shipped with the code over the one of [/tmp/db] (an empty array for a
    file that is not shipped): a read then finds the shipped records,
    whatever was written before it.  When the variable is not set the
    repositories work in the shipped directory itself and nothing is
    copied.  [users.json] is copied with the three other files; it is
    kept apart here, as the authentication routes touch no other file and
    the other routes do not touch it. *)

Record Deployment := mkDeployment {
  VERCEL : bool;              (* process.env.VERCEL is set *)
  source : Store;             (* clients, projects and invoices as shipped *)
  sourceUsers : list User.t   (* users.json as shipped *)
}.

(** The three files after [initializeDatabase]. *)
Definition initializeDatabase (d : Deployment) (disk : Store) : Store :=
  if VERCEL d then source d else disk.

(** [users.json] after [initializeDatabase]. *)
Definition initializeUsers (d : Deployment) (users : list User.t)
  : list User.t :=
  if VERCEL d then sourceUsers d else users.

(** The routes as they run in a deployment, from the files a request
    finds to the files it leaves.  In every handler but the two written
    out below the reads all come before the one write, so the handler
    works on the files as its first read left them.  An answer given
    before any read (a validation error) leaves the files untouched; the
    store is then given as a read would leave it, which is what every
    later read finds. *)
Module Deployed.
Definition post_invoice (d : Deployment) (e : Env) (body : Invoice.Body)
    (disk : Store) : Response Invoice.t * Store :=
  post_invoice e body (initializeDatabase d disk).

Definition get_invoice (d : Deployment) (id : string) (disk : Store)
  : Response (Enriched Invoice.t) :=
  get_invoice id (initializeDatabase d disk).

Definition delete_invoice (d : Deployment) (id : string) (disk : Store)
  : Response Invoice.t * Store :=
  delete_invoice id (initializeDatabase d disk).

Definition put_invoice_status (d : Deployment) (e : Env) (id : string)
    (status : option string) (disk : Store) : Response Invoice.t * Store :=
  put_invoice_status e id status (initializeDatabase d disk).

Definition invoices_stats_overview (d : Deployment) (e : Env) (disk : Store)
  : InvoiceOverview :=
  invoices_stats_overview e (initializeDatabase d disk).

Definition post_client (d : Deployment) (e : Env) (body : Client.t)
    (disk : Store) : Response Client.t * Store :=
  post_client e body (initializeDatabase d disk).

Definition get_client (d : Deployment) (id : string) (disk : Store)
  : Response Client.t :=
  get_client id (initializeDatabase d disk).

Definition delete_client (d : Deployment) (id : string) (disk : Store)
  : Response Client.t * Store :=
  delete_client id (initializeDatabase d disk).

Definition get_project (d : Deployment) (id : string) (disk : Store)
  : Response (Enriched Project.t) :=
  get_project id (initializeDatabase d disk).

(** [POST /api/projects]: the clients are read again after
    [projectDb.create] has written the projects. *)
Definition post_project (d : Deployment) (e : Env) (body : Project.t)
    (disk : Store) : Response Project.t * Store :=
  let st := initializeDatabase d disk in
  (* if (!title || !clientId) *)
  match Project.title body, Project.clientId body with
  | Some title, Some clientId =>
    if negb (truthy title) || negb (truthy clientId)
    then (mkResponse 400 "Title and client are required" None, st)
    else
      match clientDb.findById clientId st with
      | None => (mkResponse 400 "Client not found" None, st)
      | Some client =>
        let newProject :=
          Project.mk
            None
            (Some title)
            (Some (js_or (Project.description body) ""))
            (Some clientId)
            (Some (default (now e) (Project.startDate body)))
            (Project.endDate body)
            (Some (js_or (Project.budget body) 0))
            (Some (js_or (Project.status body) "pending"))
            (Some (js_or (Project.priority body) "medium"))
            (Some (js_or (Project.tags body) []))
            (Some (js_or (Project.milestones body) []))
            (Some 0)
            (Some 0)
            (Some (now e))
            (Some (now e)) in
        let '(project, st1) := projectDb.create e newProject st in
        (* Update client's project count *)
        let st1 := initializeDatabase d st1 in
        let clients := clientDb.getAll st1 in
        let st2 :=
          match list_find (λ c, Client.id c = Some clientId) clients with
          | Some (clientIndex, c) =>
            clientDb.writeAll
              (<[clientIndex := incrementTotalProjects c]> clients) st1
          | None => st1
          end in
        (mkResponse 201 "Project created successfully" (Some project), st2)
      end
  | _, _ => (mkResponse 400 "Title and client are required" None, st)
  end.

(** [DELETE /api/projects/:id]: the clients are read again after
    [projectDb.delete] has written the projects. *)
Definition delete_project (d : Deployment) (id : string) (disk : Store)
  : Response Project.t * Store :=
  let st := initializeDatabase d disk in
  match projectDb2.findById id st with
  | None => (mkResponse 404 "Project not found" None, st)
  | Some project =>
    let '(_, st1) := projectDb2.delete id st in
    (* Update client's project count *)
    let st1 := initializeDatabase d st1 in
    let clients := clientDb.getAll st1 in
    let st2 :=
      match list_find (λ c, Client.id c = Project.clientId project) clients
      with
      | Some (clientIndex, c) =>
        clientDb.writeAll
          (<[clientIndex := decrementTotalProjects c]> clients) st1
      | None => st1
      end in
    (mkResponse 200 "Project deleted successfully" None, st2)
  end.

(** The two authentication routes, on [users.json]. *)
Definition post_register (bcrypt_hash : string → string → string)
    (jwt_sign : option string → option string → Z → string)
    (d : Deployment) (e : Env) (salt : string) (body : Credentials)
    (users : list User.t) : Response Session * list User.t :=
  post_register bcrypt_hash jwt_sign e salt body (initializeUsers d users).

Definition post_login (bcrypt_compare : string → string → bool)
    (jwt_sign : option string → option string → Z → string)
    (d : Deployment) (e : Env) (body : Credentials) (users : list User.t)
  : Response Session * list User.t :=
  post_login bcrypt_compare jwt_sign e body (initializeUsers d users).
End Deployed.
(** * Vocabulary of the specification *)

(** The documented invariants of a stored invoice that tie an amount to
    its percentage. *)



(** The overdue projects as the specification derives them: an end date
    in the past and a status that is neither completed nor cancelled. *)
Definition overdueSpec (e : Env) (p : Project.t) : bool :=
  match Project.endDate p with
  | None => false
  | Some endDate =>
    (endDate <? now e)%Z
    && bool_decide (Project.status p ≠ Some "completed")
    && bool_decide (Project.status p ≠ Some "cancelled")
  end.

(** The cancelled projects whose end date has passed. *)
Definition cancelledPast (e : Env) (p : Project.t) : bool :=
  match Project.endDate p with
  | None => false
  | Some endDate =>
    (endDate <? now e)%Z && bool_decide (Project.status p = Some "cancelled")
  end.

(** The transitions of the documented status machine. *)
Definition machine : list (string * string) :=
  [("draft", "sent"); ("sent", "paid");
   ("draft", "cancelled"); ("sent", "cancelled")].

(** ** Sample data *)

Module Sample.
Definition env : Env := mkEnv 1700000000000 "k3j9x0q1z".

Definition acme : Client.t :=
  Client.mk (Some "c1") (Some "Acme") (Some "a@acme.com") (Some "")
    (Some "") (Some "") (Some "") (Some "") (Some "active") (Some 0)
    (Some 0) (Some 1600000000000%Z) (Some 1600000000000%Z).

Definition work : Invoice.ItemInput := Invoice.mkItemInput "work" 2 50.

(** [{ clientId: "c1", items, discount: 10, tax: 8 }] *)
Definition invoiceBody : Invoice.Body :=
  Invoice.mkBody None None (Some "c1") None (Some [work]) None (Some 10)
    None (Some 8) None None None None None None None None.

(** [{ items }] *)
Definition itemsOnly (items : list Invoice.ItemInput) : Invoice.Body :=
  Invoice.mkBody None None None None (Some items) None None None None None
    None None None None None None None.

(** The invoice of the scenario, with a given status. *)
Definition invoice (status : string) : Invoice.t :=
  Invoice.mk (Some "i1") (Some "INV-0001") (Some "c1") None
    (Some [Invoice.mkItem "work" 2 50 100]) (Some 100) (Some 10) (Some 10)
    (Some 8) (Some 7.2) (Some 97.2) (Some status)
    (Some 1702592000000%Z) (Some "") (Some 0) (Some 1700000000000%Z)
    (Some 1700000000000%Z).

Definition store : Store := mkStore [acme] [] [].

Definition storeWith (status : string) : Store :=
  mkStore [acme] [] [invoice status].

(** [{ name: "Acme 2", email: "A@acme.com" }] *)
Definition clientBody (email : string) : Client.t :=
  Client.mk None (Some "Acme 2") (Some email) None None None None None
    None None None None None.

(** [{ title: "Site", clientId }] *)
Definition projectBody (clientId : string) : Project.t :=
  Project.mk None (Some "Site") None (Some clientId) None None None None
    None None None None None None None.

Definition project (status : string) (endDate : Z) : Project.t :=
  Project.mk (Some "p1") (Some "Site") (Some "") (Some "c1")
    (Some 1600000000000%Z) (Some endDate) (Some 1000) (Some status)
    (Some "medium") (Some []) (Some []) (Some 0) (Some 0)
    (Some 1600000000000%Z) (Some 1600000000000%Z).

(** [{ items: [{ amount: 100 }], discountRate: 10, taxRate: 8 }] *)
Definition document : InvoiceModel.doc :=
  InvoiceModel.mkDoc [Invoice.mkItem "work" 2 50 100] 0 8 0 10 0 0.
End Sample.

(** The documented machine as a property of the status route: a status
    update that changes the stored status follows an edge of [machine]. *)
Definition follows_machine : Prop :=
  ∀ e id status st inv r st' inv',
    invoiceDb.findById id st = Some inv →
    put_invoice_status e id status st = (r, st') →
    payload r = Some inv' →
    Invoice.status inv' ≠ Invoice.status inv →
    ∃ a b, Invoice.status inv = Some a ∧ Invoice.status inv' = Some b
           ∧ (a, b) ∈ machine.

(** * Vocabulary of the rest of the routes *)

(** No two clients of the store have the same email. *)
Definition emailsUnique (st : Store) : Prop :=
  NoDup (Client.email <$> clients st).

(** No two clients of the store have the same id. *)
Definition clientIdsUnique (st : Store) : Prop :=
  NoDup (Client.id <$> clients st).

(** The number [POST /api/invoices] gives to an invoice when [n] invoices
    are stored. *)
Definition invoiceNumberAt (n : nat) : string :=
  "INV-" +:+ padStart 4 "0"%char (String_of_N (N.of_nat (n + 1))).

(** ** More sample data *)

Module More.
(** A later request. *)
Definition env : Env := mkEnv 1700000005000 "p0o9i8u7y".

Definition beta : Client.t :=
  Client.mk (Some "c2") (Some "Beta") (Some "b@beta.io") (Some "")
    (Some "") (Some "") (Some "") (Some "") (Some "active") (Some 3)
    (Some 0) (Some 1600000000000%Z) (Some 1600000000000%Z).

(** Two clients and a pending project of the first. *)
Definition store : Store :=
  mkStore [Sample.acme; beta] [Sample.project "pending" 1690000000000] [].

(** Stand-ins for the two libraries, to run the authentication routes:
    the hash is the password followed by the salt. *)
Definition hash (salt password : string) : string := password +:+ salt.
Definition compare (password hash : string) : bool :=
  String.prefix password hash.
Definition sign (userId email : option string) (iat : Z) : string :=
  "token-" +:+ default "" userId.

(** [{ name: "Ada", email: "ada@acme.com", password }] *)
Definition credentials (password : string) : Credentials :=
  mkCredentials (Some "Ada") (Some "ada@acme.com") (Some password).
End More.

(** The count an invoice number was printed from. *)
Definition invoiceCount (number : string) : option N :=
  match number with
  | String "I" (String "N" (String "V" (String "-" digits))) =>
    N.of_uint <$> NilEmpty.uint_of_string digits
  | _ => None
  end.

(** * Vocabulary of the doubles and of the deployments *)

Module DoubleSample.
(** [{ description: "work", quantity: 2, rate: 50 }] *)
Definition work : Double.ItemInput := Double.mkItemInput "work" 2 50.

(** [{ description: "work", quantity: 3, rate: 0.1 }] *)
Definition tenths : Double.ItemInput := Double.mkItemInput "work" 3 0.1.

(** [{ description: "work", quantity: 1e308, rate: 10 }] *)
Definition huge : Double.ItemInput := Double.mkItemInput "work" 1e308 10.

(** [{ clientId: "c1", items, discount, tax }] *)
Definition body (items : list Double.ItemInput) (discount tax : option float)
  : Double.Body :=
  Double.mkBody (Some "c1") None (Some items) None None discount tax.

Definition store : Double.Store := Double.mkStore [Sample.acme] [] [].
End DoubleSample.

(** The documented invariants as a property of the creation route: every
    invoice it creates is stored with numbers that satisfy the five
    equations. *)
Definition creation_keeps_invariants : Prop :=
  ∀ e body st r st' inv,
    Double.post_invoice e body st = (r, st') →
    statusCode r = 201%nat →
    payload r = Some inv →
    Double.invariants inv.

(** A deployment without the variable, and one with it that ships the
    sample store. *)
Definition inPlace : Deployment := mkDeployment false (mkStore [] [] []) [].
Definition serverless : Deployment := mkDeployment true Sample.store [].
(** * Properties *)

(** ** Reading the repositories *)

Lemma invoice_find_inv (k : string) (st : Store) (inv : Invoice.t) :
  invoiceDb.findById k st = Some inv →
  ∃ i, list_find (λ x, Invoice.id x = Some k) (invoices st) = Some (i, inv)
       ∧ invoices st !! i = Some inv
       ∧ Invoice.id inv = Some k
       ∧ invoiceDb.findIndex k (invoices st) = Some i.
Proof.
  unfold invoiceDb.findById, invoiceDb.findIndex.
  destruct (list_find _ (invoices st)) as [[i x]|] eqn:Hfind; simpl;
    intros Heq; [|discriminate].
  injection Heq as ->. exists i.
  apply list_find_Some in Hfind as (Hi & Hid & _). auto.
Qed.

(** ** Arithmetic of the totals *)

Lemma fold_sum_shift {A} (f : A → Q) (l : list A) (a : Q) :
  fold_left (λ sum x, sum + f x) l a
  == a + foldr (λ x s, f x + s) 0 l.
Proof.
  revert a. induction l as [|x l IH]; intros a; simpl.
  - ring.
  - rewrite IH. ring.
Qed.

(** The amounts of the routes follow the percentages that are stored
    ([discount || 0], [tax || 0]). *)
Lemma routeTotals_equations items (discount tax : option Q) :
  let T := routeTotals items discount tax in
  t_subtotal T = sumItems items
  ∧ t_discountAmount T == t_subtotal T * js_or discount 0 / 100
  ∧ t_taxAmount T
    == (t_subtotal T - t_discountAmount T) * js_or tax 0 / 100
  ∧ t_total T = t_subtotal T - t_discountAmount T + t_taxAmount T.
Proof.
  unfold routeTotals, js_or; simpl.
  split; [reflexivity|]. split; [|split; [|reflexivity]].
  - destruct discount as [d|]; [destruct (truthy d)|];
      try reflexivity; unfold Qdiv; ring.
  - destruct tax as [t|]; [destruct (truthy t)|];
      try reflexivity; unfold Qdiv; ring.
Qed.


Lemma sumItems_nonneg (items : list Invoice.ItemInput) :
  Forall (λ item, 0 < Invoice.in_quantity item ∧ 0 <= Invoice.in_rate item)
         items →
  0 <= sumItems items.
Proof.
  intros Hpos. unfold sumItems. rewrite fold_sum_shift, Qplus_0_l.
  induction Hpos as [|x l [Hq Hr] _ IH]; simpl; [lra|].
  assert (0 <= Invoice.in_quantity x * Invoice.in_rate x).
  { apply Qmult_le_0_compat; [apply Qlt_le_weak|]; assumption. }
  lra.
Qed.

Lemma truthy_string_true (s : string) : truthy s = true ↔ s ≠ "".
Proof.
  unfold truthy, truthy_string. rewrite negb_true_iff. apply String.eqb_neq.
Qed.

(** ** Invoice creation *)


(** A request is accepted only under these conditions. *)
Lemma post_invoice_201_inv (e : Env) (body : Invoice.Body) (st : Store) :
  statusCode (post_invoice e body st).1 = 201%nat →
  ∃ clientId client items,
    Invoice.b_clientId body = Some clientId ∧ clientId ≠ ""
    ∧ clientDb.findById clientId st = Some client
    ∧ Invoice.b_items body = Some items ∧ items ≠ [].
Proof.
  unfold post_invoice.
  destruct (Invoice.b_clientId body) as [clientId|]; [|discriminate].
  destruct (Invoice.b_items body) as [items|]; [|discriminate].
  destruct (truthy clientId) eqn:Hcid; [|discriminate].
  destruct items as [|item items]; [discriminate|].
  cbn [negb orb length Nat.eqb].
  destruct (clientDb.findById clientId st) as [client|] eqn:Hfind;
    [|discriminate].
  intros _. exists clientId, client, (item :: items).
  apply truthy_string_true in Hcid. repeat split; auto; discriminate.
Qed.

(** ** The places that compute totals *)

Lemma routeTotals_sound items (discount tax : option Q) :
  Forall (λ item, 0 < Invoice.in_quantity item ∧ 0 <= Invoice.in_rate item)
         items →
  let T := routeTotals items discount tax in
  0 <= t_subtotal T
  ∧ t_total T == t_subtotal T - t_discountAmount T + t_taxAmount T
  ∧ t_taxAmount T
    == (t_subtotal T - t_discountAmount T) * js_or tax 0 / 100.
Proof.
  intros Hpos T.
  destruct (routeTotals_equations items discount tax)
    as (Esub & _ & Eta & Etot).
  fold T in Esub, Eta, Etot. split; [|split].
  - rewrite Esub. apply sumItems_nonneg, Hpos.
  - rewrite Etot. reflexivity.
  - exact Eta.
Qed.


(** The pre-save middleware takes both percentages of the subtotal. *)
Lemma pre_save_equations (this : InvoiceModel.doc) :
  let d := InvoiceModel.pre_save this in
  InvoiceModel.taxAmount d
  == InvoiceModel.subtotal d * InvoiceModel.taxRate d / 100
  ∧ InvoiceModel.discountAmount d
    == InvoiceModel.subtotal d * InvoiceModel.discountRate d / 100
  ∧ InvoiceModel.total d
    == InvoiceModel.subtotal d - InvoiceModel.discountAmount d
       + InvoiceModel.taxAmount d.
Proof. simpl. repeat split; try reflexivity. ring. Qed.

(** The tax of the middleware is the tax on [subtotal - discountAmount]
    only when the subtotal or one of the two rates is 0. *)
Lemma pre_save_tax_basis (this : InvoiceModel.doc) :
  let d := InvoiceModel.pre_save this in
  InvoiceModel.taxAmount d
  == (InvoiceModel.subtotal d - InvoiceModel.discountAmount d)
     * InvoiceModel.taxRate d / 100
  ↔ InvoiceModel.subtotal d * InvoiceModel.discountRate d
    * InvoiceModel.taxRate d == 0.
Proof.
  cbn [InvoiceModel.pre_save InvoiceModel.taxAmount InvoiceModel.subtotal
       InvoiceModel.discountAmount InvoiceModel.taxRate
       InvoiceModel.discountRate].
  set (s := fold_left _ _ _).
  set (t := InvoiceModel.taxRate this).
  set (r := InvoiceModel.discountRate this).
  split; intros H.
  - assert (E : s * r * t
                == 10000 * (s * t / 100 - (s - s * r / 100) * t / 100))
      by (field; discriminate).
    rewrite E, <- H. ring.
  - assert (E : (s - s * r / 100) * t / 100
                == s * t / 100 - s * r * t / 10000)
      by (field; discriminate).
    rewrite E, H. field.
Qed.

(** C2. The totals of the routes have a non-negative subtotal, [total =
    subtotal - discountAmount + taxAmount] and the tax taken on [subtotal
    - discountAmount]; the pre-save middleware of the Mongoose model takes
    the tax on the raw subtotal: for one item of amount 100 with discount
    10 and tax 8 it stores tax 8 and total 98, where the routes store 7.2
    and 97.2. *)
Theorem pre_save_taxes_raw_subtotal :
  let d := InvoiceModel.pre_save Sample.document in
  let T := routeTotals [Sample.work] (Some 10) (Some 8) in
  InvoiceModel.subtotal d == 100
  ∧ InvoiceModel.discountAmount d == 10
  ∧ InvoiceModel.taxAmount d == 8
  ∧ InvoiceModel.total d == 98
  ∧ ¬ InvoiceModel.taxAmount d
      == (InvoiceModel.subtotal d - InvoiceModel.discountAmount d)
         * InvoiceModel.taxRate d / 100
  ∧ t_subtotal T == 100 ∧ t_discountAmount T == 10
  ∧ t_taxAmount T == 7.2 ∧ t_total T == 97.2.
Proof.
  cbv zeta. repeat split; try reflexivity. intros H. discriminate H.
Qed.

(** ** Deleting an invoice *)

Lemma invoice_find_delete (k : string) (l : list Invoice.t) (i : nat) :
  (∀ j y, l !! j = Some y → Invoice.id y = Some k → j = i) →
  list_find (λ x, Invoice.id x = Some k) (base.delete i l) = None.
Proof.
  intros Huniq. apply list_find_None, Forall_forall.
  intros y Hy Hid. apply list_elem_of_lookup in Hy as [j Hj].
  destruct (decide (j < i)%nat) as [Hlt|Hge].
  - rewrite list_lookup_delete_lt in Hj by exact Hlt.
    specialize (Huniq j y Hj Hid). lia.
  - rewrite list_lookup_delete_ge in Hj by lia.
    specialize (Huniq (S j) y Hj Hid). lia.
Qed.

(** C3. [DELETE /api/invoices/:id] on a stored invoice answers 400 and
    leaves the store as it is when the status is anything but [draft]; on
    a draft it answers 200 and the store loses that invoice. *)
Theorem delete_invoice_draft_only (id : string) (st : Store)
    (inv : Invoice.t) :
  invoiceDb.findById id st = Some inv →
  (Invoice.status inv ≠ Some "draft" →
   delete_invoice id st
   = (mkResponse 400 "Only draft invoices can be deleted" None, st))
  ∧ (Invoice.status inv = Some "draft" →
     ∃ i st',
       invoices st !! i = Some inv
       ∧ delete_invoice id st
         = (mkResponse 200 "Invoice deleted successfully" None, st')
       ∧ invoices st' = base.delete i (invoices st)
       ∧ S (length (invoices st')) = length (invoices st)
       ∧ clients st' = clients st ∧ projects st' = projects st
       ∧ ((∀ j y, invoices st !! j = Some y → Invoice.id y = Some id →
                  j = i) →
          invoiceDb.findById id st' = None)).
Proof.
  intros Hfind.
  destruct (invoice_find_inv id st inv Hfind) as (i & _ & Hi & _ & Hidx).
  unfold delete_invoice. rewrite Hfind. split.
  - intros Hst. rewrite bool_decide_eq_true_2 by exact Hst. reflexivity.
  - intros Hst. rewrite bool_decide_eq_false_2 by (intros H; exact (H Hst)).
    unfold invoiceDb.delete. rewrite Hidx.
    exists i. eexists. split; [exact Hi|]. split; [reflexivity|].
    cbn [invoiceDb.writeAll invoices clients projects].
    split; [reflexivity|]. split; [|split; [reflexivity|split; [reflexivity|]]].
    + rewrite length_delete by (rewrite Hi; eauto).
      apply lookup_lt_Some in Hi. lia.
    + intros Huniq. unfold invoiceDb.findById.
      cbn [invoiceDb.writeAll invoices].
      rewrite invoice_find_delete by exact Huniq.
      reflexivity.
Qed.

(** A sent invoice stays, a draft goes. *)
Lemma delete_invoice_draft_only_witness :
  delete_invoice "i1" (Sample.storeWith "sent")
  = (mkResponse 400 "Only draft invoices can be deleted" None,
     Sample.storeWith "sent")
  ∧ ∃ st',
      delete_invoice "i1" (Sample.storeWith "draft")
      = (mkResponse 200 "Invoice deleted successfully" None, st')
      ∧ S (length (invoices st')) = 1%nat.
Proof.
  split.
  - apply (delete_invoice_draft_only "i1" (Sample.storeWith "sent")
             (Sample.invoice "sent")); [reflexivity | discriminate].
  - destruct (delete_invoice_draft_only "i1" (Sample.storeWith "draft")
                (Sample.invoice "draft") eq_refl) as [_ Hdraft].
    destruct (Hdraft eq_refl) as (i & st' & _ & Hrun & _ & Hlen & _).
    exists st'. split; [exact Hrun | exact Hlen].
Defined.

(** ** Updating the status *)

(** [{ ...invoice, status, updatedAt }] *)
Lemma put_invoice_status_run (e : Env) (id s : string) (st : Store)
    (inv : Invoice.t) :
  invoiceDb.findById id st = Some inv →
  s ∈ statuses →
  ∃ i,
    list_find (λ x, Invoice.id x = Some id) (invoices st) = Some (i, inv)
    ∧ invoices st !! i = Some inv
    ∧ let inv' :=
        Invoice.mk (Invoice.id inv) (Invoice.invoiceNumber inv)
          (Invoice.clientId inv) (Invoice.projectId inv) (Invoice.items inv)
          (Invoice.subtotal inv) (Invoice.discount inv)
          (Invoice.discountAmount inv) (Invoice.tax inv)
          (Invoice.taxAmount inv) (Invoice.total inv) (Some s)
          (Invoice.dueDate inv) (Invoice.notes inv) (Invoice.paidAmount inv)
          (Invoice.createdAt inv) (Some (now e)) in
      put_invoice_status e id (Some s) st
      = (mkResponse 200 "Invoice status updated successfully" (Some inv'),
         invoiceDb.writeAll (<[i := inv']> (invoices st)) st).
Proof.
  intros Hfind Hs.
  destruct (invoice_find_inv id st inv Hfind) as (i & Hlf & Hi & _ & Hidx).
  exists i. split; [exact Hlf|]. split; [exact Hi|].
  unfold put_invoice_status.
  rewrite bool_decide_eq_true_2 by exact Hs. cbn [negb].
  rewrite Hfind. unfold invoiceDb.update. rewrite Hidx, Hi.
  destruct inv; reflexivity.
Qed.

Lemma invoice_find_insert (k : string) (l : list Invoice.t) (i : nat)
    (x y : Invoice.t) :
  list_find (λ z, Invoice.id z = Some k) l = Some (i, x) →
  Invoice.id y = Some k →
  list_find (λ z, Invoice.id z = Some k) (<[i := y]> l) = Some (i, y).
Proof.
  intros Hfind Hy. apply list_find_Some in Hfind as (Hi & _ & Hbefore).
  apply list_find_Some. split; [|split; [exact Hy|]].
  - apply list_lookup_insert_eq. eapply lookup_lt_Some, Hi.
  - intros j z Hj Hlt. rewrite list_lookup_insert_ne in Hj by lia.
    eapply Hbefore; eassumption.
Qed.

(** C4 fails as stated: the route takes a paid invoice back to draft, and
    it stores [overdue]. *)
Lemma status_update_leaves_machine :
  put_invoice_status Sample.env "i1" (Some "draft") (Sample.storeWith "paid")
  = (mkResponse 200 "Invoice status updated successfully"
       (Some (Sample.invoice "draft")),
     Sample.storeWith "draft")
  ∧ put_invoice_status Sample.env "i1" (Some "overdue")
      (Sample.storeWith "sent")
    = (mkResponse 200 "Invoice status updated successfully"
         (Some (Sample.invoice "overdue")),
       Sample.storeWith "overdue")
  ∧ (("paid", "draft") ∉ machine)
  ∧ (("sent", "overdue") ∉ machine)
  ∧ ¬ follows_machine.
Proof.
  assert (Hrun : put_invoice_status Sample.env "i1" (Some "draft")
                   (Sample.storeWith "paid")
                 = (mkResponse 200 "Invoice status updated successfully"
                      (Some (Sample.invoice "draft")),
                    Sample.storeWith "draft")) by reflexivity.
  assert (Hno : ("paid", "draft") ∉ machine).
  { unfold machine. rewrite !elem_of_cons, elem_of_nil.
    intros [H|[H|[H|[H|[]]]]]; discriminate H. }
  split; [exact Hrun|]. split; [reflexivity|]. split; [exact Hno|].
  split.
  - unfold machine. rewrite !elem_of_cons, elem_of_nil.
    intros [H|[H|[H|[H|[]]]]]; discriminate H.
  - intros Hmachine.
    destruct (Hmachine Sample.env "i1" (Some "draft")
                (Sample.storeWith "paid") (Sample.invoice "paid") _ _
                (Sample.invoice "draft") eq_refl Hrun eq_refl)
      as (a & b & Ha & Hb & Hab); [discriminate|].
    injection Ha as <-. injection Hb as <-. exact (Hno Hab).
Qed.

(** C4, amended. On a stored invoice the status route checks the requested
    status against the list draft, sent, paid, overdue, cancelled and
    nothing else: a status of the list is stored whatever the current
    status is, and any other request is answered 400 with the store left
    as it is. *)
Theorem put_invoice_status_any_transition (e : Env) (id : string)
    (status : option string) (st : Store) (inv : Invoice.t) :
  invoiceDb.findById id st = Some inv →
  (∀ s, status = Some s → s ∈ statuses →
     ∃ inv' st',
       put_invoice_status e id status st
       = (mkResponse 200 "Invoice status updated successfully" (Some inv'),
          st')
       ∧ Invoice.status inv' = Some s
       ∧ invoiceDb.findById id st' = Some inv')
  ∧ ((∀ s, status = Some s → s ∉ statuses) →
     put_invoice_status e id status st
     = (mkResponse 400 "Invalid status" None, st)).
Proof.
  intros Hfind. split.
  - intros s -> Hs.
    destruct (put_invoice_status_run e id s st inv Hfind Hs)
      as (i & Hlf & Hi & Hrun).
    cbv zeta in Hrun. do 2 eexists. split; [exact Hrun|].
    split; [reflexivity|].
    unfold invoiceDb.findById. cbn [invoiceDb.writeAll invoices].
    apply list_find_Some in Hlf as Hid. destruct Hid as (_ & Hid & _).
    erewrite invoice_find_insert; [reflexivity|exact Hlf|exact Hid].
  - intros Hbad. unfold put_invoice_status.
    destruct status as [s|]; [|reflexivity].
    rewrite bool_decide_eq_false_2 by (apply Hbad; reflexivity).
    reflexivity.
Qed.

(** Paid back to draft is stored; a status outside the list is refused. *)
Lemma put_invoice_status_any_transition_witness :
  (∃ inv' st',
     put_invoice_status Sample.env "i1" (Some "draft")
       (Sample.storeWith "paid")
     = (mkResponse 200 "Invoice status updated successfully" (Some inv'),
        st')
     ∧ Invoice.status inv' = Some "draft"
     ∧ invoiceDb.findById "i1" st' = Some inv')
  ∧ put_invoice_status Sample.env "i1" (Some "archived")
      (Sample.storeWith "paid")
    = (mkResponse 400 "Invalid status" None, Sample.storeWith "paid").
Proof.
  split.
  - destruct (put_invoice_status_any_transition Sample.env "i1"
                (Some "draft") (Sample.storeWith "paid")
                (Sample.invoice "paid") eq_refl) as [Hok _].
    apply (Hok "draft" eq_refl).
    apply (bool_decide_eq_true_1 ("draft" ∈ statuses)). reflexivity.
  - destruct (put_invoice_status_any_transition Sample.env "i1"
                (Some "archived") (Sample.storeWith "paid")
                (Sample.invoice "paid") eq_refl) as [_ Hbad].
    apply Hbad. intros s Hs. injection Hs as <-.
    apply (bool_decide_eq_false_1 ("archived" ∈ statuses)). reflexivity.
Defined.

(** The status route answers 200 only for a status of the list and a
    stored invoice. *)
Lemma put_invoice_status_200_inv (e : Env) (id : string)
    (status : option string) (st : Store) :
  statusCode (put_invoice_status e id status st).1 = 200%nat →
  ∃ s inv,
    status = Some s ∧ s ∈ statuses ∧ invoiceDb.findById id st = Some inv.
Proof.
  unfold put_invoice_status.
  destruct status as [s|]; [|discriminate].
  case_bool_decide as Hs; [|discriminate]. cbn [negb].
  destruct (invoiceDb.findById id st) as [inv|]; [|discriminate].
  intros _. eauto.
Qed.

(** C5. A status update that succeeds on a stored invoice writes back the
    same invoice with the new status and the new [updatedAt]: the items,
    the subtotal, the discount, the tax, their amounts, the total and every
    other field are the ones stored before, and nothing else in the store
    changes. *)
Theorem put_invoice_status_frame (e : Env) (id s : string) (st : Store)
    (inv : Invoice.t) :
  invoiceDb.findById id st = Some inv →
  s ∈ statuses →
  ∃ i inv' st',
    invoices st !! i = Some inv
    ∧ put_invoice_status e id (Some s) st
      = (mkResponse 200 "Invoice status updated successfully" (Some inv'),
         st')
    ∧ invoices st' = <[i := inv']> (invoices st)
    ∧ (∀ j, j ≠ i → invoices st' !! j = invoices st !! j)
    ∧ clients st' = clients st
    ∧ projects st' = projects st
    ∧ Invoice.status inv' = Some s
    ∧ Invoice.updatedAt inv' = Some (now e)
    ∧ Invoice.id inv' = Invoice.id inv
    ∧ Invoice.invoiceNumber inv' = Invoice.invoiceNumber inv
    ∧ Invoice.clientId inv' = Invoice.clientId inv
    ∧ Invoice.projectId inv' = Invoice.projectId inv
    ∧ Invoice.items inv' = Invoice.items inv
    ∧ Invoice.subtotal inv' = Invoice.subtotal inv
    ∧ Invoice.discount inv' = Invoice.discount inv
    ∧ Invoice.discountAmount inv' = Invoice.discountAmount inv
    ∧ Invoice.tax inv' = Invoice.tax inv
    ∧ Invoice.taxAmount inv' = Invoice.taxAmount inv
    ∧ Invoice.total inv' = Invoice.total inv
    ∧ Invoice.dueDate inv' = Invoice.dueDate inv
    ∧ Invoice.notes inv' = Invoice.notes inv
    ∧ Invoice.paidAmount inv' = Invoice.paidAmount inv
    ∧ Invoice.createdAt inv' = Invoice.createdAt inv.
Proof.
  intros Hfind Hs.
  destruct (put_invoice_status_run e id s st inv Hfind Hs)
    as (i & _ & Hi & Hrun).
  cbv zeta in Hrun. exists i. do 2 eexists.
  split; [exact Hi|]. split; [exact Hrun|].
  cbn [invoiceDb.writeAll invoices clients projects].
  split; [reflexivity|]. split.
  - intros j Hj. apply list_lookup_insert_ne. congruence.
  - repeat split; reflexivity.
Qed.

(** Sending the draft of the scenario keeps its total. *)
Lemma put_invoice_status_frame_witness :
  ∃ inv',
    (put_invoice_status Sample.env "i1" (Some "sent")
       (Sample.storeWith "draft")).1
    = mkResponse 200 "Invoice status updated successfully" (Some inv')
    ∧ Invoice.status inv' = Some "sent"
    ∧ Invoice.total inv' = Some 97.2.
Proof.
  destruct (put_invoice_status_frame Sample.env "i1" "sent"
              (Sample.storeWith "draft") (Sample.invoice "draft") eq_refl)
    as (i & inv' & st' & _ & Hrun & _ & _ & _ & _ & Hst & Hrest).
  - apply (bool_decide_eq_true_1 ("sent" ∈ statuses)). reflexivity.
  - exists inv'. rewrite Hrun. split; [reflexivity|]. split; [exact Hst|].
    apply Hrest.
Defined.

(** ** Editing an invoice *)

(** [PUT /api/invoices/:id] with items in the body: the items and the four
    amounts are the computed ones, the percentages are the ones of the
    body when it has them and the stored ones otherwise. *)
Lemma put_invoice_items_run (e : Env) (id : string) (body : Invoice.Body)
    (st : Store) (inv : Invoice.t) (items : list Invoice.ItemInput) :
  invoiceDb.findById id st = Some inv →
  Invoice.b_items body = Some items →
  let T := routeTotals items (Invoice.b_discount body) (Invoice.b_tax body) in
  ∃ i inv',
    invoices st !! i = Some inv
    ∧ put_invoice e id body st
      = (mkResponse 200 "Invoice updated successfully" (Some inv'),
         invoiceDb.writeAll (<[i := inv']> (invoices st)) st)
    ∧ Invoice.items inv' = Some (storeItems items)
    ∧ Invoice.subtotal inv' = Some (t_subtotal T)
    ∧ Invoice.discountAmount inv' = Some (t_discountAmount T)
    ∧ Invoice.taxAmount inv' = Some (t_taxAmount T)
    ∧ Invoice.total inv' = Some (t_total T)
    ∧ Invoice.discount inv'
      = match Invoice.b_discount body with
        | Some d => Some d
        | None => Invoice.discount inv
        end
    ∧ Invoice.tax inv'
      = match Invoice.b_tax body with
        | Some t => Some t
        | None => Invoice.tax inv
        end.
Proof.
  intros Hfind Hitems T.
  destruct (invoice_find_inv id st inv Hfind) as (i & _ & Hi & _ & Hidx).
  exists i. eexists. split; [exact Hi|].
  unfold put_invoice. rewrite Hfind, Hitems.
  unfold invoiceDb.update. rewrite Hidx, Hi.
  split; [reflexivity|]. repeat split; reflexivity.
Qed.

(** C6. The update route has no rule on the number of items: on the stored
    invoice of the scenario the body [{ items: [] }] is answered 200 and
    the invoice is stored with no item and amounts 0, where the creation
    route answers 400 to the same items. *)
Theorem put_invoice_accepts_empty_items :
  ∃ inv',
    put_invoice Sample.env "i1" (Sample.itemsOnly []) (Sample.storeWith "sent")
    = (mkResponse 200 "Invoice updated successfully" (Some inv'),
       mkStore [Sample.acme] [] [inv'])
    ∧ Invoice.items inv' = Some []
    ∧ Invoice.subtotal inv' = Some 0
    ∧ Invoice.total inv' = Some (0 - 0 + 0)
    ∧ Invoice.discount inv' = Some 10
    ∧ post_invoice Sample.env
        (Invoice.mkBody None None (Some "c1") None (Some []) None None None
           None None None None None None None None None)
        (Sample.storeWith "sent")
      = (mkResponse 400 "Client and at least one item are required" None,
         Sample.storeWith "sent").
Proof. eexists. split; [reflexivity|]. repeat split. Qed.

(** With an empty item list the update always goes through. *)
Lemma put_invoice_empty_items (e : Env) (id : string) (body : Invoice.Body)
    (st : Store) (inv : Invoice.t) :
  invoiceDb.findById id st = Some inv →
  Invoice.b_items body = Some [] →
  ∃ i inv',
    invoices st !! i = Some inv
    ∧ put_invoice e id body st
      = (mkResponse 200 "Invoice updated successfully" (Some inv'),
         invoiceDb.writeAll (<[i := inv']> (invoices st)) st)
    ∧ Invoice.items inv' = Some []
    ∧ Invoice.subtotal inv' = Some 0.
Proof.
  intros Hfind Hitems.
  destruct (put_invoice_items_run e id body st inv [] Hfind Hitems)
    as (i & inv' & Hi & Hrun & His & Hsub & _).
  exists i, inv'. auto.
Qed.




(** ** Project statistics *)

Lemma isOverdueProject_cases (e : Env) (p : Project.t) :
  isOverdueProject e p = overdueSpec e p || cancelledPast e p
  ∧ overdueSpec e p && cancelledPast e p = false.
Proof.
  unfold isOverdueProject, overdueSpec, cancelledPast.
  destruct (Project.endDate p) as [endDate|]; [|split; reflexivity].
  destruct (endDate <? now e)%Z; [|split; reflexivity].
  cbn [andb]. repeat case_bool_decide; split; try reflexivity; congruence.
Qed.

(** The route counts the projects the specification calls overdue and,
    with them, the cancelled projects whose end date has passed. *)
Lemma overdue_count_split (e : Env) (st : Store) :
  o_overdue (projects_stats_overview e st)
  = (length (List.filter (overdueSpec e) (projects st))
     + length (List.filter (cancelledPast e) (projects st)))%nat.
Proof.
  unfold projects_stats_overview, projectDb.getAll. cbn [o_overdue].
  induction (projects st) as [|p l IH]; [reflexivity|].
  cbn [List.filter].
  destruct (isOverdueProject_cases e p) as [Hsum Hexcl].
  rewrite Hsum.
  destruct (overdueSpec e p), (cancelledPast e p);
    try discriminate Hexcl; cbn [orb length]; rewrite IH; lia.
Qed.

(** C7. The overdue count of [GET /api/projects/stats/overview] leaves out
    the completed projects only: for a single cancelled project whose end
    date has passed it is 1, where the number of projects with a past end
    date and a status that is neither completed nor cancelled is 0. *)
Theorem overdue_counts_cancelled :
  let st := mkStore [] [Sample.project "cancelled" 1690000000000] [] in
  o_overdue (projects_stats_overview Sample.env st) = 1%nat
  ∧ length (List.filter (overdueSpec Sample.env) (projects st)) = 0%nat.
Proof. split; reflexivity. Qed.

(** ** Creating a client *)

(** C8. A client-creation request with a name and an email is answered 400
    (a client with this email already exists) and adds nothing when a
    stored client has exactly this email, compared as strings with their
    case; otherwise it is answered 201 and the client, with [totalProjects
    = 0] and [totalRevenue = 0], is added at the end of the clients of the
    store, the projects and the invoices staying as they are. *)
Theorem post_client_unique_email (e : Env) (body : Client.t) (st : Store)
    (name email : string) :
  Client.name body = Some name → name ≠ "" →
  Client.email body = Some email → email ≠ "" →
  ((∃ c, c ∈ clients st ∧ Client.email c = Some email) →
   post_client e body st
   = (mkResponse 400 "Client with this email already exists" None, st))
  ∧ ((∀ c, c ∈ clients st → Client.email c ≠ Some email) →
     ∃ client st',
       post_client e body st
       = (mkResponse 201 "Client created successfully" (Some client), st')
       ∧ clients st' = clients st ++ [client]
       ∧ projects st' = projects st
       ∧ invoices st' = invoices st
       ∧ Client.totalProjects client = Some 0
       ∧ Client.totalRevenue client = Some 0
       ∧ Client.name client = Some name
       ∧ Client.email client = Some email).
Proof.
  intros Hname Hn Hemail He.
  apply truthy_string_true in Hn, He.
  unfold post_client. rewrite Hname, Hemail, Hn, He. cbn [negb orb].
  unfold clientDb.getAll. split.
  - intros (c & Hc & Hce).
    destruct (list_find_elem_of (λ c, Client.email c = Some email)
                (clients st) c Hc Hce) as [[i x] Hfound].
    rewrite Hfound. reflexivity.
  - intros Hfresh.
    assert (Hnone : list_find (λ c, Client.email c = Some email)
                      (clients st) = None).
    { apply list_find_None, Forall_forall. exact Hfresh. }
    rewrite Hnone. unfold clientDb.create. cbn [Client.id].
    do 2 eexists. split; [reflexivity|].
    cbn [clientDb.writeAll clients projects invoices]. repeat split.
Qed.

(** The same email is refused, the same email in another case is added
    after Acme. *)
Lemma post_client_unique_email_witness :
  post_client Sample.env (Sample.clientBody "a@acme.com") Sample.store
  = (mkResponse 400 "Client with this email already exists" None,
     Sample.store)
  ∧ ∃ client st',
      post_client Sample.env (Sample.clientBody "A@acme.com") Sample.store
      = (mkResponse 201 "Client created successfully" (Some client), st')
      ∧ clients st' = [Sample.acme; client]
      ∧ Client.email client = Some "A@acme.com"
      ∧ Client.totalProjects client = Some 0
      ∧ Client.totalRevenue client = Some 0.
Proof.
  split.
  - apply (post_client_unique_email Sample.env
             (Sample.clientBody "a@acme.com") Sample.store "Acme 2"
             "a@acme.com"); try reflexivity; try discriminate.
    exists Sample.acme. split; [apply list_elem_of_here | reflexivity].
  - destruct (post_client_unique_email Sample.env
                (Sample.clientBody "A@acme.com") Sample.store "Acme 2"
                "A@acme.com" eq_refl ltac:(discriminate) eq_refl
                ltac:(discriminate)) as [_ Hfresh].
    destruct Hfresh as (client & st' & Hrun & Hst & _ & _ & Htp & Htr & _ & Hmail).
    + intros c Hc. apply list_elem_of_singleton in Hc as ->. discriminate.
    + exists client, st'. split; [exact Hrun|]. split; [exact Hst|]. auto.
Defined.

(** ** Creating a project *)

(** C9. A project-creation request whose client id is the id of no stored
    client is answered 400 and the store is left as it is: no project is
    added and no client, so no [totalProjects], changes. *)
Theorem post_project_unknown_client (e : Env) (body : Project.t)
    (st : Store) :
  (∀ clientId, Project.clientId body = Some clientId →
               clientDb.findById clientId st = None) →
  ∃ msg,
    post_project e body st = (mkResponse 400 msg None, st)
    ∧ (msg = "Client not found" ∨ msg = "Title and client are required")
    ∧ projects (post_project e body st).2 = projects st
    ∧ clients (post_project e body st).2 = clients st.
Proof.
  intros Hunknown.
  assert (Hrun : ∃ msg,
             post_project e body st = (mkResponse 400 msg None, st)
             ∧ (msg = "Client not found"
                ∨ msg = "Title and client are required")).
  { unfold post_project.
    destruct (Project.title body) as [title|]; [|eauto].
    destruct (Project.clientId body) as [clientId|]; [|eauto].
    destruct (negb (truthy title) || negb (truthy clientId)); [eauto|].
    rewrite (Hunknown clientId eq_refl). eauto. }
  destruct Hrun as (msg & Hrun & Hmsg).
  exists msg. rewrite Hrun. auto.
Qed.

(** A project for a client id that is not stored. *)
Lemma post_project_unknown_client_witness :
  ∃ msg,
    post_project Sample.env (Sample.projectBody "c404") Sample.store
    = (mkResponse 400 msg None, Sample.store)
    ∧ clients (post_project Sample.env (Sample.projectBody "c404")
                 Sample.store).2
      = [Sample.acme].
Proof.
  destruct (post_project_unknown_client Sample.env
              (Sample.projectBody "c404") Sample.store)
    as (msg & Hrun & _ & _ & Hclients).
  - intros clientId Hcid. injection Hcid as <-. reflexivity.
  - exists msg. split; [exact Hrun | exact Hclients].
Defined.

(** With a known client, and the files read in place, the project is added
    and the counter of the client goes up by one. *)
Example post_project_known_client :
  ∃ project st',
    Deployed.post_project inPlace Sample.env (Sample.projectBody "c1")
      Sample.store
    = (mkResponse 201 "Project created successfully" (Some project), st')
    ∧ projects st' = [project]
    ∧ Client.totalProjects <$> clients st' = [Some (0 + 1)].
Proof. do 2 eexists. split; [reflexivity|]. split; reflexivity. Qed.

(** * Properties of the doubles *)

Section DoubleFacts.
Import Double.
#[local] Open Scope float_scope.

Lemma SFeqb_refl (X : spec_float) : X ≠ S754_nan → SFeqb X X = true.
Proof.
  unfold SFeqb. destruct X as [s|s| |s m e]; simpl; try congruence.
  - destruct s; reflexivity.
  - intros _. rewrite Z.compare_refl.
    change (Pos.compare_cont Eq m m) with (Pos.compare m m).
    rewrite Pos.compare_refl. destruct s; reflexivity.
Qed.

Lemma is_zero_spec (x : float) : is_zero x = true ↔ isZero x.
Proof.
  unfold is_zero, isZero. rewrite FloatAxioms.eqb_spec.
  change (Prim2SF zero) with (S754_zero false).
  destruct (Prim2SF x) as [s|s| |s m e]; unfold SFeqb; simpl; split;
    try discriminate; eauto.
  - destruct s; discriminate.
  - intros [? ?]; discriminate.
  - intros [? ?]; discriminate.
  - destruct s; discriminate.
  - intros [? ?]; discriminate.
Qed.

Lemma isFinite_SF (x : float) : isFinite x ↔ finiteSF (Prim2SF x).
Proof.
  unfold isFinite, isZero, finiteSF.
  destruct (Prim2SF x) as [s|s| |s m e]; split; eauto; try tauto;
    intros [[? ?]|(? & ? & ? & ?)]; discriminate.
Qed.

Lemma is_finite_spec (x : float) : is_finite x = true ↔ isFinite x.
Proof.
  rewrite isFinite_SF. unfold is_finite, is_nan, is_infinity, finiteSF.
  rewrite !FloatAxioms.eqb_spec, FloatAxioms.abs_spec.
  change (Prim2SF infinity) with (S754_infinity false).
  destruct (Prim2SF x) as [s|s| |s m e] eqn:E.
  - split; eauto.
  - unfold SFeqb; simpl. destruct s; simpl; split; (discriminate || tauto).
  - split; [discriminate | tauto].
  - rewrite SFeqb_refl by discriminate. split; eauto.
Qed.

Lemma alike_SF (x y : float) : alike x y ↔ alikeSF (Prim2SF x) (Prim2SF y).
Proof.
  unfold alike, alikeSF, isZero. split.
  - intros [->|[[s Hs] [s' Hs']]]; [left; reflexivity | right; eauto].
  - intros [H|(s & s' & Hs & Hs')]; [left; apply Prim2SF_inj, H | right; eauto].
Qed.

Lemma alike_refl (x : float) : alike x x.
Proof. left. reflexivity. Qed.

Lemma alike_sym (x y : float) : alike x y → alike y x.
Proof. intros [->|[Hx Hy]]; [left; reflexivity | right; auto]. Qed.

Lemma alike_trans (x y z : float) : alike x y → alike y z → alike x z.
Proof.
  intros [->|[Hx Hy]] [->|[Hy' Hz]]; [left|right|right|right]; auto.
Qed.

Lemma isZero_zero : isZero 0.
Proof. exists false. reflexivity. Qed.

Lemma isZero_finite (x : float) : isZero x → isFinite x.
Proof. intros H. left. exact H. Qed.

Lemma unsigned_alike (x : float) : alike (unsigned x) x.
Proof.
  unfold unsigned. destruct (is_zero x) eqn:E; [|apply alike_refl].
  right. split; [apply isZero_zero | apply is_zero_spec, E].
Qed.

Lemma alike_finite (x y : float) : alike x y → isFinite x → isFinite y.
Proof.
  intros [->|[_ Hy]] Hx; [exact Hx | apply isZero_finite, Hy].
Qed.

(** Two numbers that are alike are equal for [===], [NaN] apart. *)
Lemma alike_strictEq (x y : float) : alike x y → isFinite x → strictEq x y.
Proof.
  unfold strictEq. rewrite FloatAxioms.eqb_spec, isFinite_SF.
  intros [->|[[s Hs] [s' Hs']]] Hfin.
  - apply SFeqb_refl. intros E. rewrite E in Hfin. exact Hfin.
  - rewrite Hs, Hs'. reflexivity.
Qed.

(** The four operations do not tell two zeros apart, but for the sign of
    a zero they give. *)
Lemma mul_alike (a a' b b' : float) :
  alike a a' → alike b b' → alike (a * b) (a' * b').
Proof.
  rewrite !alike_SF, !FloatAxioms.mul_spec. unfold alikeSF, SF64mul.
  intros [->|(s & s' & -> & ->)] [->|(t & t' & -> & ->)].
  - left. reflexivity.
  - destruct (Prim2SF a'); simpl; eauto.
  - destruct (Prim2SF b'); simpl; eauto.
  - simpl. eauto.
Qed.

Lemma add_alike (a a' b b' : float) :
  alike a a' → alike b b' → alike (a + b) (a' + b').
Proof.
  rewrite !alike_SF, !FloatAxioms.add_spec. unfold alikeSF, SF64add.
  intros [->|(s & s' & -> & ->)] [->|(t & t' & -> & ->)].
  - left. reflexivity.
  - destruct (Prim2SF a') as [u|u| |u m e]; simpl; eauto.
    destruct u, t, t'; simpl; eauto.
  - destruct (Prim2SF b') as [u|u| |u m e]; simpl; eauto.
    destruct u, s, s'; simpl; eauto.
  - destruct s, s', t, t'; simpl; eauto.
Qed.

Lemma sub_alike (a a' b b' : float) :
  alike a a' → alike b b' → alike (a - b) (a' - b').
Proof.
  rewrite !alike_SF, !FloatAxioms.sub_spec. unfold alikeSF, SF64sub.
  intros [->|(s & s' & -> & ->)] [->|(t & t' & -> & ->)].
  - left. reflexivity.
  - destruct (Prim2SF a') as [u|u| |u m e]; simpl; eauto.
    destruct u, t, t'; simpl; eauto.
  - destruct (Prim2SF b') as [u|u| |u m e]; simpl; eauto.
    destruct u, s, s'; simpl; eauto.
  - destruct s, s', t, t'; simpl; eauto.
Qed.

Lemma div_alike (a a' b : float) : alike a a' → alike (a / b) (a' / b).
Proof.
  rewrite !alike_SF, !FloatAxioms.div_spec. unfold alikeSF, SF64div.
  intros [->|(s & s' & -> & ->)].
  - left. reflexivity.
  - destruct (Prim2SF b); simpl; eauto.
Qed.

(** An operation whose result is finite had finite operands. *)
Lemma finite_add (a b : float) : isFinite (a + b) → isFinite a ∧ isFinite b.
Proof.
  rewrite !isFinite_SF, FloatAxioms.add_spec. unfold SF64add.
  destruct (Prim2SF a) as [s|s| |s m e], (Prim2SF b) as [t|t| |t n f];
    try (intros _; split; exact I); simpl; try tauto;
    destruct s, t; simpl; tauto.
Qed.

Lemma finite_sub (a b : float) : isFinite (a - b) → isFinite a ∧ isFinite b.
Proof.
  rewrite !isFinite_SF, FloatAxioms.sub_spec. unfold SF64sub.
  destruct (Prim2SF a) as [s|s| |s m e], (Prim2SF b) as [t|t| |t n f];
    try (intros _; split; exact I); simpl; try tauto;
    destruct s, t; simpl; tauto.
Qed.

Lemma finite_mul (a b : float) : isFinite (a * b) → isFinite a ∧ isFinite b.
Proof.
  rewrite !isFinite_SF, FloatAxioms.mul_spec. unfold SF64mul.
  destruct (Prim2SF a) as [s|s| |s m e], (Prim2SF b) as [t|t| |t n f];
    try (intros _; split; exact I); simpl; tauto.
Qed.

Lemma finite_div_hundred (a : float) : isFinite (a / 100) → isFinite a.
Proof.
  rewrite !isFinite_SF, FloatAxioms.div_spec. unfold SF64div.
  change (Prim2SF 100) with (S754_finite false 7036874417766400 (-46)).
  destruct (Prim2SF a) as [s|s| |s m e]; try (intros _; exact I); simpl;
    tauto.
Qed.

(** A finite number times [0], over [100], is a zero. *)
Lemma zero_percent (x : float) : isFinite x → isZero (x * 0 / 100).
Proof.
  rewrite isFinite_SF. unfold isZero.
  rewrite FloatAxioms.div_spec, FloatAxioms.mul_spec.
  unfold SF64div, SF64mul.
  change (Prim2SF 100) with (S754_finite false 7036874417766400 (-46)).
  change (Prim2SF 0) with (S754_zero false).
  destruct (Prim2SF x) as [s|s| |s m e]; simpl; try tauto; eauto.
Qed.

Lemma toJSON_finite (x : float) : isFinite x → toJSON x = Some (unsigned x).
Proof.
  intros H. apply is_finite_spec in H. unfold toJSON, unsigned.
  rewrite H. reflexivity.
Qed.

Lemma toJSON_number (x y : float) : toJSON x = Some y → isFinite x.
Proof.
  unfold toJSON. destruct (is_finite x) eqn:E; [|discriminate].
  intros _. apply is_finite_spec, E.
Qed.


(** ** Sums *)

Lemma sum_finite (f : ItemInput → float) (items : list ItemInput)
    (acc : float) :
  isFinite (fold_left (λ sum item, sum + f item) items acc) →
  isFinite acc ∧ Forall (λ item, isFinite (f item)) items.
Proof.
  revert acc. induction items as [|item items IH]; intros acc; cbn [fold_left].
  - intros H. split; [exact H | constructor].
  - intros H. apply IH in H as [Hacc Hrest].
    apply finite_add in Hacc as [Hacc Hitem].
    split; [exact Hacc | constructor; assumption].
Qed.

Lemma sum_alike (f : ItemInput → float) (items : list ItemInput)
    (acc acc' : float) :
  alike acc acc' →
  alike (fold_left (λ sum item, sum + f item) items acc)
        (fold_left (λ sum item, sum + amount item)
           (map (λ item,
                   mkItem (in_description item) (unsigned (in_quantity item))
                     (unsigned (in_rate item)) (unsigned (f item)))
                items)
           acc').
Proof.
  revert acc acc'. induction items as [|item items IH]; intros acc acc' H;
    cbn [fold_left map].
  - exact H.
  - apply IH. cbn [amount].
    apply add_alike; [exact H | apply alike_sym, unsigned_alike].
Qed.

(** ** The totals of the creation route *)

(** A percentage that is finite was taken of finite numbers. *)
Lemma finite_percent (d : float) (x : float) :
  isFinite (x * d / 100) → isFinite x ∧ isFinite d.
Proof. intros H. apply finite_mul, finite_div_hundred, H. Qed.

(** When the total is finite, so is every number the handler computed. *)
Lemma routeTotals_finite (items : list ItemInput) (discount tax : option float) :
  let T := routeTotals items discount tax in
  isFinite (t_total T) →
  isFinite (t_subtotal T) ∧ isFinite (t_discountAmount T)
  ∧ isFinite (t_taxAmount T)
  ∧ isFinite (js_or discount 0) ∧ isFinite (js_or tax 0)
  ∧ Forall (λ item, isFinite (in_quantity item) ∧ isFinite (in_rate item)
                    ∧ isFinite (in_quantity item * in_rate item)) items.
Proof.
  cbn [routeTotals t_total t_subtotal t_discountAmount t_taxAmount].
  intros Htot.
  apply finite_add in Htot as [Hsd Hta].
  apply finite_sub in Hsd as [Hsub Hda].
  split; [exact Hsub|]. split; [exact Hda|]. split; [exact Hta|].
  split; [|split].
  - unfold js_or. destruct discount as [d|]; [|apply isZero_finite, isZero_zero].
    destruct (truthy d); [|apply isZero_finite, isZero_zero].
    apply (finite_percent d) in Hda. tauto.
  - unfold js_or. destruct tax as [t|]; [|apply isZero_finite, isZero_zero].
    destruct (truthy t); [|apply isZero_finite, isZero_zero].
    apply (finite_percent t) in Hta. tauto.
  - apply sum_finite in Hsub as [_ Hall].
    eapply Forall_impl; [exact Hall|].
    intros item H. cbv beta in H.
    destruct (finite_mul _ _ H). auto.
Qed.

(** The amounts follow the percentages that are stored, whether the request
    had them or not. *)
Lemma routeTotals_alike (items : list ItemInput) (discount tax : option float) :
  let T := routeTotals items discount tax in
  isFinite (t_subtotal T) → isFinite (t_subtotal T - t_discountAmount T) →
  alike (t_discountAmount T) (t_subtotal T * js_or discount 0 / 100)
  ∧ alike (t_taxAmount T)
          ((t_subtotal T - t_discountAmount T) * js_or tax 0 / 100).
Proof.
  cbn [routeTotals t_total t_subtotal t_discountAmount t_taxAmount].
  intros Hsub Hsd. unfold js_or. split.
  - destruct discount as [d|]; [destruct (truthy d)|];
      try apply alike_refl;
      right; (split; [apply isZero_zero | apply zero_percent, Hsub]).
  - destruct tax as [t|]; [destruct (truthy t)|];
      try apply alike_refl;
      right; (split; [apply isZero_zero | apply zero_percent, Hsd]).
Qed.

(** ** Invoice creation *)

(** What [POST /api/invoices] writes when it accepts the request. *)
Lemma double_post_invoice_created (e : Env) (body : Body) (st : Store)
    (clientId : string) (client : Client.t) (items : list ItemInput) :
  b_clientId body = Some clientId →
  clientId ≠ "" →
  client ∈ clients st → Client.id client = Some clientId →
  b_items body = Some items →
  items ≠ [] →
  let T := routeTotals items (b_discount body) (b_tax body) in
  ∃ inv,
    post_invoice e body st
    = (mkResponse 201 "Invoice created successfully" (Some inv),
       mkStore (clients st) (projects st)
         (map (mapNumbers rewritten) (invoices st) ++ [inv]))
    ∧ Double.items inv
      = map (λ item,
               mkItem (in_description item) (toJSON (in_quantity item))
                 (toJSON (in_rate item))
                 (toJSON (in_quantity item * in_rate item)))
            items
    ∧ subtotal inv = toJSON (t_subtotal T)
    ∧ discount inv = toJSON (js_or (b_discount body) 0)
    ∧ discountAmount inv = toJSON (t_discountAmount T)
    ∧ tax inv = toJSON (js_or (b_tax body) 0)
    ∧ taxAmount inv = toJSON (t_taxAmount T)
    ∧ total inv = toJSON (t_total T).
Proof.
  intros Hcid Hne Hin Hid Hitems Hnil T.
  unfold post_invoice. rewrite Hcid, Hitems.
  apply truthy_string_true in Hne. rewrite Hne.
  assert (Hlen : (length items =? 0)%nat = false)
    by (destruct items; [congruence | reflexivity]).
  rewrite Hlen. cbn [negb orb].
  destruct (list_find_elem_of (λ c, Client.id c = Some clientId)
              (clients st) client Hin Hid) as [[i c] Hfind].
  rewrite Hfind.
  eexists. split; [reflexivity|].
  cbn [mapNumbers Double.items subtotal discount discountAmount tax taxAmount
       total].
  unfold storeItems. rewrite map_map. repeat split; reflexivity.
Qed.

Lemma stored_items (items : list ItemInput) :
  Forall (λ item, isFinite (in_quantity item) ∧ isFinite (in_rate item)
                  ∧ isFinite (in_quantity item * in_rate item)) items →
  map (λ item,
         mkItem (in_description item) (toJSON (in_quantity item))
           (toJSON (in_rate item)) (toJSON (in_quantity item * in_rate item)))
      items
  = map (λ item : Item float,
           mkItem (description item) (Some (quantity item))
             (Some (rate item)) (Some (amount item)))
        (map (λ item,
                mkItem (in_description item) (unsigned (in_quantity item))
                  (unsigned (in_rate item))
                  (unsigned (in_quantity item * in_rate item)))
             items).
Proof.
  intros Hfin. rewrite map_map. cbn [description quantity rate amount].
  induction Hfin as [|item items (Hq & Hr & Ha) _ IH]; [reflexivity|].
  cbn [map]. rewrite IH, !toJSON_finite by assumption. reflexivity.
Qed.

(** The invariants of an invoice whose stored total is a number. *)
Lemma routeTotals_invariants (inv : Stored) (items : list ItemInput)
    (discount tax : option float) :
  let T := routeTotals items discount tax in
  Double.items inv
  = map (λ item,
           mkItem (in_description item) (toJSON (in_quantity item))
             (toJSON (in_rate item))
             (toJSON (in_quantity item * in_rate item)))
        items →
  subtotal inv = toJSON (t_subtotal T) →
  Double.discount inv = toJSON (js_or discount 0) →
  discountAmount inv = toJSON (t_discountAmount T) →
  Double.tax inv = toJSON (js_or tax 0) →
  taxAmount inv = toJSON (t_taxAmount T) →
  total inv = toJSON (t_total T) →
  total inv ≠ None →
  invariants inv.
Proof.
  intros T Hits Hsub Hd Hda Ht Hta Htot Hnum.
  assert (Hfin : isFinite (t_total T)).
  { destruct (total inv) as [x|] eqn:E; [|congruence].
    eapply toJSON_number. symmetry. exact Htot. }
  pose proof (routeTotals_finite items discount tax Hfin)
    as (Fsub & Fda & Fta & Fd & Ft & Fitems).
  fold T in Fsub, Fda, Fta.
  assert (Fsd : isFinite (t_subtotal T - t_discountAmount T)).
  { unfold T in Hfin. cbn [routeTotals t_total] in Hfin.
    apply finite_add in Hfin as [H _]. exact H. }
  pose proof (routeTotals_alike items discount tax Fsub Fsd) as [Ada Ata].
  fold T in Ada, Ata.
  rewrite toJSON_finite in Hsub, Hd, Hda, Ht, Hta, Htot by assumption.
  rewrite (stored_items items Fitems) in Hits.
  unfold invariants. do 7 eexists.
  split; [exact Hits|]. split; [exact Hsub|]. split; [exact Hd|].
  split; [exact Hda|]. split; [exact Ht|]. split; [exact Hta|].
  split; [exact Htot|].
  split; [|split; [|split; [|split]]].
  - apply Forall_map. eapply Forall_impl; [exact Fitems|].
    intros item (Hq & Hr & Ha). cbn [amount quantity rate].
    apply alike_strictEq.
    + eapply alike_trans; [apply unsigned_alike|].
      apply mul_alike; apply alike_sym, unsigned_alike.
    + eapply alike_finite; [apply alike_sym, unsigned_alike | exact Ha].
  - apply alike_strictEq.
    + eapply alike_trans; [apply unsigned_alike|].
      unfold sumAmounts. apply (sum_alike (λ item, in_quantity item * in_rate item)).
      apply alike_refl.
    + eapply alike_finite; [apply alike_sym, unsigned_alike | exact Fsub].
  - apply alike_strictEq.
    + eapply alike_trans; [apply unsigned_alike|].
      eapply alike_trans; [exact Ada|].
      apply div_alike, mul_alike; apply alike_sym, unsigned_alike.
    + eapply alike_finite; [apply alike_sym, unsigned_alike | exact Fda].
  - apply alike_strictEq.
    + eapply alike_trans; [apply unsigned_alike|].
      eapply alike_trans; [exact Ata|].
      apply div_alike, mul_alike; [|apply alike_sym, unsigned_alike].
      apply sub_alike; apply alike_sym, unsigned_alike.
    + eapply alike_finite; [apply alike_sym, unsigned_alike | exact Fta].
  - apply alike_strictEq.
    + eapply alike_trans; [apply unsigned_alike|].
      change (t_total T)
        with (t_subtotal T - t_discountAmount T + t_taxAmount T).
      apply add_alike; [|apply alike_sym, unsigned_alike].
      apply sub_alike; apply alike_sym, unsigned_alike.
    + eapply alike_finite; [apply alike_sym, unsigned_alike | exact Hfin].
Qed.

Lemma unsigned_idem (x : float) : unsigned (unsigned x) = unsigned x.
Proof.
  unfold unsigned. destruct (is_zero x) eqn:E; [reflexivity|].
  rewrite E. reflexivity.
Qed.

(** What was written by [JSON.stringify] is written back as it is. *)
Lemma rewritten_toJSON (x : float) : rewritten (toJSON x) = toJSON x.
Proof.
  destruct (is_finite x) eqn:E.
  - apply is_finite_spec in E. rewrite (toJSON_finite x E). cbn [rewritten].
    rewrite toJSON_finite, unsigned_idem; [reflexivity|].
    eapply alike_finite; [apply alike_sym, unsigned_alike | exact E].
  - unfold toJSON. rewrite E. reflexivity.
Qed.

Lemma mapNumbers_toJSON_asWritten (inv : Invoice float) :
  asWritten (mapNumbers toJSON inv).
Proof.
  unfold asWritten, mapNumbers.
  cbn [id invoiceNumber clientId projectId Double.items subtotal discount
       discountAmount tax taxAmount total status dueDate notes paidAmount
       createdAt updatedAt].
  rewrite map_map. cbn [description quantity rate amount].
  rewrite !rewritten_toJSON. f_equal.
  apply map_ext. intros item. rewrite !rewritten_toJSON. reflexivity.
Qed.

Lemma asWritten_all (l : list Stored) :
  Forall asWritten l → map (mapNumbers rewritten) l = l.
Proof.
  induction 1 as [|inv l H _ IH]; [reflexivity|].
  cbn [map]. rewrite IH, H. reflexivity.
Qed.

(** An accepted request, with the invariants of what it stores. *)
Lemma double_post_invoice_invariants (e : Env) (body : Body) (st : Store)
    (clientId : string) (client : Client.t) (items : list ItemInput) :
  b_clientId body = Some clientId →
  clientId ≠ "" →
  client ∈ clients st → Client.id client = Some clientId →
  b_items body = Some items →
  items ≠ [] →
  ∃ inv,
    post_invoice e body st
    = (mkResponse 201 "Invoice created successfully" (Some inv),
       mkStore (clients st) (projects st)
         (map (mapNumbers rewritten) (invoices st) ++ [inv]))
    ∧ asWritten inv
    ∧ (total inv ≠ None → invariants inv)
    ∧ discount inv = toJSON (js_or (b_discount body) 0)
    ∧ tax inv = toJSON (js_or (b_tax body) 0).
Proof.
  intros Hcid Hne Hin Hid Hitems Hnil.
  destruct (double_post_invoice_created e body st clientId client items)
    as (inv & Hrun & Hits & Hsub & Hd & Hda & Ht & Hta & Htot);
    try assumption.
  exists inv. split; [exact Hrun|]. split; [|split; [|split; assumption]].
  - revert Hrun. unfold post_invoice. rewrite Hcid, Hitems.
    destruct (negb (truthy clientId) || (length items =? 0)%nat);
      [discriminate|].
    destruct (list_find _ (clients st)); [|discriminate].
    intros [= <-]. apply mapNumbers_toJSON_asWritten.
  - intros Hnum.
    exact (routeTotals_invariants inv items (b_discount body) (b_tax body)
             Hits Hsub Hd Hda Ht Hta Htot Hnum).
Qed.

(** A request is accepted only under these conditions. *)
Lemma double_post_invoice_201_inv (e : Env) (body : Body) (st : Store) :
  statusCode (post_invoice e body st).1 = 201%nat →
  ∃ clientId client items,
    b_clientId body = Some clientId ∧ clientId ≠ ""
    ∧ client ∈ clients st ∧ Client.id client = Some clientId
    ∧ b_items body = Some items ∧ items ≠ [].
Proof.
  unfold post_invoice.
  destruct (b_clientId body) as [clientId|]; [|discriminate].
  destruct (b_items body) as [items|]; [|discriminate].
  destruct (truthy clientId) eqn:Hcid; [|discriminate].
  destruct items as [|item items]; [discriminate|].
  cbn [negb orb length Nat.eqb].
  destruct (list_find _ (clients st)) as [[i client]|] eqn:Hfind;
    [|discriminate].
  intros _. apply list_find_Some in Hfind as (Hi & Hid & _).
  exists clientId, client, (item :: items).
  apply truthy_string_true in Hcid.
  split; [reflexivity|]. split; [exact Hcid|].
  split; [eapply list_elem_of_lookup_2, Hi|].
  split; [exact Hid|]. split; [reflexivity | discriminate].
Qed.
End DoubleFacts.

(** C1 fails as stated: a product that overflows is written [null], so
    the created invoice is stored without amount, subtotal and total, and
    the equations hold of no numbers. *)
Lemma post_invoice_overflow_stores_null :
  ∃ inv,
    Double.post_invoice Sample.env
      (DoubleSample.body [DoubleSample.huge] None None) DoubleSample.store
    = (mkResponse 201 "Invoice created successfully" (Some inv),
       Double.mkStore [Sample.acme] [] [inv])
    ∧ Double.amount <$> Double.items inv = [None]
    ∧ Double.subtotal inv = None
    ∧ Double.total inv = None
    ∧ ¬ Double.invariants inv
    ∧ ¬ creation_keeps_invariants.
Proof.
  eexists. split; [reflexivity|].
  split; [reflexivity|]. split; [reflexivity|]. split; [reflexivity|].
  assert (Hno : ¬ Double.invariants
                    (Double.mapNumbers Double.toJSON
                       (Double.mkInvoice (generateId Sample.env) "INV-0001"
                          "c1" None
                          (Double.storeItems [DoubleSample.huge])
                          PrimFloat.infinity 0%float 0%float 0%float 0%float
                          PrimFloat.infinity "draft"
                          (now Sample.env + THIRTY_DAYS)%Z "" 0%float
                          (now Sample.env) (now Sample.env)))).
  { intros (its & sub & d & da & t & ta & tot & _ & Hsub & _).
    discriminate Hsub. }
  split; [exact Hno|].
  intros Hkeeps. apply Hno.
  eapply (Hkeeps Sample.env (DoubleSample.body [DoubleSample.huge] None None)
            DoubleSample.store); reflexivity.
Qed.

(** C1, amended. Every invoice that [POST /api/invoices] creates (the
    client id of the request is the id of a stored client and the item
    list is not empty) is added to the invoices of the file, the other
    invoices being written back, and whenever its stored total is a number
    and not [null] it is stored with [amount = quantity * rate] on each
    item, the subtotal the sum of the amounts in the order of the list,
    [discountAmount = subtotal * discount / 100], [taxAmount = (subtotal -
    discountAmount) * tax / 100] and [total = subtotal - discountAmount +
    taxAmount], every operation being the one of the doubles and the two
    sides being equal for [===]; the discount and the tax are stored as 0
    when the request has none; one item of quantity 2 at rate 50 with
    discount 10 and tax 8 gives 100, 10, 7.2 and 97.2. *)
Theorem post_invoice_totals (e : Env) (body : Double.Body)
    (st : Double.Store) (clientId : string) (client : Client.t)
    (items : list Double.ItemInput) :
  Double.b_clientId body = Some clientId →
  clientId ≠ "" →
  client ∈ Double.clients st → Client.id client = Some clientId →
  Double.b_items body = Some items →
  items ≠ [] →
  ∃ inv st',
    Double.post_invoice e body st
    = (mkResponse 201 "Invoice created successfully" (Some inv), st')
    ∧ Double.invoices st'
      = map (Double.mapNumbers Double.rewritten) (Double.invoices st) ++ [inv]
    ∧ (Forall Double.asWritten (Double.invoices st) →
       Double.invoices st' = Double.invoices st ++ [inv]
       ∧ Forall Double.asWritten (Double.invoices st'))
    ∧ Double.clients st' = Double.clients st
    ∧ Double.projects st' = Double.projects st
    ∧ (Double.total inv ≠ None → Double.invariants inv)
    ∧ (Double.b_discount body = None → Double.discount inv = Some 0%float)
    ∧ (Double.b_tax body = None → Double.tax inv = Some 0%float)
    ∧ (∀ description,
         items = [Double.mkItemInput description 2 50] →
         Double.b_discount body = Some 10%float →
         Double.b_tax body = Some 8%float →
         Double.items inv
         = [Double.mkItem description (Some 2%float) (Some 50%float)
              (Some 100%float)]
         ∧ Double.subtotal inv = Some 100%float
         ∧ Double.discountAmount inv = Some 10%float
         ∧ Double.taxAmount inv = Some 7.2%float
         ∧ Double.total inv = Some 97.2%float).
Proof.
  intros Hcid Hne Hin Hid Hitems Hnil.
  destruct (double_post_invoice_invariants e body st clientId client items)
    as (inv & Hrun & Hwritten & Hinv & Hd & Ht); try assumption.
  exists inv. eexists. split; [exact Hrun|].
  cbn [Double.invoices Double.clients Double.projects].
  split; [reflexivity|]. split.
  { intros Hall. rewrite (asWritten_all _ Hall). split; [reflexivity|].
    apply Forall_app. split; [exact Hall|]. constructor; [exact Hwritten|].
    constructor. }
  split; [reflexivity|]. split; [reflexivity|]. split; [exact Hinv|].
  split; [intros Hnone; rewrite Hd, Hnone; reflexivity|].
  split; [intros Hnone; rewrite Ht, Hnone; reflexivity|].
  intros description -> Hd10 Ht8.
  revert Hrun. unfold Double.post_invoice.
  rewrite Hcid, Hitems, Hd10, Ht8.
  destruct (negb (truthy clientId) || (length [_] =? 0)%nat);
    [discriminate|].
  destruct (list_find _ (Double.clients st)); [|discriminate].
  intros [= <-]. repeat split; reflexivity.
Qed.

(** The scenario of the specification, created in the sample store. *)
Lemma post_invoice_totals_witness :
  ∃ inv st',
    Double.post_invoice Sample.env
      (DoubleSample.body [DoubleSample.work] (Some 10%float) (Some 8%float))
      DoubleSample.store
    = (mkResponse 201 "Invoice created successfully" (Some inv), st')
    ∧ Double.invoices st' = [inv]
    ∧ Double.total inv = Some 97.2%float
    ∧ Double.invariants inv.
Proof.
  destruct (post_invoice_totals Sample.env
              (DoubleSample.body [DoubleSample.work] (Some 10%float)
                 (Some 8%float))
              DoubleSample.store "c1" Sample.acme [DoubleSample.work]
              eq_refl ltac:(discriminate) ltac:(apply list_elem_of_here)
              eq_refl eq_refl ltac:(discriminate))
    as (inv & st' & Hrun & Hst & _ & _ & _ & Hinv & _ & _ & Hscenario).
  destruct (Hscenario "work" eq_refl eq_refl eq_refl)
    as (_ & _ & _ & _ & Htot).
  exists inv, st'. split; [exact Hrun|]. split; [exact Hst|].
  split; [exact Htot|]. apply Hinv. rewrite Htot. discriminate.
Defined.

(** Three tenths: the stored amounts are the rounded ones, and they
    satisfy the equations of the doubles. *)
Example post_invoice_rounds :
  ∃ inv,
    Double.post_invoice Sample.env
      (DoubleSample.body [DoubleSample.tenths] (Some 10%float) None)
      DoubleSample.store
    = (mkResponse 201 "Invoice created successfully" (Some inv),
       Double.mkStore [Sample.acme] [] [inv])
    ∧ Double.subtotal inv = Some 0.30000000000000004%float
    ∧ Double.discountAmount inv = Some 0.030000000000000006%float
    ∧ Double.total inv = Some 0.27%float
    ∧ (0.30000000000000004 =? 0.3)%float = false
    ∧ Double.invariants inv.
Proof.
  destruct (double_post_invoice_invariants Sample.env
              (DoubleSample.body [DoubleSample.tenths] (Some 10%float) None)
              DoubleSample.store "c1" Sample.acme [DoubleSample.tenths]
              eq_refl ltac:(discriminate) ltac:(apply list_elem_of_here)
              eq_refl eq_refl ltac:(discriminate))
    as (inv & Hrun & _ & Hinv & _).
  exists inv. split; [exact Hrun|].
  injection Hrun as <-.
  split; [reflexivity|]. split; [reflexivity|]. split; [reflexivity|].
  split; [reflexivity|]. apply Hinv. discriminate.
Qed.

(** * Properties of the rest of the routes *)

(** ** Pagination *)

Lemma ceil_div_bounds (a b : Z) :
  (0 < b)%Z →
  let n := Math_ceil (inject_Z a / inject_Z b) in
  ((n - 1) * b < a ≤ n * b)%Z.
Proof.
  intros Hb n.
  assert (Hbq : inject_Z 0 < inject_Z b) by (rewrite <- Zlt_Qlt; exact Hb).
  change (0 < inject_Z b) in Hbq.
  assert (Hne : ¬ inject_Z b == 0) by lra.
  pose proof (Qle_ceiling (inject_Z a / inject_Z b)) as Hup.
  pose proof (Qceiling_lt (inject_Z a / inject_Z b)) as Hlow.
  fold (Math_ceil (inject_Z a / inject_Z b)) in Hup, Hlow. fold n in Hup, Hlow.
  split.
  - rewrite Zlt_Qlt, inject_Z_mult.
    apply (Qmult_lt_r _ _ (inject_Z b) Hbq) in Hlow.
    rewrite <- (Qmult_div_r (inject_Z a) (inject_Z b) Hne).
    rewrite (Qmult_comm (inject_Z b)). exact Hlow.
  - rewrite Zle_Qle, inject_Z_mult.
    apply (Qmult_le_r _ _ (inject_Z b) Hbq) in Hup.
    rewrite <- (Qmult_div_r (inject_Z a) (inject_Z b) Hne).
    rewrite (Qmult_comm (inject_Z b)). exact Hup.
Qed.

Lemma truthy_integer_true (z : Z) : z ≠ 0%Z → truthy z = true.
Proof.
  intros Hz. unfold truthy, truthy_integer.
  apply negb_true_iff, Z.eqb_neq, Hz.
Qed.

(** A slice between two non-negative bounds is a window of the list. *)
Lemma js_slice_window {A} (start n : Z) (l : list A) :
  (0 ≤ start)%Z → (0 ≤ n)%Z →
  js_slice start (start + n) l
  = take (Z.to_nat n) (drop (Z.to_nat start) l).
Proof.
  intros Hs Hn. unfold js_slice, relativeIndex.
  destruct (Z.ltb_spec start 0) as [|_]; [lia|].
  destruct (Z.ltb_spec (start + n) 0) as [|_]; [lia|].
  destruct (Z.le_gt_cases (Z.of_nat (length l)) start) as [Hout|Hin].
  - rewrite (drop_ge l (Z.to_nat start)) by lia.
    rewrite (drop_ge l (Z.to_nat (Z.min start _))) by lia.
    rewrite !take_nil. reflexivity.
  - replace (Z.to_nat (Z.min start (Z.of_nat (length l))))
      with (Z.to_nat start) by lia.
    destruct (Z.le_gt_cases (start + n) (Z.of_nat (length l))) as [Hfit|Hcut].
    + f_equal. lia.
    + rewrite !take_ge; [reflexivity| |]; rewrite length_drop; lia.
Qed.

Lemma paginate_items {A} (page limit : Z) (l : list A) :
  (1 ≤ page)%Z → (1 ≤ limit)%Z →
  (paginate (Some page) (Some limit) l).1
  = take (Z.to_nat limit) (drop (Z.to_nat ((page - 1) * limit)) l).
Proof.
  intros Hp Hl. unfold paginate, js_or.
  rewrite !truthy_integer_true by lia. cbn [fst].
  apply js_slice_window; nia.
Qed.

Lemma paginate_totalPages {A} (page limit : Z) (l : list A) :
  (1 ≤ page)%Z → (1 ≤ limit)%Z →
  let T := totalPages (paginate (Some page) (Some limit) l).2 in
  ((T - 1) * limit < Z.of_nat (length l) ≤ T * limit)%Z.
Proof.
  intros Hp Hl. unfold paginate, js_or.
  rewrite !truthy_integer_true by lia. cbn [snd totalPages].
  apply ceil_div_bounds. lia.
Qed.






(** X3. With a page number and a limit that are at least 1, [hasNext] is
    true exactly when the next page holds a record, and [hasPrev] exactly
    when the page is not the first. *)
Theorem paginate_hasNext {A} (page limit : Z) (l : list A) :
  (1 ≤ page)%Z → (1 ≤ limit)%Z →
  let pg := (paginate (Some page) (Some limit) l).2 in
  (hasNext pg = true
   ↔ (paginate (Some (page + 1)%Z) (Some limit) l).1 ≠ [])
  ∧ (hasPrev pg = true ↔ (1 < page)%Z).
Proof.
  intros Hp Hl pg.
  pose proof (paginate_totalPages page limit l Hp Hl) as HT.
  fold pg in HT. cbv zeta in HT.
  assert (Hpg : pg = mkPagination page (totalPages pg) (length l)
                       (page <? totalPages pg)%Z (1 <? page)%Z).
  { unfold pg, paginate, js_or. rewrite !truthy_integer_true by lia.
    reflexivity. }
  rewrite paginate_items by lia.
  replace (page + 1 - 1)%Z with page by lia.
  split.
  - rewrite Hpg. cbn [hasNext]. rewrite Z.ltb_lt.
    assert (Hlen : take (Z.to_nat limit) (drop (Z.to_nat (page * limit)) l)
                   ≠ []
                   ↔ (Z.to_nat (page * limit) < length l)%nat).
    { rewrite <- length_zero_iff_nil, length_take, length_drop. lia. }
    rewrite Hlen. split; intros H; nia.
  - rewrite Hpg. cbn [hasPrev]. apply Z.ltb_lt.
Qed.

(** Page 1 of five records by two has a next page, page 3 has none. *)
Lemma paginate_hasNext_witness :
  hasNext (paginate (Some 3%Z) (Some 2%Z) [1; 2; 3; 4; 5]%nat).2 = false
  ∧ hasPrev (paginate (Some 3%Z) (Some 2%Z) [1; 2; 3; 4; 5]%nat).2 = true.
Proof.
  destruct (paginate_hasNext 3 2 [1; 2; 3; 4; 5]%nat) as [Hnext Hprev];
    [lia | lia |].
  split.
  - apply not_true_is_false. intros H. apply Hnext in H. apply H.
    reflexivity.
  - apply Hprev. lia.
Defined.

(** X4. The limit is not checked: on the first page a limit of [-k] gives
    the whole list but its last [k] records, however many they are, and
    says there is no next page. *)
Theorem paginate_negative_limit {A} (k : Z) (l : list A) :
  (0 < k)%Z →
  (paginate (Some 1%Z) (Some (- k)%Z) l).1
  = take (length l - Z.to_nat k) l
  ∧ hasNext (paginate (Some 1%Z) (Some (- k)%Z) l).2 = false.
Proof.
  intros Hk. unfold paginate, js_or.
  rewrite !truthy_integer_true by lia. cbn [fst snd hasNext]. split.
  - unfold js_slice, relativeIndex.
    replace ((1 - 1) * - k)%Z with 0%Z by lia.
    destruct (Z.ltb_spec 0 0) as [|_]; [lia|].
    destruct (Z.ltb_spec (0 + - k) 0) as [_|]; [|lia].
    replace (Z.to_nat (Z.min 0 (Z.of_nat (length l)))) with 0%nat by lia.
    rewrite drop_0. f_equal. lia.
  - apply Z.ltb_ge.
    assert (Hc : (Math_ceil (inject_Z (Z.of_nat (length l))
                             / inject_Z (- k)) ≤ 0)%Z).
    { unfold Math_ceil. rewrite <- (Qceiling_Z 0).
      apply Qceiling_resp_le.
      assert (Hkq : inject_Z (- k) < inject_Z 0)
        by (rewrite <- Zlt_Qlt; lia).
      assert (Hlq : inject_Z 0 <= inject_Z (Z.of_nat (length l)))
        by (rewrite <- Zle_Qle; lia).
      change (inject_Z 0) with 0 in *.
      set (a := inject_Z (Z.of_nat (length l))) in *.
      set (b := inject_Z (- k)) in *.
      assert (Hpos : 0 <= a / - b) by (apply Qle_shift_div_l; lra).
      assert (E : a / b == - (a / - b)) by (field; lra).
      rewrite E. lra. }
    lia.
Qed.

(** Five records asked with [limit=-1]: four come back. *)
Lemma paginate_negative_limit_witness :
  (paginate (Some 1%Z) (Some (- 1)%Z) [1; 2; 3; 4; 5]%nat).1
  = [1; 2; 3; 4]%nat.
Proof.
  destruct (paginate_negative_limit 1 [1; 2; 3; 4; 5]%nat) as [Hitems _];
    [lia|].
  exact Hitems.
Defined.

(** ** Clients *)

Lemma NoDup_insert_fresh {A} (l : list A) (i : nat) (y : A) :
  NoDup l →
  (∀ j, j ≠ i → l !! j ≠ Some y) →
  NoDup (<[i := y]> l).
Proof.
  intros Hnd Hfresh. apply NoDup_alt. intros j1 j2 x H1 H2.
  apply list_lookup_insert_Some in H1 as [(-> & <- & Hlt1)|(Hne1 & H1)];
    apply list_lookup_insert_Some in H2 as [(-> & E & Hlt2)|(Hne2 & H2)];
    try reflexivity.
  - exfalso. exact (Hfresh j2 (not_eq_sym Hne2) H2).
  - subst x. exfalso. exact (Hfresh j1 (not_eq_sym Hne1) H1).
  - eapply NoDup_lookup; eassumption.
Qed.

Lemma NoDup_delete {A} (l : list A) (i : nat) :
  NoDup l → NoDup (base.delete i l).
Proof.
  intros Hnd. eapply sublist_NoDup; [exact Hnd | apply sublist_delete].
Qed.

(** X5. The client routes keep the emails of the store distinct: after
    [POST /api/clients], [DELETE /api/clients/:id] and, when the ids of
    the clients are distinct, [PUT /api/clients/:id], no two clients have
    the same email if none had before, whatever the answer is. *)
Theorem client_routes_keep_emails_unique (e : Env) (id : string)
    (body : Client.t) (st : Store) :
  emailsUnique st →
  emailsUnique (post_client e body st).2
  ∧ emailsUnique (delete_client id st).2
  ∧ (clientIdsUnique st → emailsUnique (put_client e id body st).2).
Proof.
  unfold emailsUnique, clientIdsUnique. intros Hnd. split; [|split].
  - unfold post_client.
    destruct (Client.name body) as [name|]; [|exact Hnd].
    destruct (Client.email body) as [email|]; [|exact Hnd].
    destruct (negb (truthy name) || negb (truthy email)); [exact Hnd|].
    unfold clientDb.getAll.
    destruct (list_find _ (clients st)) as [[i c]|] eqn:Hfind; [exact Hnd|].
    cbn [snd clientDb.create clientDb.writeAll clients].
    rewrite fmap_app. cbn [fmap list_fmap Client.email].
    apply NoDup_app. split; [exact Hnd|]. split; [|apply NoDup_singleton].
    intros x Hx Hx'. apply list_elem_of_singleton in Hx'. subst x.
    apply list_elem_of_fmap in Hx as (c & Hc & Hin).
    apply list_find_None in Hfind. rewrite Forall_forall in Hfind.
    exact (Hfind c Hin (eq_sym Hc)).
  - unfold delete_client, clientDb.getAll.
    destruct (list_find _ (clients st)) as [[i c]|]; [|exact Hnd].
    cbn [snd clientDb.writeAll clients].
    rewrite list_fmap_delete. apply NoDup_delete, Hnd.
  - intros Hids. unfold put_client, clientDb.getAll.
    destruct (list_find _ (clients st)) as [[i c]|] eqn:Hfind; [|exact Hnd].
    apply list_find_Some in Hfind as (Hi & Hid & _).
    destruct (truthy (Client.email body)
              && bool_decide (Client.email body ≠ Client.email c)) eqn:Hgate.
    + destruct (list_find _ (clients st)) as [[j c']|] eqn:Hdup;
        [exact Hnd|].
      cbn [snd clientDb.writeAll clients].
      rewrite list_fmap_insert. cbn [Client.email].
      apply andb_true_iff in Hgate as [Htruthy _].
      destruct (Client.email body) as [s|] eqn:Hs; [|discriminate].
      unfold js_or_opt. cbn [truthy truthy_undefined] in Htruthy.
      rewrite Htruthy.
      apply NoDup_insert_fresh; [exact Hnd|].
      intros j Hj Hlook. rewrite list_lookup_fmap in Hlook.
      destruct (clients st !! j) as [c'|] eqn:Hj'; [|discriminate].
      cbn in Hlook. injection Hlook as Hmail.
      apply list_find_None in Hdup. rewrite Forall_forall in Hdup.
      apply (Hdup c'); [eapply list_elem_of_lookup_2; exact Hj'|].
      split; [exact Hmail|].
      intros Hid'. apply Hj.
      eapply (NoDup_lookup _ j i (Some id) Hids);
        rewrite list_lookup_fmap; [rewrite Hj'|rewrite Hi]; cbn; congruence.
    + cbn [snd clientDb.writeAll clients].
      rewrite list_fmap_insert. cbn [Client.email].
      assert (Hsame : js_or_opt (Client.email body) (Client.email c)
                      = Client.email c).
      { unfold js_or_opt. destruct (Client.email body) as [s|]; [|reflexivity].
        cbn [truthy truthy_undefined] in Hgate.
        destruct (truthy s); [|reflexivity].
        cbn [andb] in Hgate. apply bool_decide_eq_false in Hgate.
        destruct (decide (Some s = Client.email c)) as [E|N];
          [exact E | contradiction]. }
      rewrite Hsame, list_insert_id; [exact Hnd|].
      rewrite list_lookup_fmap, Hi. reflexivity.
Qed.

(** The sample store keeps its emails distinct through a creation and an
    edit. *)
Lemma client_routes_keep_emails_unique_witness :
  emailsUnique
    (post_client Sample.env (Sample.clientBody "b@acme.com") Sample.store).2
  ∧ emailsUnique
      (put_client Sample.env "c1" (Sample.clientBody "b@acme.com")
         Sample.store).2.
Proof.
  destruct (client_routes_keep_emails_unique Sample.env "c1"
              (Sample.clientBody "b@acme.com") Sample.store)
    as (Hpost & _ & Hput).
  - apply NoDup_singleton.
  - split; [exact Hpost | apply Hput, NoDup_singleton].
Defined.

(** X6. [PUT /api/clients/:id] never touches the derived fields: whatever
    the body and the answer, every client keeps its id, its
    [totalProjects], its [totalRevenue] and its [createdAt], and the
    projects and the invoices of the store are the same. *)
Theorem put_client_keeps_counters (e : Env) (id : string) (body : Client.t)
    (st : Store) :
  let st' := (put_client e id body st).2 in
  Client.totalProjects <$> clients st' = Client.totalProjects <$> clients st
  ∧ Client.totalRevenue <$> clients st' = Client.totalRevenue <$> clients st
  ∧ Client.id <$> clients st' = Client.id <$> clients st
  ∧ Client.createdAt <$> clients st' = Client.createdAt <$> clients st
  ∧ projects st' = projects st
  ∧ invoices st' = invoices st.
Proof.
  unfold put_client, clientDb.getAll.
  destruct (list_find _ (clients st)) as [[i c]|] eqn:Hfind;
    [|repeat split; reflexivity].
  apply list_find_Some in Hfind as (Hi & _ & _).
  match goal with
  | |- context [match ?x with Some _ => _ | None => _ end] =>
    destruct x as [dup|]; [repeat split; reflexivity|]
  end.
  cbn [snd clientDb.writeAll clients projects invoices].
  rewrite !list_fmap_insert.
  cbn [Client.totalProjects Client.totalRevenue Client.id Client.createdAt].
  repeat split; try reflexivity;
    apply list_insert_id; rewrite list_lookup_fmap, Hi; reflexivity.
Qed.

(** ** Orphans *)

Lemma list_find_delete_unique {A} (P : A → Prop) `{∀ x, Decision (P x)}
    (l : list A) (i : nat) :
  (∀ j y, l !! j = Some y → P y → j = i) →
  list_find P (base.delete i l) = None.
Proof.
  intros Huniq. apply list_find_None, Forall_forall.
  intros y Hy HP. apply list_elem_of_lookup in Hy as [j Hj].
  destruct (decide (j < i)%nat) as [Hlt|Hge].
  - rewrite list_lookup_delete_lt in Hj by exact Hlt.
    specialize (Huniq j y Hj HP). lia.
  - rewrite list_lookup_delete_ge in Hj by lia.
    specialize (Huniq (S j) y Hj HP). lia.
Qed.

(** ** Requests one after the other

    When [VERCEL] is set a read finds the shipped files, whatever the
    request before it wrote; when it is not set a read finds what was
    written. *)

Lemma initializeDatabase_reseeds (d : Deployment) (disk disk' : Store) :
  VERCEL d = true →
  initializeDatabase d disk' = initializeDatabase d disk.
Proof. unfold initializeDatabase. intros ->. reflexivity. Qed.

Lemma initializeDatabase_in_place (d : Deployment) (disk : Store) :
  VERCEL d = false → initializeDatabase d disk = disk.
Proof. unfold initializeDatabase. intros ->. reflexivity. Qed.

(** The routes of a deployment without the variable are the routes on the
    files themselves. *)
Ltac in_place H :=
  unfold Deployed.post_invoice, Deployed.get_invoice, Deployed.delete_invoice,
    Deployed.put_invoice_status, Deployed.invoices_stats_overview,
    Deployed.post_client, Deployed.get_client, Deployed.delete_client,
    Deployed.get_project, Deployed.post_project, Deployed.delete_project,
    Deployed.post_register, Deployed.post_login, initializeDatabase,
    initializeUsers in *;
  rewrite ?H in *; cbv iota in *.

Lemma post_project_in_place (d : Deployment) (e : Env) (body : Project.t)
    (disk : Store) :
  VERCEL d = false →
  Deployed.post_project d e body disk = post_project e body disk.
Proof.
  intros H. unfold Deployed.post_project, post_project.
  rewrite (initializeDatabase_in_place d disk H).
  destruct (Project.title body) as [title|]; [|reflexivity].
  destruct (Project.clientId body) as [clientId|]; [|reflexivity].
  destruct (negb (truthy title) || negb (truthy clientId)); [reflexivity|].
  destruct (clientDb.findById clientId disk); [|reflexivity].
  unfold projectDb.create.
  rewrite (initializeDatabase_in_place d _ H). reflexivity.
Qed.

Lemma delete_project_in_place (d : Deployment) (id : string) (disk : Store) :
  VERCEL d = false →
  Deployed.delete_project d id disk = delete_project id disk.
Proof.
  intros H. unfold Deployed.delete_project, delete_project.
  rewrite (initializeDatabase_in_place d disk H).
  destruct (projectDb2.findById id disk); [|reflexivity].
  destruct (projectDb2.delete id disk) as [b st1].
  rewrite (initializeDatabase_in_place d _ H). reflexivity.
Qed.

(** X7. When [VERCEL] is not set, deleting a client does not cascade: the
    client is taken out of the clients, the projects and the invoices of
    the store stay, and when the ids of the clients are distinct an
    invoice of the deleted client is then read back, unchanged, under the
    client name [Unknown Client]. *)
Theorem delete_client_orphans (d : Deployment) (id k : string)
    (disk : Store) (c : Client.t) (inv : Invoice.t) :
  VERCEL d = false →
  clientIdsUnique disk →
  c ∈ clients disk → Client.id c = Some id →
  invoiceDb.findById k disk = Some inv →
  Invoice.clientId inv = Some id →
  ∃ i disk' v,
    clients disk !! i = Some c
    ∧ Deployed.delete_client d id disk
      = (mkResponse 200 "Client deleted successfully" None, disk')
    ∧ clients disk' = base.delete i (clients disk)
    ∧ projects disk' = projects disk
    ∧ invoices disk' = invoices disk
    ∧ Deployed.get_invoice d k disk' = mkResponse 200 "" (Some v)
    ∧ record v = inv
    ∧ clientName v = Some "Unknown Client".
Proof.
  intros Hlocal Hids Hc Hcid Hinv Hclient. in_place Hlocal.
  unfold delete_client, clientDb.getAll.
  destruct (list_find_elem_of (λ c, Client.id c = Some id) (clients disk) c
              Hc Hcid) as [[i c'] Hfind].
  rewrite Hfind. apply list_find_Some in Hfind as (Hi & Hid' & _).
  assert (Huniq : ∀ j y, clients disk !! j = Some y → Client.id y = Some id →
                         j = i).
  { intros j y Hj Hy. unfold clientIdsUnique in Hids.
    eapply (NoDup_lookup _ j i (Some id) Hids);
      rewrite list_lookup_fmap; [rewrite Hj|rewrite Hi]; cbn; congruence. }
  assert (Hsame : c' = c).
  { apply list_elem_of_lookup in Hc as [j Hj].
    rewrite (Huniq j c Hj Hcid) in Hj. congruence. }
  subst c'. exists i. do 2 eexists. split; [exact Hi|].
  split; [reflexivity|].
  cbn [clientDb.writeAll clients projects invoices].
  split; [reflexivity|]. split; [reflexivity|]. split; [reflexivity|].
  unfold get_invoice, invoiceDb.findById in *.
  cbn [clientDb.writeAll invoices].
  rewrite Hinv. cbv beta iota. unfold findClient.
  cbn [clientDb.writeAll clients]. rewrite Hclient.
  rewrite list_find_delete_unique by exact Huniq.
  cbn. repeat split; reflexivity.
Qed.

(** The invoice of the scenario after its client is deleted. *)
Lemma delete_client_orphans_witness :
  ∃ disk' v,
    Deployed.delete_client inPlace "c1" (Sample.storeWith "sent")
    = (mkResponse 200 "Client deleted successfully" None, disk')
    ∧ clients disk' = []
    ∧ Deployed.get_invoice inPlace "i1" disk' = mkResponse 200 "" (Some v)
    ∧ clientName v = Some "Unknown Client".
Proof.
  destruct (delete_client_orphans inPlace "c1" "i1" (Sample.storeWith "sent")
              Sample.acme (Sample.invoice "sent") eq_refl
              (NoDup_singleton _) (list_elem_of_here _ _) eq_refl eq_refl
              eq_refl)
    as (i & disk' & v & Hi & Hrun & Hst & _ & _ & Hget & _ & Hname).
  exists disk', v. split; [exact Hrun|]. split; [|auto].
  rewrite Hst. destruct i as [|i]; [reflexivity | discriminate Hi].
Defined.

(** ** Invoices: creation, reading and deletion together *)

Lemma list_find_snoc {A} (P : A → Prop) `{∀ x, Decision (P x)}
    (l : list A) (x : A) :
  (∀ y, y ∈ l → ¬ P y) → P x →
  list_find P (l ++ [x]) = Some (length l, x).
Proof.
  intros Hfresh Hx. apply list_find_Some. split; [|split; [exact Hx|]].
  - rewrite lookup_app_r by lia. rewrite Nat.sub_diag. reflexivity.
  - intros j y Hj Hlt. rewrite lookup_app_l in Hj by exact Hlt.
    apply Hfresh. eapply list_elem_of_lookup_2, Hj.
Qed.

(** The id and the number of a created invoice. *)
Lemma post_invoice_created_id (e : Env) (body : Invoice.Body) (st : Store)
    (clientId : string) (client : Client.t)
    (items : list Invoice.ItemInput) :
  Invoice.b_clientId body = Some clientId →
  clientId ≠ "" →
  clientDb.findById clientId st = Some client →
  Invoice.b_items body = Some items →
  items ≠ [] →
  ∃ inv,
    post_invoice e body st
    = (mkResponse 201 "Invoice created successfully" (Some inv),
       invoiceDb.writeAll (invoices st ++ [inv]) st)
    ∧ Invoice.id inv = Some (generateId e)
    ∧ Invoice.clientId inv = Some clientId
    ∧ Invoice.projectId inv
      = match Invoice.b_projectId body with
        | Some p => if truthy p then Some p else None
        | None => None
        end
    ∧ Invoice.status inv = Some "draft".
Proof.
  intros Hcid Hne Hfind Hitems Hnil.
  unfold post_invoice. rewrite Hcid, Hitems.
  apply truthy_string_true in Hne. rewrite Hne.
  destruct items as [|item items]; [congruence|].
  cbn [negb orb length Nat.eqb]. rewrite Hfind.
  unfold invoiceDb.create. cbn [Invoice.id].
  eexists. split; [reflexivity|]. repeat split; reflexivity.
Qed.

Lemma invoice_find_fresh (k : string) (st : Store) :
  (∀ i, i ∈ invoices st → Invoice.id i ≠ Some k) →
  invoiceDb.findById k st = None.
Proof.
  intros Hfresh. unfold invoiceDb.findById.
  replace (list_find (λ i, Invoice.id i = Some k) (invoices st))
    with (@None (nat * Invoice.t)); [reflexivity|].
  symmetry. apply list_find_None, Forall_forall. exact Hfresh.
Qed.

(** X8. When [VERCEL] is not set, an invoice that was just created is
    read back by its id: when no stored invoice has the generated id,
    [GET /api/invoices/:id] on this id answers the created invoice, under
    the name of the client it was created for.  When [VERCEL] is set the
    read finds the shipped files again and answers 404. *)
Theorem post_then_get_invoice (d : Deployment) (e : Env)
    (body : Invoice.Body) (disk : Store) (clientId : string)
    (client : Client.t) (items : list Invoice.ItemInput) :
  Invoice.b_clientId body = Some clientId →
  clientId ≠ "" →
  clientDb.findById clientId (initializeDatabase d disk) = Some client →
  Invoice.b_items body = Some items →
  items ≠ [] →
  (∀ i, i ∈ invoices (initializeDatabase d disk) →
        Invoice.id i ≠ Some (generateId e)) →
  ∃ inv disk',
    Deployed.post_invoice d e body disk
    = (mkResponse 201 "Invoice created successfully" (Some inv), disk')
    ∧ invoices disk' = invoices (initializeDatabase d disk) ++ [inv]
    ∧ (VERCEL d = false →
       ∃ v,
         Deployed.get_invoice d (generateId e) disk'
         = mkResponse 200 "" (Some v)
         ∧ record v = inv
         ∧ clientName v = Client.name client
         ∧ clientEmail v = Client.email client)
    ∧ (VERCEL d = true →
       Deployed.get_invoice d (generateId e) disk'
       = mkResponse 404 "Invoice not found" None).
Proof.
  intros Hcid Hne Hfind Hitems Hnil Hfresh.
  set (st := initializeDatabase d disk) in *.
  destruct (post_invoice_created_id e body st clientId client items)
    as (inv & Hrun & Hid & Hclient & _); try assumption.
  exists inv. eexists. unfold Deployed.post_invoice. fold st.
  split; [exact Hrun|]. cbn [invoiceDb.writeAll invoices].
  split; [reflexivity|]. split.
  - intros Hlocal. unfold Deployed.get_invoice.
    rewrite (initializeDatabase_in_place d _ Hlocal).
    unfold get_invoice, invoiceDb.findById.
    cbn [invoiceDb.writeAll invoices].
    rewrite (list_find_snoc _ (invoices st) inv Hfresh Hid).
    cbn [fmap option_fmap option_map snd]. unfold findClient.
    cbn [invoiceDb.writeAll clients]. rewrite Hclient.
    unfold clientDb.findById in Hfind. rewrite Hfind.
    eexists. cbn. repeat split; reflexivity.
  - intros Hreseed. unfold Deployed.get_invoice.
    rewrite (initializeDatabase_reseeds d disk _ Hreseed). fold st.
    unfold get_invoice. rewrite (invoice_find_fresh _ st Hfresh).
    reflexivity.
Qed.

(** The scenario, created and read back in place; on the serverless
    deployment the invoice is created and not found. *)
Lemma post_then_get_invoice_witness :
  (∃ inv disk' v,
     Deployed.post_invoice inPlace Sample.env Sample.invoiceBody Sample.store
     = (mkResponse 201 "Invoice created successfully" (Some inv), disk')
     ∧ invoices disk' = [inv]
     ∧ Deployed.get_invoice inPlace (generateId Sample.env) disk'
       = mkResponse 200 "" (Some v)
     ∧ clientName v = Some "Acme")
  ∧ ∃ inv disk',
      Deployed.post_invoice serverless Sample.env Sample.invoiceBody
        (mkStore [] [] [])
      = (mkResponse 201 "Invoice created successfully" (Some inv), disk')
      ∧ Deployed.get_invoice serverless (generateId Sample.env) disk'
        = mkResponse 404 "Invoice not found" None.
Proof.
  split.
  - destruct (post_then_get_invoice inPlace Sample.env Sample.invoiceBody
                Sample.store "c1" Sample.acme [Sample.work]
                eq_refl ltac:(discriminate) eq_refl eq_refl
                ltac:(discriminate))
      as (inv & disk' & Hrun & Hst & Hlocal & _).
    + intros i Hi. apply elem_of_nil in Hi. contradiction.
    + destruct (Hlocal eq_refl) as (v & Hget & _ & Hname & _).
      exists inv, disk', v. auto.
  - destruct (post_then_get_invoice serverless Sample.env Sample.invoiceBody
                (mkStore [] [] []) "c1" Sample.acme [Sample.work]
                eq_refl ltac:(discriminate) eq_refl eq_refl
                ltac:(discriminate))
      as (inv & disk' & Hrun & _ & _ & Hreseed).
    + intros i Hi. apply elem_of_nil in Hi. contradiction.
    + exists inv, disk'. split; [exact Hrun | exact (Hreseed eq_refl)].
Defined.

(** X9. When [VERCEL] is not set, creating an invoice and deleting it at
    once gives back the store as it was, when no stored invoice has the
    generated id: a new invoice is a draft, so the deletion is accepted. *)
Theorem post_then_delete_invoice (d : Deployment) (e : Env)
    (body : Invoice.Body) (disk : Store) (clientId : string)
    (client : Client.t) (items : list Invoice.ItemInput) :
  VERCEL d = false →
  Invoice.b_clientId body = Some clientId →
  clientId ≠ "" →
  clientDb.findById clientId disk = Some client →
  Invoice.b_items body = Some items →
  items ≠ [] →
  (∀ i, i ∈ invoices disk → Invoice.id i ≠ Some (generateId e)) →
  ∃ inv disk',
    Deployed.post_invoice d e body disk
    = (mkResponse 201 "Invoice created successfully" (Some inv), disk')
    ∧ invoices disk' = invoices disk ++ [inv]
    ∧ Deployed.delete_invoice d (generateId e) disk'
      = (mkResponse 200 "Invoice deleted successfully" None, disk).
Proof.
  intros Hlocal Hcid Hne Hfind Hitems Hnil Hfresh. in_place Hlocal.
  destruct (post_invoice_created_id e body disk clientId client items)
    as (inv & Hrun & Hid & _ & _ & Hdraft); try assumption.
  exists inv. eexists. split; [exact Hrun|].
  cbn [invoiceDb.writeAll invoices]. split; [reflexivity|].
  unfold delete_invoice, invoiceDb.findById, invoiceDb.delete,
    invoiceDb.findIndex.
  cbn [invoiceDb.writeAll invoices].
  rewrite (list_find_snoc _ (invoices disk) inv Hfresh Hid).
  cbn [fmap option_fmap option_map snd fst]. rewrite Hdraft.
  rewrite bool_decide_eq_false_2 by (intros H; exact (H eq_refl)).
  cbn [invoiceDb.writeAll clients projects invoices].
  replace (base.delete (length (invoices disk)) (invoices disk ++ [inv]))
    with (invoices disk).
  - destruct disk; reflexivity.
  - rewrite delete_middle. symmetry. apply app_nil_r.
Qed.

(** The scenario, created and deleted. *)
Lemma post_then_delete_invoice_witness :
  ∃ inv disk',
    Deployed.post_invoice inPlace Sample.env Sample.invoiceBody Sample.store
    = (mkResponse 201 "Invoice created successfully" (Some inv), disk')
    ∧ invoices disk' = [inv]
    ∧ Deployed.delete_invoice inPlace (generateId Sample.env) disk'
      = (mkResponse 200 "Invoice deleted successfully" None, Sample.store).
Proof.
  apply (post_then_delete_invoice inPlace Sample.env Sample.invoiceBody
           Sample.store "c1" Sample.acme [Sample.work]);
    try reflexivity; try discriminate.
  intros i Hi. apply elem_of_nil in Hi. contradiction.
Defined.

(** ** Invoice numbers *)

Lemma post_invoice_201_number (e : Env) (body : Invoice.Body)
    (st st' : Store) (r : Response Invoice.t) :
  post_invoice e body st = (r, st') →
  statusCode r = 201%nat →
  ∃ inv,
    payload r = Some inv
    ∧ invoices st' = invoices st ++ [inv]
    ∧ Invoice.invoiceNumber inv
      = Some (invoiceNumberAt (length (invoices st))).
Proof.
  unfold post_invoice.
  destruct (Invoice.b_clientId body) as [clientId|];
    [|intros [= <- <-]; discriminate].
  destruct (Invoice.b_items body) as [items|];
    [|intros [= <- <-]; discriminate].
  destruct (negb (truthy clientId) || (length items =? 0)%nat);
    [intros [= <- <-]; discriminate|].
  destruct (clientDb.findById clientId st) as [client|];
    [|intros [= <- <-]; discriminate].
  unfold invoiceDb.create. cbn [Invoice.id].
  intros [= <- <-] _. eexists. split; [reflexivity|].
  split; reflexivity.
Qed.

Lemma delete_invoice_200_inv (k : string) (st st' : Store)
    (r : Response Invoice.t) :
  delete_invoice k st = (r, st') →
  statusCode r = 200%nat →
  ∃ i inv,
    invoices st !! i = Some inv
    ∧ Invoice.id inv = Some k
    ∧ invoices st' = base.delete i (invoices st).
Proof.
  unfold delete_invoice.
  destruct (invoiceDb.findById k st) as [inv|] eqn:Hfind;
    [|intros [= <- <-]; discriminate].
  destruct (invoice_find_inv k st inv Hfind) as (i & _ & Hi & Hid & Hidx).
  case_bool_decide; [intros [= <- <-]; discriminate|].
  unfold invoiceDb.delete. rewrite Hidx. intros [= <- <-] _.
  exists i, inv. auto.
Qed.

(** X10. Invoice numbers are counted, not remembered: when [VERCEL] is
    not set, an invoice created after a deletion gets the number of the
    invoice created just before that deletion, and unless that one was
    the invoice deleted the store then holds both, at two places, under
    the same number. *)
Theorem invoice_number_reused (d : Deployment) (e1 e2 : Env)
    (body1 body2 : Invoice.Body) (k : string) (st st1 st2 st3 : Store)
    (r1 r2 r3 : Response Invoice.t) :
  VERCEL d = false →
  Deployed.post_invoice d e1 body1 st = (r1, st1) →
  statusCode r1 = 201%nat →
  Deployed.delete_invoice d k st1 = (r2, st2) → statusCode r2 = 200%nat →
  Deployed.post_invoice d e2 body2 st2 = (r3, st3) →
  statusCode r3 = 201%nat →
  ∃ inv1 inv3,
    payload r1 = Some inv1
    ∧ payload r3 = Some inv3
    ∧ Invoice.invoiceNumber inv3 = Invoice.invoiceNumber inv1
    ∧ (Invoice.id inv1 ≠ Some k →
       ∃ i j, i ≠ j ∧ invoices st3 !! i = Some inv1
              ∧ invoices st3 !! j = Some inv3).
Proof.
  intros Hlocal Hp1 Hc1 Hd Hc2 Hp3 Hc3. in_place Hlocal.
  destruct (post_invoice_201_number _ _ _ _ _ Hp1 Hc1)
    as (inv1 & Hr1 & Hst1 & Hn1).
  destruct (delete_invoice_200_inv _ _ _ _ Hd Hc2)
    as (i & x & Hi & Hx & Hst2).
  destruct (post_invoice_201_number _ _ _ _ _ Hp3 Hc3)
    as (inv3 & Hr3 & Hst3 & Hn3).
  assert (Hlt : (i < length (invoices st ++ [inv1]))%nat).
  { rewrite <- Hst1. eapply lookup_lt_Some, Hi. }
  assert (Hlen : length (invoices st2) = length (invoices st)).
  { rewrite Hst2, Hst1, length_delete by (rewrite <- Hst1, Hi; eauto).
    rewrite length_app. cbn [length]. lia. }
  exists inv1, inv3. split; [exact Hr1|]. split; [exact Hr3|].
  split; [rewrite Hn3, Hn1, Hlen; reflexivity|].
  intros Hother.
  assert (Hi' : (i < length (invoices st))%nat).
  { rewrite length_app in Hlt. cbn [length] in Hlt.
    destruct (decide (i = length (invoices st))) as [->|]; [|lia].
    exfalso. rewrite Hst1, lookup_app_r, Nat.sub_diag in Hi by lia.
    injection Hi as <-. exact (Hother Hx). }
  exists (length (invoices st) - 1)%nat, (length (invoices st)).
  split; [lia|]. rewrite Hst3, Hst2, Hst1. split.
  - rewrite lookup_app_l
      by (rewrite length_delete, length_app; [cbn [length]; lia|];
          rewrite <- Hst1, Hi; eauto).
    rewrite list_lookup_delete_ge by lia.
    rewrite lookup_app_r by lia.
    replace (S (length (invoices st) - 1) - length (invoices st))%nat
      with 0%nat by lia.
    reflexivity.
  - rewrite lookup_app_r
      by (rewrite length_delete, length_app; [cbn [length]; lia|];
          rewrite <- Hst1, Hi; eauto).
    rewrite length_delete, length_app
      by (rewrite <- Hst1, Hi; eauto).
    cbn [length].
    replace (length (invoices st) - (length (invoices st) + 1 - 1))%nat
      with 0%nat by lia.
    reflexivity.
Qed.

(** A second invoice is created, the first is deleted, a third is created:
    the third has the number of the second. *)
Lemma invoice_number_reused_witness :
  ∃ inv1 inv3,
    Invoice.invoiceNumber inv3 = Invoice.invoiceNumber inv1
    ∧ Invoice.invoiceNumber inv1 = Some "INV-0002"
    ∧ Invoice.id inv1 ≠ Invoice.id inv3.
Proof.
  pose (p1 := Deployed.post_invoice inPlace Sample.env Sample.invoiceBody
                (Sample.storeWith "draft")).
  pose (p2 := Deployed.delete_invoice inPlace "i1" p1.2).
  pose (p3 := Deployed.post_invoice inPlace More.env Sample.invoiceBody p2.2).
  destruct (invoice_number_reused inPlace Sample.env More.env
              Sample.invoiceBody Sample.invoiceBody "i1"
              (Sample.storeWith "draft") p1.2 p2.2 p3.2 p1.1 p2.1 p3.1)
    as (inv1 & inv3 & H1 & H3 & Hsame & _); try reflexivity.
  exists inv1, inv3. split; [exact Hsame|].
  injection H1 as <-. injection H3 as <-.
  split; [reflexivity | discriminate].
Defined.

(** ** Invoice statistics *)

Lemma filter_middle_length (f : Invoice.t → bool) (l1 l2 : list Invoice.t)
    (x : Invoice.t) :
  length (List.filter f (l1 ++ x :: l2))
  = (length (List.filter f l1) + (if f x then 1 else 0)
     + length (List.filter f l2))%nat.
Proof.
  rewrite List.filter_app. cbn [List.filter].
  destruct (f x); rewrite length_app; cbn [length]; lia.
Qed.

(** X11. When [VERCEL] is not set, marking a sent invoice as paid moves
    one invoice from the sent count to the paid count of [GET
    /api/invoices/stats/overview] and leaves the number of invoices and
    the number of drafts as they are. *)
Theorem mark_paid_moves_count (d : Deployment) (e e' : Env) (id : string)
    (disk : Store) (inv : Invoice.t) :
  VERCEL d = false →
  invoiceDb.findById id disk = Some inv →
  Invoice.status inv = Some "sent" →
  ∃ inv' disk',
    Deployed.put_invoice_status d e id (Some "paid") disk
    = (mkResponse 200 "Invoice status updated successfully" (Some inv'),
       disk')
    ∧ let before := Deployed.invoices_stats_overview d e' disk in
      let after := Deployed.invoices_stats_overview d e' disk' in
      io_paid after = S (io_paid before)
      ∧ io_sent before = S (io_sent after)
      ∧ io_draft after = io_draft before
      ∧ io_total after = io_total before.
Proof.
  intros Hlocal Hfind Hsent. in_place Hlocal.
  destruct (put_invoice_status_run e id "paid" disk inv Hfind)
    as (i & _ & Hi & Hrun).
  { apply (bool_decide_eq_true_1 ("paid" ∈ statuses)). reflexivity. }
  cbv zeta in Hrun. do 2 eexists. split; [exact Hrun|].
  unfold invoices_stats_overview, invoiceDb.getAll.
  cbn [invoiceDb.writeAll invoices io_paid io_sent io_draft io_total].
  rewrite insert_take_drop by (eapply lookup_lt_Some, Hi).
  rewrite length_app. cbn [length].
  pose proof (take_drop_middle (invoices disk) i inv Hi) as Hsplit.
  set (l1 := take i (invoices disk)) in *.
  set (l2 := drop (S i) (invoices disk)) in *.
  rewrite <- Hsplit.
  rewrite !filter_middle_length, length_app.
  unfold hasStatus. cbn [Invoice.status length]. rewrite Hsent.
  change (bool_decide (Some "sent" = Some "paid")) with false.
  change (bool_decide (Some "paid" = Some "paid")) with true.
  change (bool_decide (Some "sent" = Some "sent")) with true.
  change (bool_decide (Some "paid" = Some "sent")) with false.
  change (bool_decide (Some "sent" = Some "draft")) with false.
  change (bool_decide (Some "paid" = Some "draft")) with false.
  repeat split; lia.
Qed.

(** The invoice of the scenario is sent, then paid. *)
Lemma mark_paid_moves_count_witness :
  ∃ disk',
    (Deployed.put_invoice_status inPlace Sample.env "i1" (Some "paid")
       (Sample.storeWith "sent")).2 = disk'
    ∧ io_paid (Deployed.invoices_stats_overview inPlace More.env disk')
      = 1%nat
    ∧ io_sent (Deployed.invoices_stats_overview inPlace More.env disk')
      = 0%nat.
Proof.
  destruct (mark_paid_moves_count inPlace Sample.env More.env "i1"
              (Sample.storeWith "sent") (Sample.invoice "sent")
              eq_refl eq_refl eq_refl)
    as (inv' & disk' & Hrun & Hpaid & Hsent & _).
  exists disk'. rewrite Hrun. split; [reflexivity|].
  split; [exact Hpaid|]. apply Nat.succ_inj. symmetry. exact Hsent.
Defined.

Lemma filter_cons_length {A} (f : A → bool) (x : A) (l : list A) :
  length (List.filter f (x :: l))
  = (Nat.b2n (f x) + length (List.filter f l))%nat.
Proof. cbn [List.filter]. destruct (f x); reflexivity. Qed.

Lemma invoice_status_flags (e : Env) (i : Invoice.t) :
  (Nat.b2n (hasStatus "draft" i) + Nat.b2n (hasStatus "sent" i)
   + Nat.b2n (hasStatus "paid" i) ≤ 1)%nat
  ∧ (Nat.b2n (hasStatus "paid" i) + Nat.b2n (isOverdueInvoice e i) ≤ 1)%nat.
Proof.
  split.
  - unfold hasStatus. repeat case_bool_decide; cbn [Nat.b2n]; try lia;
      congruence.
  - unfold isOverdueInvoice. destruct (hasStatus "paid" i); cbn [negb andb].
    + cbn [Nat.b2n]. lia.
    + destruct (Invoice.dueDate i) as [due|];
        [destruct (due <? now e)%Z|]; cbn [Nat.b2n]; lia.
Qed.

(** X12. The counts of the invoice overview never exceed the number of
    invoices: the drafts, the sent and the paid invoices together are at
    most all of them, and so are the paid and the overdue invoices
    together, a paid invoice never being counted overdue. *)
Theorem invoices_overview_counts (e : Env) (st : Store) :
  let o := invoices_stats_overview e st in
  (io_draft o + io_sent o + io_paid o ≤ io_total o)%nat
  ∧ (io_paid o + io_overdue o ≤ io_total o)%nat.
Proof.
  unfold invoices_stats_overview, invoiceDb.getAll.
  cbn [io_draft io_sent io_paid io_overdue io_total].
  induction (invoices st) as [|i l [IH1 IH2]]; [split; reflexivity|].
  rewrite !filter_cons_length. cbn [length].
  destruct (invoice_status_flags e i). split; lia.
Qed.

(** ** Editing an invoice, continued *)




(** ** Projects and the project counter of a client *)

Lemma list_find_insert_same {A} (P : A → Prop) `{∀ x, Decision (P x)}
    (l : list A) (i : nat) (x y : A) :
  list_find P l = Some (i, x) → P y →
  list_find P (<[i := y]> l) = Some (i, y).
Proof.
  intros Hfind Hy. apply list_find_Some in Hfind as (Hi & _ & Hbefore).
  apply list_find_Some. split; [|split; [exact Hy|]].
  - apply list_lookup_insert_eq. eapply lookup_lt_Some, Hi.
  - intros j z Hj Hlt. rewrite list_lookup_insert_ne in Hj by lia.
    eapply Hbefore; eassumption.
Qed.

(** What [POST /api/projects] stores when it accepts the request. *)
Lemma post_project_run (e : Env) (body : Project.t) (st : Store)
    (title clientId : string) (i : nat) (c : Client.t) :
  Project.title body = Some title → title ≠ "" →
  Project.clientId body = Some clientId → clientId ≠ "" →
  list_find (λ c, Client.id c = Some clientId) (clients st) = Some (i, c) →
  ∃ project,
    post_project e body st
    = (mkResponse 201 "Project created successfully" (Some project),
       mkStore (<[i := incrementTotalProjects c]> (clients st))
               (projects st ++ [project]) (invoices st))
    ∧ Project.id project = Some (generateId e)
    ∧ Project.clientId project = Some clientId.
Proof.
  intros Htitle Ht Hcid Hc Hfind.
  apply truthy_string_true in Ht, Hc.
  unfold post_project. rewrite Htitle, Hcid, Ht, Hc. cbn [negb orb].
  unfold clientDb.findById. rewrite Hfind.
  cbn [fmap option_fmap option_map snd].
  unfold projectDb.create, clientDb.getAll.
  cbn [Project.id projectDb.writeAll clients]. rewrite Hfind.
  eexists. split; [reflexivity|]. split; reflexivity.
Qed.

(** What [DELETE /api/projects/:id] leaves. *)
Lemma delete_project_run (k : string) (st : Store) (j : nat)
    (p : Project.t) :
  list_find (λ p, Project.id p = Some k) (projects st) = Some (j, p) →
  delete_project k st
  = (mkResponse 200 "Project deleted successfully" None,
     match list_find (λ c, Client.id c = Project.clientId p) (clients st)
     with
     | Some (i, c) =>
       mkStore (<[i := decrementTotalProjects c]> (clients st))
               (base.delete j (projects st)) (invoices st)
     | None =>
       mkStore (clients st) (base.delete j (projects st)) (invoices st)
     end).
Proof.
  intros Hfind. unfold delete_project, projectDb2.findById, projectDb2.delete.
  rewrite Hfind. cbn [fmap option_fmap option_map snd].
  unfold clientDb.getAll. cbn [projectDb.writeAll clients].
  destruct (list_find _ (clients st)) as [[i c]|]; reflexivity.
Qed.

Lemma decrement_increment (c : Client.t) :
  0 <= js_or (Client.totalProjects c) 0 →
  ∃ tp,
    Client.totalProjects (decrementTotalProjects (incrementTotalProjects c))
    = Some tp
    ∧ tp == js_or (Client.totalProjects c) 0.
Proof.
  intros Hpos. eexists. split; [reflexivity|].
  cbn [incrementTotalProjects Client.totalProjects].
  set (tp := js_or (Client.totalProjects c) 0) in *.
  assert (Htruthy : truthy (tp + 1) = true).
  { unfold truthy, truthy_number. apply negb_true_iff.
    destruct (Qeq_bool (tp + 1) 0) eqn:E; [|reflexivity].
    apply Qeq_bool_iff in E. lra. }
  unfold js_or at 1. rewrite Htruthy. unfold Math_max.
  destruct (Qle_bool 0 (tp + 1 - 1)) eqn:E.
  - ring.
  - assert (Hle : 0 <= tp + 1 - 1) by lra.
    apply Qle_bool_iff in Hle. congruence.
Qed.

(** X15. When [VERCEL] is not set, creating a project and deleting it at
    once gives back the projects of the store and the project counter of
    its client, when no stored project has the generated id and the
    counter was not negative: the counter goes up by one and comes back, a
    missing counter coming back as 0; no other field of the client, no
    other client and no invoice changes. *)
Theorem post_then_delete_project (d : Deployment) (e : Env)
    (body : Project.t) (disk : Store) (title clientId : string) (i : nat)
    (c : Client.t) :
  VERCEL d = false →
  Project.title body = Some title → title ≠ "" →
  Project.clientId body = Some clientId → clientId ≠ "" →
  list_find (λ c, Client.id c = Some clientId) (clients disk) = Some (i, c) →
  (∀ p, p ∈ projects disk → Project.id p ≠ Some (generateId e)) →
  0 <= js_or (Client.totalProjects c) 0 →
  ∃ project disk1 disk2 c2 tp,
    Deployed.post_project d e body disk
    = (mkResponse 201 "Project created successfully" (Some project), disk1)
    ∧ projects disk1 = projects disk ++ [project]
    ∧ Deployed.delete_project d (generateId e) disk1
      = (mkResponse 200 "Project deleted successfully" None, disk2)
    ∧ projects disk2 = projects disk
    ∧ invoices disk2 = invoices disk
    ∧ clients disk2 = <[i := c2]> (clients disk)
    ∧ Client.totalProjects c2 = Some tp
    ∧ tp == js_or (Client.totalProjects c) 0
    ∧ Client.id c2 = Client.id c
    ∧ Client.name c2 = Client.name c
    ∧ Client.email c2 = Client.email c
    ∧ Client.company c2 = Client.company c
    ∧ Client.whatsapp c2 = Client.whatsapp c
    ∧ Client.phone c2 = Client.phone c
    ∧ Client.address c2 = Client.address c
    ∧ Client.notes c2 = Client.notes c
    ∧ Client.status c2 = Client.status c
    ∧ Client.totalRevenue c2 = Client.totalRevenue c
    ∧ Client.createdAt c2 = Client.createdAt c
    ∧ Client.updatedAt c2 = Client.updatedAt c.
Proof.
  intros Hlocal Htitle Ht Hcid Hc Hfind Hfresh Hpos.
  destruct (post_project_run e body disk title clientId i c)
    as (project & Hrun & Hid & Hpc); try assumption.
  rewrite (post_project_in_place d e body disk Hlocal), Hrun.
  destruct (decrement_increment c Hpos) as (tp & Htp & Heq).
  exists project. do 2 eexists.
  exists (decrementTotalProjects (incrementTotalProjects c)), tp.
  split; [reflexivity|].
  cbn [projects]. split; [reflexivity|].
  rewrite (delete_project_in_place d _ _ Hlocal).
  rewrite (delete_project_run (generateId e) _ (length (projects disk))
             project)
    by (cbn [projects]; apply list_find_snoc; assumption).
  cbn [clients projects invoices]. rewrite Hpc.
  apply list_find_Some in Hfind as Hfacts. destruct Hfacts as (Hi & Hcid' & _).
  rewrite (list_find_insert_same _ (clients disk) i c
             (incrementTotalProjects c) Hfind Hcid').
  split; [reflexivity|]. cbn [projects invoices clients].
  split; [rewrite delete_middle; apply app_nil_r|].
  split; [reflexivity|]. split; [apply list_insert_insert_eq|].
  split; [exact Htp|]. split; [exact Heq|]. repeat split; reflexivity.
Qed.

(** A project for Acme, created and deleted. *)
Lemma post_then_delete_project_witness :
  ∃ project disk1 disk2,
    Deployed.post_project inPlace Sample.env (Sample.projectBody "c1")
      Sample.store
    = (mkResponse 201 "Project created successfully" (Some project), disk1)
    ∧ projects disk1 = [project]
    ∧ Deployed.delete_project inPlace (generateId Sample.env) disk1
      = (mkResponse 200 "Project deleted successfully" None, disk2)
    ∧ projects disk2 = []
    ∧ length (clients disk2) = 1%nat.
Proof.
  destruct (post_then_delete_project inPlace Sample.env
              (Sample.projectBody "c1") Sample.store "Site" "c1" 0
              Sample.acme)
    as (project & disk1 & disk2 & c2 & tp & Hpost & Hp1 & Hrun & Hp & _ & Hc
        & _);
    try reflexivity; try discriminate.
  - intros p Hp. apply elem_of_nil in Hp. contradiction.
  - exists project, disk1, disk2. split; [exact Hpost|].
    split; [exact Hp1|]. split; [exact Hrun|]. split; [exact Hp|].
    rewrite Hc. reflexivity.
Defined.

(** X16. Deleting a project takes one off the counter of its client
    without going below 0: a counter of at least 1 loses one, and a
    counter that is 0 or missing is stored as 0; no other field of the
    client, no other client and no invoice changes.  When [VERCEL] is not set the project is taken out;
    when it is set the read of the clients brings the shipped projects
    back, and the project stays while the counter goes down. *)
Theorem delete_project_counter (d : Deployment) (k : string) (disk : Store)
    (j i : nat) (p : Project.t) (c : Client.t) :
  let st := initializeDatabase d disk in
  list_find (λ p, Project.id p = Some k) (projects st) = Some (j, p) →
  list_find (λ c, Client.id c = Project.clientId p) (clients st)
  = Some (i, c) →
  ∃ disk' c' tp,
    Deployed.delete_project d k disk
    = (mkResponse 200 "Project deleted successfully" None, disk')
    ∧ (VERCEL d = false → projects disk' = base.delete j (projects disk))
    ∧ (VERCEL d = true → projects disk' = projects (source d))
    ∧ invoices disk' = invoices st
    ∧ clients disk' = <[i := c']> (clients st)
    ∧ Client.totalProjects c' = Some tp
    ∧ 0 <= tp
    ∧ (∀ n, Client.totalProjects c = Some n → 1 <= n → tp == n - 1)
    ∧ (∀ n, Client.totalProjects c = Some n → n <= 1 → tp == 0)
    ∧ (Client.totalProjects c = None → tp == 0)
    ∧ Client.id c' = Client.id c
    ∧ Client.name c' = Client.name c
    ∧ Client.email c' = Client.email c
    ∧ Client.company c' = Client.company c
    ∧ Client.whatsapp c' = Client.whatsapp c
    ∧ Client.phone c' = Client.phone c
    ∧ Client.address c' = Client.address c
    ∧ Client.notes c' = Client.notes c
    ∧ Client.status c' = Client.status c
    ∧ Client.totalRevenue c' = Client.totalRevenue c
    ∧ Client.createdAt c' = Client.createdAt c
    ∧ Client.updatedAt c' = Client.updatedAt c.
Proof.
  intros st Hp Hc.
  assert (Hrun : ∃ disk',
             Deployed.delete_project d k disk
             = (mkResponse 200 "Project deleted successfully" None, disk')
             ∧ (VERCEL d = false →
                projects disk' = base.delete j (projects disk))
             ∧ (VERCEL d = true → projects disk' = projects (source d))
             ∧ invoices disk' = invoices st
             ∧ clients disk' = <[i := decrementTotalProjects c]> (clients st)).
  { unfold Deployed.delete_project, projectDb2.findById, projectDb2.delete.
    fold st. rewrite Hp. cbn [fmap option_fmap option_map snd].
    unfold clientDb.getAll. subst st. unfold initializeDatabase in *.
    destruct (VERCEL d); cbn [projectDb.writeAll clients];
      rewrite Hc; eexists; (split; [reflexivity|]);
      cbn [clientDb.writeAll projectDb.writeAll clients projects invoices];
      repeat split; intros; try reflexivity; discriminate. }
  destruct Hrun as (disk' & Hrun & Hlocal & Hreseed & Hinv & Hclients).
  exists disk', (decrementTotalProjects c). eexists.
  split; [exact Hrun|]. split; [exact Hlocal|]. split; [exact Hreseed|].
  split; [exact Hinv|]. split; [exact Hclients|].
  cbn [decrementTotalProjects Client.totalProjects].
  split; [reflexivity|].
  set (x := js_or (Client.totalProjects c) 1 - 1).
  assert (Hmax : 0 <= Math_max 0 x
                 ∧ (0 <= x → Math_max 0 x == x)
                 ∧ (x <= 0 → Math_max 0 x == 0)).
  { unfold Math_max. destruct (Qle_bool 0 x) eqn:E.
    - apply Qle_bool_iff in E. repeat split; intros; lra || reflexivity.
    - assert (¬ 0 <= x) by (rewrite <- Qle_bool_iff; congruence).
      repeat split; intros; lra || reflexivity. }
  destruct Hmax as (Hnn & Hup & Hdown).
  split; [exact Hnn|]. subst x. unfold js_or in *.
  split; [|split; [|split; [|repeat split; reflexivity]]].
  - intros n Hn Hge. rewrite Hn in *.
    assert (Htruthy : truthy n = true).
    { unfold truthy, truthy_number. apply negb_true_iff.
      destruct (Qeq_bool n 0) eqn:E; [|reflexivity].
      apply Qeq_bool_iff in E. lra. }
    rewrite Htruthy in *. apply Hup. lra.
  - intros n Hn Hle. rewrite Hn in *.
    destruct (truthy n); apply Hdown; lra.
  - intros Hn. rewrite Hn in *. apply Hdown. lra.
Qed.

(** A project of Acme is deleted while the counter of Acme is 0; on the
    serverless deployment that ships it, the project stays. *)
Lemma delete_project_counter_witness :
  (∃ disk' c',
     Deployed.delete_project inPlace "p1"
       (mkStore [Sample.acme] [Sample.project "pending" 1690000000000] [])
     = (mkResponse 200 "Project deleted successfully" None, disk')
     ∧ projects disk' = []
     ∧ clients disk' = [c']
     ∧ ∃ tp, Client.totalProjects c' = Some tp ∧ tp == 0)
  ∧ ∃ disk',
      Deployed.delete_project
        (mkDeployment true More.store []) "p1" (mkStore [] [] [])
      = (mkResponse 200 "Project deleted successfully" None, disk')
      ∧ projects disk' = [Sample.project "pending" 1690000000000].
Proof.
  split.
  - destruct (delete_project_counter inPlace "p1"
                (mkStore [Sample.acme]
                   [Sample.project "pending" 1690000000000] [])
                0 0 (Sample.project "pending" 1690000000000) Sample.acme
                eq_refl eq_refl)
      as (disk' & c' & tp & Hrun & Hlocal & _ & _ & Hc & Htp & _ & _ & Hzero
          & _).
    exists disk', c'. split; [exact Hrun|]. split; [exact (Hlocal eq_refl)|].
    split; [exact Hc|]. exists tp. split; [exact Htp|].
    apply (Hzero 0); [reflexivity | discriminate].
  - destruct (delete_project_counter (mkDeployment true More.store []) "p1"
                (mkStore [] [] []) 0 0
                (Sample.project "pending" 1690000000000) Sample.acme
                eq_refl eq_refl)
      as (disk' & c' & tp & Hrun & _ & Hreseed & _).
    exists disk'. split; [exact Hrun | exact (Hreseed eq_refl)].
Defined.

(** X17. Moving a project to another client through [PUT
    /api/projects/:id] stores the new client id on the project and
    leaves the clients of the store, and so the project counters of both
    clients, as they were; a client id that no stored client has is
    answered 400 and nothing changes. *)
Theorem put_project_moves_without_counting (e : Env) (id : string)
    (body : Project.t) (st : Store) (p : Project.t) (clientId : string) :
  projectDb2.findById id st = Some p →
  Project.clientId body = Some clientId → clientId ≠ "" →
  Some clientId ≠ Project.clientId p →
  (findClient (Some clientId) st = None →
   put_project e id body st = (mkResponse 400 "Client not found" None, st))
  ∧ (findClient (Some clientId) st ≠ None →
     ∃ p' st',
       put_project e id body st
       = (mkResponse 200 "Project updated successfully" (Some p'), st')
       ∧ Project.clientId p' = Some clientId
       ∧ Project.id p' = Project.id p
       ∧ clients st' = clients st
       ∧ invoices st' = invoices st
       ∧ length (projects st') = length (projects st)
       ∧ p' ∈ projects st').
Proof.
  intros Hfind Hcid Hne Hother.
  apply truthy_string_true in Hne.
  unfold put_project. rewrite Hfind, Hcid.
  cbn [truthy truthy_undefined]. rewrite Hne.
  rewrite bool_decide_eq_true_2 by exact Hother. cbn [andb].
  split.
  - intros Hnone. rewrite bool_decide_eq_true_2 by exact Hnone.
    reflexivity.
  - intros Hsome. rewrite bool_decide_eq_false_2 by exact Hsome.
    unfold projectDb2.findById in Hfind. unfold projectDb2.update.
    destruct (list_find _ (projects st)) as [[j q]|] eqn:Hlf;
      [|discriminate].
    cbn in Hfind. injection Hfind as ->.
    apply list_find_Some in Hlf as (Hj & Hid & _).
    do 2 eexists. split; [reflexivity|].
    cbn [projectDb.writeAll clients invoices projects].
    unfold ProjectSpread.spread, js_or_opt. cbn [Project.clientId Project.id].
    rewrite Hne. split; [reflexivity|]. split; [reflexivity|].
    split; [reflexivity|]. split; [reflexivity|].
    split; [apply length_insert|].
    eapply list_elem_of_lookup_2, list_lookup_insert_eq, lookup_lt_Some, Hj.
Qed.

(** The project of Acme is moved to Beta, and to a client that is not
    stored. *)
Lemma put_project_moves_without_counting_witness :
  put_project Sample.env "p1" (Sample.projectBody "c404") More.store
  = (mkResponse 400 "Client not found" None, More.store)
  ∧ ∃ p' st',
      put_project Sample.env "p1" (Sample.projectBody "c2") More.store
      = (mkResponse 200 "Project updated successfully" (Some p'), st')
      ∧ Project.clientId p' = Some "c2"
      ∧ clients st' = [Sample.acme; More.beta].
Proof.
  split.
  - pose proof (put_project_moves_without_counting Sample.env "p1"
                  (Sample.projectBody "c404") More.store
                  (Sample.project "pending" 1690000000000) "c404"
                  eq_refl eq_refl ltac:(discriminate) ltac:(discriminate))
      as [Hbad _].
    apply Hbad. reflexivity.
  - pose proof (put_project_moves_without_counting Sample.env "p1"
                  (Sample.projectBody "c2") More.store
                  (Sample.project "pending" 1690000000000) "c2"
                  eq_refl eq_refl ltac:(discriminate) ltac:(discriminate))
      as [_ Hok].
    destruct Hok as (p' & st' & Hrun & Hcid & _ & Hclients & _);
      [discriminate|].
    exists p', st'. split; [exact Hrun|]. split; [exact Hcid|].
    exact Hclients.
Defined.

(** ** Project statistics, continued *)

Lemma progress_sum_bounds (l : list Project.t) :
  (∀ p, p ∈ l → 0 <= js_or (Project.progress p) 0 <= 100) →
  0 <= foldr (λ p s, js_or (Project.progress p) 0 + s) 0 l
  <= 100 * inject_Z (Z.of_nat (length l)).
Proof.
  induction l as [|p l IH]; intros Hall.
  - cbn [foldr length]. change (inject_Z (Z.of_nat 0)) with 0. lra.
  - cbn [foldr length]. rewrite Nat2Z.inj_succ, <- Z.add_1_r, inject_Z_plus.
    change (inject_Z 1) with 1.
    destruct (Hall p) as [Hlo Hhi]; [apply list_elem_of_here|].
    destruct IH as [IHlo IHhi].
    { intros q Hq. apply Hall. apply list_elem_of_further, Hq. }
    split; lra.
Qed.

Lemma project_status_flags (p : Project.t) :
  (Nat.b2n (statusIn ["pending"; "in-progress"] p)
   + Nat.b2n (bool_decide (Project.status p = Some "completed")) ≤ 1)%nat.
Proof.
  unfold statusIn. destruct (Project.status p) as [s|]; cbn [Nat.b2n];
    [|case_bool_decide; cbn [Nat.b2n]; lia].
  repeat case_bool_decide; cbn [Nat.b2n]; try lia.
  all: simplify_eq.
  all: match goal with
       | H : "completed" ∈ _ |- _ =>
         rewrite !elem_of_cons, elem_of_nil in H;
         destruct H as [H|[H|[]]]; discriminate H
       end.
Qed.

(** X18. The project overview stays within bounds: the active and the
    completed projects together are at most all the projects, whatever
    the store holds; when the progress of every project is between 0 and
    100 (a missing one counting 0) so is the average it reports; and the
    average is 0 for an empty store. *)
Theorem projects_overview_bounds (e : Env) (st : Store) :
  let o := projects_stats_overview e st in
  (o_active o + o_completed o ≤ o_total o)%nat
  ∧ ((∀ p, p ∈ projects st → 0 <= js_or (Project.progress p) 0 <= 100) →
     (0 ≤ o_avgProgress o ≤ 100)%Z)
  ∧ (projects st = [] → o_avgProgress o = 0%Z).
Proof.
  unfold projects_stats_overview, projectDb.getAll.
  cbn [o_avgProgress o_active o_completed o_total].
  split; [|split].
  - induction (projects st) as [|p l IH]; [reflexivity|].
    rewrite !filter_cons_length. cbn [length].
    pose proof (project_status_flags p). lia.
  - intros Hall. unfold Math_round.
    assert (Hmean : 0 <= (if (0 <? length (projects st))%nat
                          then fold_left
                                 (λ sum p, sum + js_or (Project.progress p) 0)
                                 (projects st) 0
                               / inject_Z (Z.of_nat (length (projects st)))
                          else 0) <= 100).
    { destruct (Nat.ltb_spec 0 (length (projects st))) as [Hpos|_];
        [|split; lra].
      rewrite fold_sum_shift, Qplus_0_l.
      destruct (progress_sum_bounds (projects st) Hall) as [Hlo Hhi].
      assert (Hn : 0 < inject_Z (Z.of_nat (length (projects st)))).
      { change 0 with (inject_Z 0). rewrite <- Zlt_Qlt. lia. }
      split.
      - apply Qle_shift_div_l; [exact Hn|]. lra.
      - apply Qle_shift_div_r; [exact Hn|]. lra. }
    destruct Hmean as [Hlo Hhi].
    match goal with
    | |- context [Qfloor (?m + _)] => set (mean := m) in *
    end.
    split.
    + change 0%Z with (Qfloor (0 + (1 # 2))).
      apply Qfloor_resp_le. lra.
    + change 100%Z with (Qfloor (100 + (1 # 2))).
      apply Qfloor_resp_le. lra.
  - intros ->. reflexivity.
Qed.

(** The pending project of the sample store. *)
Lemma projects_overview_bounds_witness :
  (0 ≤ o_avgProgress (projects_stats_overview Sample.env More.store)
   ≤ 100)%Z.
Proof.
  destruct (projects_overview_bounds Sample.env More.store) as (_ & H & _).
  apply H. intros p Hp. apply list_elem_of_singleton in Hp. subst p.
  split; discriminate.
Defined.

(** ** The days an invoice is overdue *)

(** X19. The [daysOverdue] virtual is never negative; it is 0 for a paid
    invoice, for an invoice without due date and until the due date is
    passed, and from then on it is the number of days begun since the due
    date, so at least 1. *)
Theorem daysOverdue_bounds (status : option string) (dueDate : option Z)
    (today : Z) :
  let d := daysOverdue status dueDate today in
  (0 ≤ d)%Z
  ∧ (status = Some "paid" → d = 0%Z)
  ∧ (dueDate = None → d = 0%Z)
  ∧ (∀ due, dueDate = Some due → (today ≤ due)%Z → d = 0%Z)
  ∧ (∀ due, dueDate = Some due → status ≠ Some "paid" → (due < today)%Z →
       (1 ≤ d)%Z
       ∧ ((d - 1) * MS_PER_DAY < today - due ≤ d * MS_PER_DAY)%Z).
Proof.
  assert (Hms : (0 < MS_PER_DAY)%Z) by reflexivity.
  unfold daysOverdue.
  destruct dueDate as [due|].
  - case_bool_decide as Hpaid.
    + repeat split; intros; simplify_eq; try reflexivity; try lia;
        contradiction.
    + destruct (Z.leb_spec today due) as [Hle|Hgt].
      * repeat split; intros; simplify_eq; try reflexivity; lia.
      * pose proof (ceil_div_bounds (today - due) MS_PER_DAY Hms) as Hb.
        cbv zeta in Hb.
        set (d := Math_ceil _) in *.
        assert (1 ≤ d)%Z by nia.
        split; [lia|]. split; [intros; contradiction|].
        split; [discriminate|].
        split; [intros due' [= <-]; lia|].
        intros due' [= <-] _ _. split; [assumption | exact Hb].
  - repeat split; intros; simplify_eq; try reflexivity; lia.
Qed.

(** An invoice due ten days and one millisecond ago. *)
Lemma daysOverdue_bounds_witness :
  daysOverdue (Some "sent") (Some 0%Z) (10 * MS_PER_DAY + 1) = 11%Z
  ∧ (1 ≤ daysOverdue (Some "sent") (Some 0%Z) (10 * MS_PER_DAY + 1))%Z.
Proof.
  split; [reflexivity|].
  destruct (daysOverdue_bounds (Some "sent") (Some 0%Z)
              (10 * MS_PER_DAY + 1)) as (_ & _ & _ & _ & Hlate).
  destruct (Hlate 0%Z eq_refl) as [Hone _]; [discriminate | reflexivity |].
  exact Hone.
Defined.

(** ** Registration and login *)

Lemma prefix_app (p s : string) : String.prefix p (p +:+ s) = true.
Proof.
  induction p as [|a p IH]; simpl.
  - destruct s; reflexivity.
  - destruct (Ascii.ascii_dec a a); [exact IH | contradiction].
Qed.

Section AuthProps.
Variable bcrypt_hash : string → string → string.
Variable bcrypt_compare : string → string → bool.
Variable jwt_sign : option string → option string → Z → string.
Hypothesis compare_hash :
  ∀ salt password, bcrypt_compare password (bcrypt_hash salt password) = true.

(** What [POST /api/auth/register] stores when it accepts the request. *)
Lemma post_register_run (e : Env) (salt name email password : string)
    (users : list User.t) :
  name ≠ "" → email ≠ "" → (6 ≤ String.length password)%nat →
  (∀ u, u ∈ users → User.email u ≠ Some email) →
  let newUser :=
    User.mk (Some (generateId e)) (Some name) (Some email)
      (Some (bcrypt_hash salt password)) (Some "admin") (Some true)
      (Some (now e)) None in
  post_register bcrypt_hash jwt_sign e salt
    (mkCredentials (Some name) (Some email) (Some password)) users
  = (mkResponse 201 "User registered successfully"
       (Some (mkSession
                (jwt_sign (Some (generateId e)) (Some email) (now e))
                (User.withoutPassword newUser))),
     users ++ [newUser]).
Proof.
  intros Hn He Hlen Hfresh newUser.
  assert (Hp : password ≠ "") by (intros ->; cbn in Hlen; lia).
  apply truthy_string_true in Hn, He, Hp.
  unfold post_register. cbn [c_name c_email c_password].
  rewrite Hn, He, Hp. cbn [negb orb].
  destruct (Nat.ltb_spec (String.length password) 6) as [|_]; [lia|].
  unfold userDb_create.
  assert (Hnone : list_find (λ u, User.email u = Some email) users = None).
  { apply list_find_None, Forall_forall. exact Hfresh. }
  rewrite Hnone. reflexivity.
Qed.

(** X20. When [VERCEL] is not set, a user who has just registered can log
    in: with a name, an email that no stored user has and a password of
    at least 6 characters the registration is answered 201 and the user
    is added at the end of the users, and a login with the same email and
    password is then answered 200 for the same user; neither answer
    carries the password hash.  When [VERCEL] is set the login reads the
    shipped users again and is answered 401. *)
Theorem register_then_login (d : Deployment) (e e' : Env)
    (salt name email password : string) (users : list User.t) :
  name ≠ "" → email ≠ "" → (6 ≤ String.length password)%nat →
  (∀ u, u ∈ initializeUsers d users → User.email u ≠ Some email) →
  ∃ s u users1,
    Deployed.post_register bcrypt_hash jwt_sign d e salt
      (mkCredentials (Some name) (Some email) (Some password)) users
    = (mkResponse 201 "User registered successfully" (Some s), users1)
    ∧ users1 = initializeUsers d users ++ [u]
    ∧ User.withoutPassword u = user s
    ∧ User.email (user s) = Some email
    ∧ User.password (user s) = None
    ∧ (VERCEL d = false →
       ∃ s' users2,
         Deployed.post_login bcrypt_compare jwt_sign d e'
           (mkCredentials None (Some email) (Some password)) users1
         = (mkResponse 200 "Login successful" (Some s'), users2)
         ∧ user s' = user s
         ∧ length users2 = S (length users))
    ∧ (VERCEL d = true →
       Deployed.post_login bcrypt_compare jwt_sign d e'
         (mkCredentials None (Some email) (Some password)) users1
       = (mkResponse 401 "Invalid credentials" None, sourceUsers d)).
Proof.
  intros Hn He Hlen Hfresh.
  pose proof (post_register_run e salt name email password
                (initializeUsers d users) Hn He Hlen Hfresh) as Hreg.
  cbv zeta in Hreg.
  assert (Hp : password ≠ "") by (intros ->; cbn in Hlen; lia).
  apply truthy_string_true in He, Hp.
  do 3 eexists. split; [exact Hreg|]. split; [reflexivity|].
  cbn [user User.withoutPassword User.email User.password].
  split; [reflexivity|]. split; [reflexivity|]. split; [reflexivity|].
  unfold Deployed.post_login, initializeUsers in *. split.
  - intros Hlocal. rewrite Hlocal in *.
    unfold post_login. cbn [c_email c_password]. rewrite He, Hp.
    cbn [negb orb].
    unfold userDb_validatePassword, userDb_findByEmail.
    rewrite list_find_snoc by (assumption || reflexivity).
    cbn [fmap option_fmap option_map snd User.password].
    rewrite compare_hash. do 2 eexists. split; [reflexivity|]. cbn [user].
    split; [reflexivity|].
    unfold userDb_updateLastLogin.
    destruct (list_find _ _) as [[i u]|];
      rewrite ?length_insert, length_app; cbn [length]; lia.
  - intros Hreseed. rewrite Hreseed in *.
    unfold post_login. cbn [c_email c_password]. rewrite He, Hp.
    cbn [negb orb].
    unfold userDb_validatePassword, userDb_findByEmail.
    replace (list_find (λ u, User.email u = Some email) (sourceUsers d))
      with (@None (nat * User.t)); [reflexivity|].
    symmetry. apply list_find_None, Forall_forall. exact Hfresh.
Qed.

(** X21. A registration is refused, and the users are left as they are,
    when a field is missing or empty, when the password has fewer than 6
    characters, and when a stored user already has the email; so the
    emails of the stored users stay distinct. *)
Theorem post_register_refusals (e : Env) (salt : string)
    (body : Credentials) (users : list User.t) :
  (∀ password, c_password body = Some password →
               (String.length password < 6)%nat →
     ∃ msg, post_register bcrypt_hash jwt_sign e salt body users
            = (mkResponse 400 msg None, users))
  ∧ ((∃ u, u ∈ users ∧ User.email u = c_email body) →
     ∃ msg, post_register bcrypt_hash jwt_sign e salt body users
            = (mkResponse 400 msg None, users))
  ∧ (NoDup (User.email <$> users) →
     NoDup (User.email
              <$> (post_register bcrypt_hash jwt_sign e salt body users).2)).
Proof.
  unfold post_register.
  destruct (c_name body) as [name|];
    [|split; [eauto|split; [eauto|intros H; exact H]]].
  destruct (c_email body) as [email|];
    [|split; [eauto|split; [eauto|intros H; exact H]]].
  destruct (c_password body) as [password|];
    [|split; [eauto|split; [eauto|intros H; exact H]]].
  destruct (negb (truthy name) || negb (truthy email)
            || negb (truthy password));
    [split; [eauto|split; [eauto|intros H; exact H]]|].
  destruct (Nat.ltb_spec (String.length password) 6) as [Hshort|Hlong];
    [split; [eauto|split; [eauto|intros H; exact H]]|].
  unfold userDb_create.
  destruct (list_find (λ u, User.email u = Some email) users)
    as [[i u]|] eqn:Hfind;
    [split; [eauto|split; [eauto|intros H; exact H]]|].
  split; [|split].
  - intros p [= <-] Hlt. lia.
  - intros (u & Hu & Hmail). exfalso.
    apply list_find_None in Hfind. rewrite Forall_forall in Hfind.
    exact (Hfind u Hu Hmail).
  - intros Hnd. cbn [snd]. rewrite fmap_app. cbn [fmap list_fmap User.email].
    apply NoDup_app. split; [exact Hnd|]. split; [|apply NoDup_singleton].
    intros x Hx Hx'. apply list_elem_of_singleton in Hx'. subst x.
    apply list_elem_of_fmap in Hx as (u & Hu & Hin).
    apply list_find_None in Hfind. rewrite Forall_forall in Hfind.
    exact (Hfind u Hin (eq_sym Hu)).
Qed.

(** A branch of the login route that leaves the users as they are. *)
Ltac refused :=
  cbn [negb orb fst snd payload statusCode];
  repeat split; intros; simplify_eq;
  repeat match goal with
         | H : _ ≠ "" |- _ => apply truthy_string_true in H
         end;
  try reflexivity; congruence.

(** X22. A login changes nothing of the stored users but a [lastLogin]:
    whatever the body and the answer, the users are as many as before and
    their ids, names, emails, password hashes, roles, [isActive] flags
    and creation dates are the ones stored before; a wrong password is
    answered 401 with the users untouched, and no answer carries a
    password hash. *)
Theorem post_login_frame (e : Env) (body : Credentials)
    (users : list User.t) :
  let r := (post_login bcrypt_compare jwt_sign e body users).1 in
  let users' := (post_login bcrypt_compare jwt_sign e body users).2 in
  length users' = length users
  ∧ User.id <$> users' = User.id <$> users
  ∧ User.name <$> users' = User.name <$> users
  ∧ User.email <$> users' = User.email <$> users
  ∧ User.password <$> users' = User.password <$> users
  ∧ User.role <$> users' = User.role <$> users
  ∧ User.isActive <$> users' = User.isActive <$> users
  ∧ User.createdAt <$> users' = User.createdAt <$> users
  ∧ (∀ s, payload r = Some s → User.password (user s) = None)
  ∧ (statusCode r ≠ 200%nat → users' = users)
  ∧ (∀ email password u hash,
       c_email body = Some email → email ≠ "" →
       c_password body = Some password → password ≠ "" →
       userDb_findByEmail email users = Some u →
       User.password u = Some hash →
       bcrypt_compare password hash = false →
       r = mkResponse 401 "Invalid credentials" None).
Proof.
  unfold post_login.
  destruct (c_email body) as [email|]; [|refused].
  destruct (c_password body) as [password|]; [|refused].
  destruct (truthy email) eqn:He; [|refused].
  destruct (truthy password) eqn:Hp; [|refused].
  cbn [negb orb].
  unfold userDb_validatePassword.
  destruct (userDb_findByEmail email users) as [u|] eqn:Hu; [|refused].
  destruct (User.password u) as [hash|] eqn:Hh; [|refused].
  destruct (bcrypt_compare password hash) eqn:Hc; [|refused].
  cbn [fst snd payload statusCode]. unfold userDb_updateLastLogin.
  assert (Hframe :
    ∀ users', users'
              = match list_find (λ u0, User.id u0
                                       = User.id (User.withoutPassword u))
                                users with
                | Some (i, u0) =>
                  <[i := User.setLastLogin (now e) u0]> users
                | None => users
                end →
    length users' = length users
    ∧ User.id <$> users' = User.id <$> users
    ∧ User.name <$> users' = User.name <$> users
    ∧ User.email <$> users' = User.email <$> users
    ∧ User.password <$> users' = User.password <$> users
    ∧ User.role <$> users' = User.role <$> users
    ∧ User.isActive <$> users' = User.isActive <$> users
    ∧ User.createdAt <$> users' = User.createdAt <$> users).
  { intros users' ->.
    destruct (list_find _ users) as [[i u0]|] eqn:Hf;
      [|repeat split; reflexivity].
    apply list_find_Some in Hf as (Hi & _ & _).
    rewrite length_insert, !list_fmap_insert.
    cbn [User.setLastLogin User.id User.name User.email User.password
         User.role User.isActive User.createdAt].
    split; [reflexivity|].
    repeat split; apply list_insert_id;
      rewrite list_lookup_fmap, Hi; reflexivity. }
  destruct (Hframe _ eq_refl) as (H0 & H1 & H2 & H3 & H4 & H5 & H6 & H7).
  split; [exact H0|]. split; [exact H1|]. split; [exact H2|].
  split; [exact H3|]. split; [exact H4|]. split; [exact H5|].
  split; [exact H6|]. split; [exact H7|].
  split; [intros s [= <-]; reflexivity|].
  split; [intros H; contradiction|].
  intros email' password' u' hash' [= <-] _ [= <-] _ Hu' Hh' Hc'.
  congruence.
Qed.
End AuthProps.

Lemma compare_hash_stand_in (salt password : string) :
  More.compare password (More.hash salt password) = true.
Proof. apply prefix_app. Qed.

(** Ada registers and logs in; on a serverless deployment that ships no
    user she registers and is refused. *)
Lemma register_then_login_witness :
  (∃ s u users1 s' users2,
     Deployed.post_register More.hash More.sign inPlace Sample.env "salt"
       (More.credentials "secret1") []
     = (mkResponse 201 "User registered successfully" (Some s), users1)
     ∧ users1 = [u]
     ∧ Deployed.post_login More.compare More.sign inPlace More.env
         (mkCredentials None (Some "ada@acme.com") (Some "secret1")) users1
       = (mkResponse 200 "Login successful" (Some s'), users2)
     ∧ user s' = user s)
  ∧ ∃ s users1,
      Deployed.post_register More.hash More.sign serverless Sample.env "salt"
        (More.credentials "secret1") []
      = (mkResponse 201 "User registered successfully" (Some s), users1)
      ∧ Deployed.post_login More.compare More.sign serverless More.env
          (mkCredentials None (Some "ada@acme.com") (Some "secret1")) users1
        = (mkResponse 401 "Invalid credentials" None, []).
Proof.
  split.
  - destruct (register_then_login More.hash More.compare More.sign
                compare_hash_stand_in inPlace Sample.env More.env "salt"
                "Ada" "ada@acme.com" "secret1" [])
      as (s & u & users1 & Hreg & Husers & _ & _ & _ & Hlocal & _).
    + discriminate.
    + discriminate.
    + cbn. lia.
    + intros u Hu. apply elem_of_nil in Hu. contradiction.
    + destruct (Hlocal eq_refl) as (s' & users2 & Hlog & Hsame & _).
      exists s, u, users1, s', users2. auto.
  - destruct (register_then_login More.hash More.compare More.sign
                compare_hash_stand_in serverless Sample.env More.env "salt"
                "Ada" "ada@acme.com" "secret1" [])
      as (s & u & users1 & Hreg & _ & _ & _ & _ & _ & Hreseed).
    + discriminate.
    + discriminate.
    + cbn. lia.
    + intros u Hu. apply elem_of_nil in Hu. contradiction.
    + exists s, users1. split; [exact Hreg | exact (Hreseed eq_refl)].
Defined.

(** A password of five characters, and the email of Ada a second time. *)
Lemma post_register_refusals_witness :
  (∃ msg,
     post_register More.hash More.sign Sample.env "salt"
       (More.credentials "12345") []
     = (mkResponse 400 msg None, []))
  ∧ ∃ msg,
      post_register More.hash More.sign More.env "pepper"
        (More.credentials "secret2")
        (post_register More.hash More.sign Sample.env "salt"
           (More.credentials "secret1") []).2
      = (mkResponse 400 msg None,
         (post_register More.hash More.sign Sample.env "salt"
            (More.credentials "secret1") []).2).
Proof.
  split.
  - pose proof (post_register_refusals More.hash More.sign Sample.env "salt"
                  (More.credentials "12345") []) as (Hshort & _).
    apply (Hshort "12345" eq_refl). cbn. lia.
  - pose proof (post_register_refusals More.hash More.sign More.env "pepper"
                  (More.credentials "secret2")
                  (post_register More.hash More.sign Sample.env "salt"
                     (More.credentials "secret1") []).2) as (_ & Hdup & _).
    apply Hdup. eexists. split; [apply list_elem_of_here | reflexivity].
Defined.

(** Ada logs in with a wrong password. *)
Lemma post_login_frame_witness :
  (post_login More.compare More.sign More.env
     (mkCredentials None (Some "ada@acme.com") (Some "guess"))
     (post_register More.hash More.sign Sample.env "salt"
        (More.credentials "secret1") []).2).1
  = mkResponse 401 "Invalid credentials" None.
Proof.
  pose proof (post_login_frame More.compare More.sign More.env
                (mkCredentials None (Some "ada@acme.com") (Some "guess"))
                (post_register More.hash More.sign Sample.env "salt"
                   (More.credentials "secret1") []).2)
    as (_ & _ & _ & _ & _ & _ & _ & _ & _ & _ & Hwrong).
  eapply (Hwrong "ada@acme.com" "guess"); try reflexivity; discriminate.
Defined.

(** ** Reading back what was created *)

(** X23. When [VERCEL] is not set, a project that was just created is
    read back by its id: when no stored project has the generated id,
    [GET /api/projects/:id] on this id answers the created project under
    the name of its client. *)
Theorem post_then_get_project (d : Deployment) (e : Env) (body : Project.t)
    (disk : Store) (title clientId : string) (i : nat) (c : Client.t) :
  VERCEL d = false →
  Project.title body = Some title → title ≠ "" →
  Project.clientId body = Some clientId → clientId ≠ "" →
  list_find (λ c, Client.id c = Some clientId) (clients disk) = Some (i, c) →
  (∀ p, p ∈ projects disk → Project.id p ≠ Some (generateId e)) →
  ∃ project disk' v,
    Deployed.post_project d e body disk
    = (mkResponse 201 "Project created successfully" (Some project), disk')
    ∧ projects disk' = projects disk ++ [project]
    ∧ Deployed.get_project d (generateId e) disk'
      = mkResponse 200 "" (Some v)
    ∧ record v = project
    ∧ Project.title project = Some title
    ∧ clientName v = Client.name c
    ∧ clientCompany v = Client.company c.
Proof.
  intros Hlocal Htitle Ht Hcid Hc Hfind Hfresh.
  destruct (post_project_run e body disk title clientId i c)
    as (project & Hrun & Hid & Hpc); try assumption.
  assert (Hptitle : Project.title project = Some title).
  { revert Hrun. unfold post_project.
    apply truthy_string_true in Ht, Hc.
    rewrite Htitle, Hcid, Ht, Hc. cbn [negb orb].
    unfold clientDb.findById. rewrite Hfind.
    cbn [fmap option_fmap option_map snd].
    unfold projectDb.create. intros [= <- _]. reflexivity. }
  rewrite (post_project_in_place d e body disk Hlocal).
  exists project. do 2 eexists. split; [exact Hrun|].
  cbn [projects]. split; [reflexivity|].
  unfold Deployed.get_project.
  rewrite (initializeDatabase_in_place d _ Hlocal).
  unfold get_project, projectDb2.findById. cbn [projects].
  rewrite (list_find_snoc _ (projects disk) project Hfresh Hid).
  cbn [fmap option_fmap option_map snd]. unfold findClient.
  cbn [clients]. rewrite Hpc.
  apply list_find_Some in Hfind as Hfacts.
  destruct Hfacts as (_ & Hcid' & _).
  rewrite (list_find_insert_same _ (clients disk) i c
             (incrementTotalProjects c) Hfind Hcid').
  cbn. repeat split; try reflexivity. exact Hptitle.
Qed.

(** A project for Acme, created and read back. *)
Lemma post_then_get_project_witness :
  ∃ project disk' v,
    Deployed.post_project inPlace Sample.env (Sample.projectBody "c1")
      Sample.store
    = (mkResponse 201 "Project created successfully" (Some project), disk')
    ∧ projects disk' = [project]
    ∧ Deployed.get_project inPlace (generateId Sample.env) disk'
      = mkResponse 200 "" (Some v)
    ∧ clientName v = Some "Acme".
Proof.
  destruct (post_then_get_project inPlace Sample.env
              (Sample.projectBody "c1") Sample.store "Site" "c1" 0
              Sample.acme)
    as (project & disk' & v & Hrun & Hst & Hget & _ & _ & Hname & _).
  - reflexivity.
  - reflexivity.
  - discriminate.
  - reflexivity.
  - discriminate.
  - reflexivity.
  - intros p Hp. apply elem_of_nil in Hp. contradiction.
  - exists project, disk', v. auto.
Defined.

(** X24. When [VERCEL] is not set, a client that was just created is read
    back by its id when no stored client has the generated id, and is
    then refused a second creation under the same email. *)
Theorem post_then_get_client (d : Deployment) (e e' : Env) (body : Client.t)
    (disk : Store) (name email : string) :
  VERCEL d = false →
  Client.name body = Some name → name ≠ "" →
  Client.email body = Some email → email ≠ "" →
  (∀ c, c ∈ clients disk → Client.email c ≠ Some email) →
  (∀ c, c ∈ clients disk → Client.id c ≠ Some (generateId e)) →
  ∃ client disk',
    Deployed.post_client d e body disk
    = (mkResponse 201 "Client created successfully" (Some client), disk')
    ∧ clients disk' = clients disk ++ [client]
    ∧ Deployed.get_client d (generateId e) disk'
      = mkResponse 200 "" (Some client)
    ∧ Deployed.post_client d e' body disk'
      = (mkResponse 400 "Client with this email already exists" None, disk').
Proof.
  intros Hlocal Hname Hn Hemail He Hfresh Hid. in_place Hlocal.
  assert (Hnone : list_find (λ c, Client.email c = Some email) (clients disk)
                  = None).
  { apply list_find_None, Forall_forall. exact Hfresh. }
  apply truthy_string_true in Hn, He.
  unfold post_client at 1. rewrite Hname, Hemail, Hn, He. cbn [negb orb].
  unfold clientDb.getAll. rewrite Hnone.
  unfold clientDb.create. cbn [Client.id].
  do 2 eexists. split; [reflexivity|].
  cbn [clientDb.writeAll clients]. split; [reflexivity|]. split.
  - unfold get_client, clientDb.getAll. cbn [clientDb.writeAll clients].
    rewrite list_find_snoc by (assumption || reflexivity). reflexivity.
  - unfold post_client. rewrite Hname, Hemail, Hn, He. cbn [negb orb].
    unfold clientDb.getAll. cbn [clientDb.writeAll clients].
    rewrite list_find_snoc by (assumption || reflexivity). reflexivity.
Qed.

(** A second client of the sample store. *)
Lemma post_then_get_client_witness :
  ∃ client disk',
    Deployed.post_client inPlace Sample.env (Sample.clientBody "b@acme.com")
      Sample.store
    = (mkResponse 201 "Client created successfully" (Some client), disk')
    ∧ clients disk' = [Sample.acme; client]
    ∧ Deployed.get_client inPlace (generateId Sample.env) disk'
      = mkResponse 200 "" (Some client).
Proof.
  destruct (post_then_get_client inPlace Sample.env More.env
              (Sample.clientBody "b@acme.com") Sample.store "Acme 2"
              "b@acme.com")
    as (client & disk' & Hrun & Hst & Hget & _).
  - reflexivity.
  - reflexivity.
  - discriminate.
  - reflexivity.
  - discriminate.
  - intros c Hc. apply list_elem_of_singleton in Hc as ->. discriminate.
  - intros c Hc. apply list_elem_of_singleton in Hc as ->. discriminate.
  - exists client, disk'. auto.
Defined.

(** ** What the form shows and what the server stores *)



(** ** The characters of an invoice number *)

Lemma length_string_app (s1 s2 : string) :
  String.length (s1 +:+ s2) = (String.length s1 + String.length s2)%nat.
Proof. induction s1 as [|a s1 IH]; simpl; [reflexivity | rewrite IH; lia]. Qed.

Lemma length_repeat_char (n : nat) (c : Ascii.ascii) :
  String.length (repeat_char n c) = n.
Proof. induction n as [|n IH]; simpl; [reflexivity | rewrite IH; lia]. Qed.

Lemma padStart_length (width : nat) (c : Ascii.ascii) (s : string) :
  String.length (padStart width c s) = Nat.max width (String.length s).
Proof.
  unfold padStart. rewrite length_string_app, length_repeat_char. lia.
Qed.

Lemma uint_of_padded (k : nat) (s : string) :
  N.of_uint <$> NilEmpty.uint_of_string (repeat_char k "0" +:+ s)
  = N.of_uint <$> NilEmpty.uint_of_string s.
Proof.
  induction k as [|k IH]; [reflexivity|].
  simpl in *. destruct (NilEmpty.uint_of_string (repeat_char k "0" +:+ s));
    destruct (NilEmpty.uint_of_string s); simpl in *; congruence.
Qed.

Lemma invoiceCount_invoiceNumberAt (n : nat) :
  invoiceCount (invoiceNumberAt n) = Some (N.of_nat (n + 1)).
Proof.
  change (invoiceCount (invoiceNumberAt n))
    with (N.of_uint
            <$> NilEmpty.uint_of_string
                  (padStart 4 "0" (String_of_N (N.of_nat (n + 1))))).
  unfold padStart. rewrite uint_of_padded.
  unfold String_of_N. rewrite NilEmpty.usu.
  cbn [fmap option_fmap option_map].
  rewrite DecimalN.Unsigned.of_to. reflexivity.
Qed.

(** X26. An invoice number can be read back: it is [INV-] followed by the
    count in decimal, filled to four digits and never cut, so it has at
    least eight characters and different counts give different numbers;
    when [VERCEL] is not set, two invoices created one after the other
    get numbers that follow each other, and so differ. *)
Theorem invoice_numbers_differ (d : Deployment) (e1 e2 : Env)
    (body1 body2 : Invoice.Body) (st st1 st2 : Store)
    (r1 r2 : Response Invoice.t) :
  VERCEL d = false →
  Deployed.post_invoice d e1 body1 st = (r1, st1) →
  statusCode r1 = 201%nat →
  Deployed.post_invoice d e2 body2 st1 = (r2, st2) →
  statusCode r2 = 201%nat →
  ∃ inv1 inv2 n,
    payload r1 = Some inv1 ∧ payload r2 = Some inv2
    ∧ Invoice.invoiceNumber inv1 = Some (invoiceNumberAt n)
    ∧ Invoice.invoiceNumber inv2 = Some (invoiceNumberAt (S n))
    ∧ invoiceCount (invoiceNumberAt n) = Some (N.of_nat (n + 1))
    ∧ (8 ≤ String.length (invoiceNumberAt n))%nat
    ∧ (∀ m, invoiceNumberAt m = invoiceNumberAt n → m = n)
    ∧ Invoice.invoiceNumber inv1 ≠ Invoice.invoiceNumber inv2.
Proof.
  intros Hlocal Hp1 Hc1 Hp2 Hc2. in_place Hlocal.
  destruct (post_invoice_201_number _ _ _ _ _ Hp1 Hc1)
    as (inv1 & Hr1 & Hst1 & Hn1).
  destruct (post_invoice_201_number _ _ _ _ _ Hp2 Hc2)
    as (inv2 & Hr2 & _ & Hn2).
  rewrite Hst1, length_app in Hn2. cbn [length] in Hn2.
  rewrite Nat.add_1_r in Hn2.
  exists inv1, inv2, (length (invoices st)).
  split; [exact Hr1|]. split; [exact Hr2|]. split; [exact Hn1|].
  split; [exact Hn2|]. split; [apply invoiceCount_invoiceNumberAt|].
  split; [|split].
  - unfold invoiceNumberAt. rewrite length_string_app, padStart_length.
    cbn [String.length]. lia.
  - intros m Heq. apply (f_equal invoiceCount) in Heq.
    rewrite !invoiceCount_invoiceNumberAt in Heq. injection Heq. lia.
  - rewrite Hn1, Hn2. intros Hsame.
    assert (Heq : invoiceNumberAt (length (invoices st))
                  = invoiceNumberAt (S (length (invoices st))))
      by congruence.
    apply (f_equal invoiceCount) in Heq.
    rewrite !invoiceCount_invoiceNumberAt in Heq. injection Heq. lia.
Qed.

(** Two invoices are created in the sample store. *)
Lemma invoice_numbers_differ_witness :
  ∃ inv1 inv2,
    Invoice.invoiceNumber inv1 = Some "INV-0001"
    ∧ Invoice.invoiceNumber inv2 = Some "INV-0002"
    ∧ Invoice.invoiceNumber inv1 ≠ Invoice.invoiceNumber inv2.
Proof.
  pose (p1 := Deployed.post_invoice inPlace Sample.env Sample.invoiceBody
                Sample.store).
  pose (p2 := Deployed.post_invoice inPlace More.env Sample.invoiceBody p1.2).
  destruct (invoice_numbers_differ inPlace Sample.env More.env
              Sample.invoiceBody Sample.invoiceBody Sample.store p1.2 p2.2
              p1.1 p2.1 eq_refl eq_refl eq_refl eq_refl eq_refl)
    as (inv1 & inv2 & n & H1 & H2 & _ & _ & _ & _ & _ & Hne).
  exists inv1, inv2. injection H1 as <-. injection H2 as <-.
  split; [reflexivity|]. split; [reflexivity | exact Hne].
Defined.

(** ** Client statistics *)

Lemma client_status_flags (c : Client.t) :
  (Nat.b2n (bool_decide (Client.status c = Some "active"))
   + Nat.b2n (bool_decide (Client.status c = Some "inactive"))
   + Nat.b2n (bool_decide (Client.status c = Some "prospect")) ≤ 1)%nat.
Proof. repeat case_bool_decide; cbn [Nat.b2n]; try lia; congruence. Qed.

(** X27. The three counts of the client overview never exceed the number
    of clients, and they add up to it when every client is active,
    inactive or a prospect. *)
Theorem clients_overview_counts (st : Store) :
  let o := clients_stats_overview st in
  (co_active o + co_inactive o + co_prospects o ≤ co_total o)%nat
  ∧ ((∀ c, c ∈ clients st →
           Client.status c = Some "active"
           ∨ Client.status c = Some "inactive"
           ∨ Client.status c = Some "prospect") →
     (co_active o + co_inactive o + co_prospects o)%nat = co_total o).
Proof.
  unfold clients_stats_overview, clientDb.getAll.
  cbn [co_active co_inactive co_prospects co_total].
  induction (clients st) as [|c l [IHle IHeq]]; [split; reflexivity|].
  rewrite !filter_cons_length. cbn [length].
  pose proof (client_status_flags c) as Hflags. split; [lia|].
  intros Hall.
  assert (Hl : ∀ c', c' ∈ l →
                 Client.status c' = Some "active"
                 ∨ Client.status c' = Some "inactive"
                 ∨ Client.status c' = Some "prospect")
    by (intros c' Hc'; apply Hall, list_elem_of_further, Hc').
  specialize (IHeq Hl).
  clear Hflags.
  destruct (Hall c (list_elem_of_here _ _)) as [H|[H|H]];
    repeat case_bool_decide; cbn [Nat.b2n]; try lia; congruence.
Qed.

(** The two active clients of the sample store. *)
Lemma clients_overview_counts_witness :
  co_active (clients_stats_overview More.store) = 2%nat
  ∧ (co_active (clients_stats_overview More.store)
     + co_inactive (clients_stats_overview More.store)
     + co_prospects (clients_stats_overview More.store))%nat
    = co_total (clients_stats_overview More.store).
Proof.
  split; [reflexivity|].
  apply (proj2 (clients_overview_counts More.store)).
  intros c Hc. left.
  apply elem_of_cons in Hc as [->|Hc]; [reflexivity|].
  apply list_elem_of_singleton in Hc as ->. reflexivity.
Defined.
